(** * Scanning patterns: a shallow embedding of [scanning/coordinates.py]
      and [scanning/scanning.py]

    Python floats are idealised as real numbers ([R]); Python ints are [Z];
    exceptions are explicit outcomes.  A [while] loop is run with fuel and
    [OutOfFuel] is the outcome of a run that did not finish within it. *)

From Stdlib Require Import Reals Lra Lia ZArith String List Bool Psatz.
Import ListNotations.

Open Scope R_scope.

(** ** Outcomes of Python code *)

Inductive exn : Type :=
| ValueError (msg : string)
| TypeError (msg : string)
| ZeroDivisionError (divisor : string)
| IndexError
| AttributeError (attr : string)
| KeyError (key : string)
| AssertionError
| UnboundLocalError (var : string).

Inductive outcome (A : Type) : Type :=
| Ok (a : A)
| Raise (e : exn)
| OutOfFuel.

Arguments Ok {A} a.
Arguments Raise {A} e.
Arguments OutOfFuel {A}.

Definition bind {A B : Type} (m : outcome A) (k : A -> outcome B) : outcome B :=
  match m with
  | Ok a => k a
  | Raise e => Raise e
  | OutOfFuel => OutOfFuel
  end.

Notation "x <- m ;; k" := (bind m (fun x => k))
  (at level 61, m at next level, right associativity).
Notation "' p <- m ;; k" := (bind m (fun p => k))
  (at level 61, p pattern, m at next level, right associativity).

Definition assert {A : Type} (b : bool) (k : outcome A) : outcome A :=
  if b then k else Raise AssertionError.

(** ** Python and numpy primitives on idealised floats *)

Definition Rltb (a b : R) : bool := if Rlt_dec a b then true else false.
Definition Rleb (a b : R) : bool := if Rle_dec a b then true else false.
Definition Rgtb (a b : R) : bool := Rltb b a.
Definition Rgeb (a b : R) : bool := Rleb b a.
Definition Reqb (a b : R) : bool := if Req_dec_T a b then true else false.

(** [a / b] on floats: raises on a zero divisor; the exception records which
    variable of the source was the divisor. *)
Definition pydiv (a b : R) (divisor : string) : outcome R :=
  if Reqb b 0 then Raise (ZeroDivisionError divisor) else Ok (a / b).

(** [math.sqrt]: raises on a negative argument. *)
Definition pysqrt (a : R) : outcome R :=
  if Rltb a 0 then Raise (ValueError "math domain error") else Ok (sqrt a).

(** [a % m] on floats, for a positive modulus: the result has the sign of [m]. *)
Definition pymod (a m : R) : R := a - m * IZR (Zfloor (a / m)).

(** [math.floor], [math.ceil], [int] on floats. *)
Definition pyfloor (a : R) : Z := Zfloor a.
Definition pyceil (a : R) : Z := Zceil a.
Definition pyint (a : R) : Z := if Rleb 0 a then Zfloor a else Zceil a.

(** [math.acos], [math.asin]: raise outside [[-1, 1]]. *)
Definition pyacos (a : R) : outcome R :=
  if Rltb a (-1) || Rltb 1 a then Raise (ValueError "math domain error")
  else Ok (acos a).
Definition pyasin (a : R) : outcome R :=
  if Rltb a (-1) || Rltb 1 a then Raise (ValueError "math domain error")
  else Ok (asin a).

(** [np.arctan2(y, x)], the angle of the point [(x, y)] in [(-PI, PI]]. *)
Definition arctan2 (y x : R) : R :=
  if Rltb 0 x then atan (y / x)
  else if Rltb x 0 then
    if Rleb 0 y then atan (y / x) + PI else atan (y / x) - PI
  else if Rltb 0 y then PI / 2
  else if Rltb y 0 then - (PI / 2)
  else 0.

(** [a[a > 1] = 1; a[a < -1] = -1] on one element. *)
Definition clip1 (a : R) : R :=
  if Rltb 1 a then 1 else if Rltb a (-1) then -1 else a.

Definition radians (d : R) : R := d * (PI / 180).
Definition degrees (r : R) : R := r * (180 / PI).

(** [range(start, stop, step)] for a positive step, and its two short forms. *)
Definition range3 (start stop step : Z) : list Z :=
  map (fun k => (start + Z.of_nat k * step)%Z)
      (seq 0 (Z.to_nat ((stop - start + step - 1) / step))).
Definition range2 (start stop : Z) : list Z := range3 start stop 1.
Definition range (stop : Z) : list Z := range3 0 stop 1.

(** [np.empty(N)] refuses a negative size. *)
Definition np_empty (N : Z) : outcome unit :=
  if (N <? 0)%Z then Raise (ValueError "negative dimensions are not allowed")
  else Ok tt.

(** A [for] loop over a list, threading the loop-carried variables. *)
Fixpoint for_each {A S : Type} (l : list A) (s : S) (body : A -> S -> outcome S)
  : outcome S :=
  match l with
  | [] => Ok s
  | a :: l' => s' <- body a s ;; for_each l' s' body
  end.

(** ** One-period data: the columns of the DataFrame *)

Record sample : Type := mkSample {
  time_offset : R;
  x_coord : R;
  y_coord : R
}.

Definition DataFrame := list sample.

(** * Pong: vertex counts *)

Module PongVertices.

(** [l.index(v)] on a list: position of the first element equal to [v]. *)
Fixpoint index (v : Z) (l : list Z) : nat :=
  match l with
  | [] => O
  | a :: l' => if (a =? v)%Z then O else S (index v l')
  end.

Definition get (l : list Z) (i : nat) : Z := nth i l 0%Z.

Fixpoint set (l : list Z) (i : nat) (v : Z) : list Z :=
  match l, i with
  | [], _ => []
  | _ :: l', O => v :: l'
  | a :: l', S i' => a :: set l' i' v
  end.

(** [if x_numvert%2 == y_numvert%2: ...] *)
Definition fix_parity (x_numvert y_numvert : Z) : Z * Z :=
  if (x_numvert mod 2 =? y_numvert mod 2)%Z then
    if (x_numvert >=? y_numvert)%Z then (x_numvert, (y_numvert + 1)%Z)
    else ((x_numvert + 1)%Z, y_numvert)
  else (x_numvert, y_numvert).

(** [while math.gcd(num_vert[most_i], num_vert[least_i]) != 1: num_vert[most_i] += 2] *)
Fixpoint coprime_loop (fuel : nat) (num_vert : list Z) (most_i least_i : nat)
  : outcome (list Z) :=
  if (Z.gcd (get num_vert most_i) (get num_vert least_i) =? 1)%Z then Ok num_vert
  else match fuel with
       | O => OutOfFuel
       | S fuel' =>
           coprime_loop fuel' (set num_vert most_i (get num_vert most_i + 2)%Z)
                        most_i least_i
       end.

(** The integer part of [_generate_scan], from the two ceilings to the two
    asserts. *)
Definition adjust (fuel : nat) (x_numvert y_numvert : Z) : outcome (Z * Z) :=
  let '(x_numvert, y_numvert) := fix_parity x_numvert y_numvert in
  let num_vert := [x_numvert; y_numvert] in
  let most_i := index (Z.max x_numvert y_numvert) num_vert in
  let least_i := index (Z.min x_numvert y_numvert) num_vert in
  num_vert <- coprime_loop fuel num_vert most_i least_i ;;
  let x_numvert := get num_vert 0 in
  let y_numvert := get num_vert 1 in
  assert (Z.gcd x_numvert y_numvert =? 1)%Z
    (assert (((x_numvert mod 2 =? 0) && (y_numvert mod 2 =? 1))
             || ((x_numvert mod 2 =? 1) && (y_numvert mod 2 =? 0)))%Z
       (Ok (x_numvert, y_numvert))).

(** [vert_spacing = sqrt(2)*spacing] and the two ceilings, then [adjust]. *)
Definition numvert (fuel : nat) (width height spacing : R) : outcome (Z * Z) :=
  let vert_spacing := sqrt 2 * spacing in
  qx <- pydiv width vert_spacing "vert_spacing" ;;
  let x_numvert := pyceil qx in
  qy <- pydiv height vert_spacing "vert_spacing" ;;
  let y_numvert := pyceil qy in
  adjust fuel x_numvert y_numvert.

Definition opposite_parity (x y : Z) : Prop :=
  ((x mod 2 = 0 /\ y mod 2 = 1) \/ (x mod 2 = 1 /\ y mod 2 = 0))%Z.

End PongVertices.


(** * SkyPattern: repeat control and tiling *)

(** [num_repeat] is an int, or [math.nan] while [max_scan_duration] is pending. *)
Inductive repeat_count : Type :=
| nan
| count (n : Z).

Module SkyPattern.

(** The keyword arguments that reach [_clean_param]. *)
Record kwargs : Type := mkKwargs {
  kw_num_repeat : option Z;
  kw_max_scan_duration : option R;
  kw_sample_interval : R
}.

(** [self.param] *)
Record param : Type := mkParam {
  num_repeat : repeat_count;
  max_scan_duration : option R;
  sample_interval : R
}.

Definition present {A : Type} (o : option A) : bool :=
  match o with Some _ => true | None => false end.

Definition _clean_param (repeatable : bool) (kw : kwargs) : outcome param :=
  if repeatable then
    if present (kw_max_scan_duration kw) && present (kw_num_repeat kw) then
      Raise (ValueError "max_scan_duration and num_repeat cannot be inputted together")
    else if present (kw_max_scan_duration kw) then
      Ok (mkParam nan (kw_max_scan_duration kw) (kw_sample_interval kw))
    else
      Ok (mkParam (count (match kw_num_repeat kw with Some n => n | None => 1%Z end))
                  None (kw_sample_interval kw))
  else
    if present (kw_max_scan_duration kw) || present (kw_num_repeat kw) then
      Raise (ValueError "this is not a repeatable SkyPattern, so max_scan_duration and num_repeat cannot be initialized")
    else
      Ok (mkParam (count 1) None (kw_sample_interval kw)).

(** [data['time_offset']] and the column assignment [data['time_offset'] = col]. *)
Definition time_offsets (data : DataFrame) : list R := map time_offset data.

Fixpoint set_time_offsets (data : DataFrame) (col : list R) : DataFrame :=
  match data, col with
  | s :: data', t :: col' =>
      mkSample t (x_coord s) (y_coord s) :: set_time_offsets data' col'
  | _, _ => []
  end.

(** [data.iloc[-1]['time_offset']] *)
Definition last_time_offset (data : DataFrame) : outcome R :=
  match data with
  | [] => Raise IndexError
  | s :: data' => Ok (time_offset (last data' s))
  end.

(** The body of [for i in range(1, num_repeat)]; the loop carries
    [(data_temp, data)], while [time_offset] stays the column of the
    one-period data. *)
Definition repeat_body (time_offset : list R) (one_scan_duration : R) (i : Z)
  (s : DataFrame * DataFrame) : outcome (DataFrame * DataFrame) :=
  let '(data_temp, data) := s in
  let data_temp :=
    set_time_offsets data_temp
      (map (fun t => t + one_scan_duration * IZR i) time_offset) in
  Ok (data_temp, data ++ data_temp).

(** Returns the updated [self.param] with the tiled data. *)
Definition _repeat_scan (p : param) (data : DataFrame) : outcome (param * DataFrame) :=
  last <- last_time_offset data ;;
  let one_scan_duration := last + sample_interval p in
  '(p, num_repeat) <-
    match num_repeat p with
    | nan =>
        match max_scan_duration p with
        | None => Raise (KeyError "max_scan_duration")
        | Some max_scan_duration =>
            q <- pydiv max_scan_duration one_scan_duration "one_scan_duration" ;;
            let num_repeat := pyfloor q in
            if (num_repeat <? 1)%Z then
              Raise (ValueError "max_scan_duration is too short")
            else Ok (mkParam (count num_repeat) None (sample_interval p), num_repeat)
        end
    | count n => Ok (p, n)
    end ;;
  let time_offset := time_offsets data in
  if (num_repeat >? 1)%Z then
    '(_, data) <- for_each (range2 1 num_repeat) (data, data)
                    (repeat_body time_offset one_scan_duration) ;;
    Ok (p, data)
  else Ok (p, data).

(** [np.diff], [np.mean], [np.std] on a column. *)
Fixpoint np_diff (l : list R) : list R :=
  match l with
  | a :: ((b :: _) as l') => (b - a) :: np_diff l'
  | _ => []
  end.

Definition np_sum (l : list R) : R := fold_right Rplus 0 l.
Definition np_mean (l : list R) : R := np_sum l / INR (length l).
Definition np_std (l : list R) : R :=
  sqrt (np_mean (map (fun a => (a - np_mean l) * (a - np_mean l)) l)).

(** [np.std(l)/np.mean(l) <= 0.01]; the quotient is NaN or infinite, and the
    comparison false, when [l] is empty or its mean is zero. *)
Definition spread_ok (l : list R) : bool :=
  match l with
  | [] => false
  | _ => if Reqb (np_mean l) 0 then false
         else Rleb (np_std l / np_mean l) (1 / 100)
  end.

(** [SkyPattern.__init__] on in-memory data; [kw_sample_interval] is
    overwritten by the measured interval. *)
Definition __init__ (data : DataFrame) (repeatable : bool) (kw : kwargs)
  : outcome (param * DataFrame) :=
  let sample_interval_list := np_diff (time_offsets data) in
  if spread_ok sample_interval_list then
    let kw := mkKwargs (kw_num_repeat kw) (kw_max_scan_duration kw)
                       (np_mean sample_interval_list) in
    p <- _clean_param repeatable kw ;;
    _repeat_scan p data
  else Raise (ValueError "sample_interval must be constant").

End SkyPattern.

(** [pd.DataFrame({'time_offset': ..., 'x_coord': ..., 'y_coord': ...})]:
    the columns must have one length. *)
Fixpoint zip_columns (t x y : list R) : DataFrame :=
  match t, x, y with
  | t0 :: t', x0 :: x', y0 :: y' => mkSample t0 x0 y0 :: zip_columns t' x' y'
  | _, _, _ => []
  end.

Definition pd_DataFrame (t x y : list R) : outcome DataFrame :=
  if (length t =? length x)%nat && (length x =? length y)%nat then
    Ok (zip_columns t x y)
  else Raise (ValueError "All arrays must be of the same length").

(** * Pong ([coordinates.py]) *)

(** Local variables of [_generate_scan] between the vertex counts and the
    sampling loop; both Pong generators compute the same ones. *)
Record timing : Type := mkTiming {
  vavg : R;
  peri_x : R;
  peri_y : R;
  period : R;
  pongcount : Z;
  amp_x : R;
  amp_y : R
}.

Module Pong.

Record kwargs : Type := mkKwargs {
  kw_num_term : Z;
  kw_width : R;
  kw_height : R;
  kw_spacing : R;
  kw_velocity : R;
  kw_angle : option R;
  kw_sample_interval : option R;
  kw_num_repeat : option Z;
  kw_max_scan_duration : option R
}.

(** [self.param]: the repeat control of [SkyPattern] and the Pong fields. *)
Record param : Type := mkParam {
  repeat : SkyPattern.param;
  num_term : Z;
  width : R;
  height : R;
  spacing : R;
  velocity : R;
  angle : R
}.

Definition repeatable : bool := true.

Definition get {A : Type} (o : option A) (default : A) : A :=
  match o with Some a => a | None => default end.

Definition _clean_param (kw : kwargs) : outcome param :=
  r <- SkyPattern._clean_param repeatable
         (SkyPattern.mkKwargs (kw_num_repeat kw) (kw_max_scan_duration kw)
            (get (kw_sample_interval kw) (1 / 400))) ;;
  Ok (mkParam r (kw_num_term kw) (kw_width kw) (kw_height kw) (kw_spacing kw)
              (kw_velocity kw) (get (kw_angle kw) 0)).

(** [c = math.pow(-1, (n-1)/2)/n**2; pos += c * sin(b*n*t_count)] *)
Definition coeff (n : Z) : R :=
  (-1) ^ Z.to_nat ((n - 1) / 2) / (IZR n * IZR n).

Definition _fourier_expansion (num_term : Z) (amp t_count peri : R) : outcome R :=
  let N := (num_term * 2 - 1)%Z in
  let a := 8 * amp / (PI * PI) in
  b <- pydiv (2 * PI) peri "peri" ;;
  pos <- for_each (range3 1 (N + 1) 2) 0
           (fun n pos => Ok (pos + coeff n * sin (b * IZR n * t_count))) ;;
  Ok (pos * a).

(** [vavg = velocity/sqrt(2)]: velocity is the total velocity and [vavg] the
    single-direction velocity. *)
Definition timing_of (x_numvert y_numvert : Z) (vert_spacing velocity sample_interval : R)
  : outcome timing :=
  let vavg := velocity / sqrt 2 in
  peri_x <- pydiv (IZR x_numvert * vert_spacing * 2) vavg "vavg" ;;
  peri_y <- pydiv (IZR y_numvert * vert_spacing * 2) vavg "vavg" ;;
  period <- pydiv (IZR x_numvert * IZR y_numvert * vert_spacing * 2) vavg "vavg" ;;
  q <- pydiv period sample_interval "sample_interval" ;;
  let pongcount := pyceil q in
  let amp_x := IZR x_numvert * vert_spacing / 2 in
  let amp_y := IZR y_numvert * vert_spacing / 2 in
  Ok (mkTiming vavg peri_x peri_y period pongcount amp_x amp_y).

(** Loop-carried variables of the sampling loop. *)
Record acc : Type := mkAcc {
  t_count : R;
  time_offset_l : list R;
  x_coord_l : list R;
  y_coord_l : list R
}.

Definition sample_body (num_term : Z) (tm : timing) (angle sample_interval : R)
  (i : Z) (s : acc) : outcome acc :=
  x_coord1 <- _fourier_expansion num_term (amp_x tm) (t_count s) (peri_x tm) ;;
  y_coord1 <- _fourier_expansion num_term (amp_y tm) (t_count s) (peri_y tm) ;;
  Ok (mkAcc (t_count s + sample_interval)
            (time_offset_l s ++ [t_count s])
            (x_coord_l s ++ [x_coord1 * cos angle - y_coord1 * sin angle])
            (y_coord_l s ++ [x_coord1 * sin angle + y_coord1 * cos angle])).

(** [_generate_scan] up to the DataFrame of one period. *)
Definition one_period (fuel : nat) (p : param) : outcome (timing * DataFrame) :=
  let sample_interval := SkyPattern.sample_interval (repeat p) in
  let angle := radians (angle p) in
  let vert_spacing := sqrt 2 * spacing p in
  '(x_numvert, y_numvert) <- PongVertices.numvert fuel (width p) (height p) (spacing p) ;;
  tm <- timing_of x_numvert y_numvert vert_spacing (velocity p) sample_interval ;;
  s <- for_each (range (pongcount tm)) (mkAcc 0 [] [] [])
         (sample_body (num_term p) tm angle sample_interval) ;;
  data <- pd_DataFrame (time_offset_l s) (x_coord_l s) (y_coord_l s) ;;
  Ok (tm, data).

Definition _generate_scan (fuel : nat) (p : param) : outcome (param * DataFrame) :=
  '(_, data) <- one_period fuel p ;;
  '(r, data) <- SkyPattern._repeat_scan (repeat p) data ;;
  Ok (mkParam r (num_term p) (width p) (height p) (spacing p) (velocity p) (angle p),
      data).

(** The constructor called with keyword arguments only. *)
Definition __init__ (fuel : nat) (kw : kwargs) : outcome (param * DataFrame) :=
  p <- _clean_param kw ;;
  _generate_scan fuel p.

End Pong.

(** * CurvyPong ([scanning.py]) *)

Module CurvyPong.

(** [self.param] after [ScanPattern.__init__] has filled in the defaults. *)
Record param : Type := mkParam {
  num_term : Z;
  width : R;
  height : R;
  spacing : R;
  velocity : R;
  angle : R;
  sample_interval : R
}.

(** The nine columns of the generated DataFrame. *)
Record row : Type := mkRow {
  time_offset : R;
  x_coord : R; y_coord : R;
  x_vel : R; y_vel : R;
  x_acc : R; y_acc : R;
  x_jerk : R; y_jerk : R
}.

(** Returns [(pos, vel, acc, jer)]. *)
Definition _fourier_expansion (num_term : Z) (amp t_count peri : R)
  : outcome (R * R * R * R) :=
  let N := (num_term * 2 - 1)%Z in
  let a := 8 * amp / (PI * PI) in
  b <- pydiv (2 * PI) peri "peri" ;;
  '(pos, vel, acc, jer) <-
    for_each (range3 1 (N + 1) 2) (0, 0, 0, 0)
      (fun n '(pos, vel, acc, jer) =>
         let c := Pong.coeff n in
         Ok (pos + c * sin (b * IZR n * t_count),
             vel + c * IZR n * cos (b * IZR n * t_count),
             acc + c * (IZR n * IZR n) * sin (b * IZR n * t_count),
             jer + c * (IZR n * IZR n * IZR n) * cos (b * IZR n * t_count))) ;;
  Ok (pos * a, vel * (a * b), acc * (- a * (b * b)), jer * (- a * (b * b * b))).

(** [vavg = velocity] *)
Definition timing_of (x_numvert y_numvert : Z) (vert_spacing velocity sample_interval : R)
  : outcome timing :=
  let vavg := velocity in
  peri_x <- pydiv (IZR x_numvert * vert_spacing * 2) vavg "vavg" ;;
  peri_y <- pydiv (IZR y_numvert * vert_spacing * 2) vavg "vavg" ;;
  period <- pydiv (IZR x_numvert * IZR y_numvert * vert_spacing * 2) vavg "vavg" ;;
  q <- pydiv period sample_interval "sample_interval" ;;
  let pongcount := pyceil q in
  let amp_x := IZR x_numvert * vert_spacing / 2 in
  let amp_y := IZR y_numvert * vert_spacing / 2 in
  Ok (mkTiming vavg peri_x peri_y period pongcount amp_x amp_y).

(** The loop fills row [i] of the preallocated columns, for [i] in order; the
    loop carries [t_count] and the rows filled so far. *)
Definition sample_body (num_term : Z) (tm : timing) (angle sample_interval : R)
  (i : Z) (s : R * list row) : outcome (R * list row) :=
  let '(t_count, rows) := s in
  '(x_pos, x_vel, x_acc, x_jerk) <-
    _fourier_expansion num_term (amp_x tm) t_count (peri_x tm) ;;
  '(y_pos, y_vel, y_acc, y_jerk) <-
    _fourier_expansion num_term (amp_y tm) t_count (peri_y tm) ;;
  Ok (t_count + sample_interval,
      rows ++ [mkRow t_count
                 (x_pos * cos angle - y_pos * sin angle)
                 (x_pos * sin angle + y_pos * cos angle)
                 (x_vel * cos angle - y_vel * sin angle)
                 (x_vel * sin angle + y_vel * cos angle)
                 (x_acc * cos angle - y_acc * sin angle)
                 (x_acc * sin angle + y_acc * cos angle)
                 (x_jerk * cos angle - y_jerk * sin angle)
                 (x_jerk * sin angle + y_jerk * cos angle)]).

Definition _generate_scan (fuel : nat) (p : param) : outcome (timing * list row) :=
  let vert_spacing := sqrt 2 * spacing p in
  '(x_numvert, y_numvert) <- PongVertices.numvert fuel (width p) (height p) (spacing p) ;;
  tm <- timing_of x_numvert y_numvert vert_spacing (velocity p) (sample_interval p) ;;
  _ <- np_empty (pongcount tm) ;;
  '(_, rows) <- for_each (range (pongcount tm)) (0, [])
                  (sample_body (num_term p) tm (radians (angle p)) (sample_interval p)) ;;
  Ok (tm, rows).

End CurvyPong.

(** * Daisy *)

(** [np.arange(0, stop, step)] on floats: [ceil(stop/step)] values. *)
Definition np_arange (stop step : R) : list R :=
  map (fun k => 0 + INR k * step) (seq 0 (Z.to_nat (pyceil (stop / step)))).

(** The integration step, which [coordinates.py] and [scanning.py] share
    line for line. *)
Module DaisyStep.

Record consts : Type := mkConsts {
  s0 : R;
  start_acc : R;
  R0 : R;
  Rt : R;
  Ra : R;
  dt : R
}.

(** Loop-carried variables. *)
Record state : Type := mkState {
  vx : R; vy : R;
  x : R; y : R;
  speed : R
}.

Definition ramp (c : consts) (speed : R) : R :=
  let speed := speed + start_acc c * dt c in
  if Rgeb speed (s0 c) then s0 c else speed.

(** [x += vx*speed*dt; y += vy*speed*dt] *)
Definition straight (c : consts) (st : state) (speed : R) : state :=
  mkState (vx st) (vy st)
          (x st + vx st * speed * dt c) (y st + vy st * speed * dt c) speed.

(** The curved branch, a series expansion in the step length [s]. *)
Definition curve (c : consts) (st : state) (speed Nx Ny : R) : outcome state :=
  let s := speed * dt c in
  let Rt := Rt c in
  a1 <- pydiv (s * s * s) Rt "Rt" ;;
  a2 <- pydiv a1 Rt "Rt" ;;
  let k3 := a2 / 6 in
  b1 <- pydiv (s * s) Rt "Rt" ;;
  let k2 := b1 / 2 in
  let x' := x st + ((s - k3) * vx st + k2 * Nx) in
  let y' := y st + ((s - k3) * vy st + k2 * Ny) in
  c1 <- pydiv (- s * s) Rt "Rt" ;;
  c2 <- pydiv c1 Rt "Rt" ;;
  let h2 := c2 / 2 in
  d1 <- pydiv s Rt "Rt" ;;
  e3 <- pydiv a2 Rt "Rt" ;;
  let h1 := d1 + e3 / 6 in
  let vx' := vx st + (h2 * vx st + h1 * Nx) in
  f1 <- pydiv (- s * s) Rt "Rt" ;;
  f2 <- pydiv f1 Rt "Rt" ;;
  g1 <- pydiv s Rt "Rt" ;;
  g3 <- pydiv a2 Rt "Rt" ;;
  let vy' := vy st + (f2 / 2 * vy st + (g1 + g3 / 6) * Ny) in
  Ok (mkState vx' vy' x' y' speed).

Definition step (c : consts) (st : state) : outcome state :=
  let speed := ramp c (speed st) in
  r <- pysqrt (x st * x st + y st * y st) ;;
  if Rltb r (R0 c) then Ok (straight c st speed)
  else
    xn <- pydiv (x st) r "r" ;;
    yn <- pydiv (y st) r "r" ;;
    q1 <- pydiv (Ra c * Ra c) r "r" ;;
    q2 <- pydiv q1 r "r" ;;
    lim <- pysqrt (1 - q2) ;;
    if Rgtb (- xn * vx st - yn * vy st) lim then Ok (straight c st speed)
    else
      if Rgtb (- xn * vy st + yn * vx st) 0 then curve c st speed (vy st) (- vx st)
      else curve c st speed (- vy st) (vx st).

(** Start values: tangent vector [(1, 0)], position [(0, y_offset)], zero speed. *)
Definition init (y_offset : R) : state := mkState 1 0 0 y_offset 0.

End DaisyStep.

Module Daisy.

Record param : Type := mkParam {
  velocity : R;
  start_acc : R;
  R0 : R;
  Rt : R;
  Ra : R;
  T : R;
  sample_interval : R;
  y_offset : R
}.

(** Keyword arguments of the constructor; [num_repeat] and
    [max_scan_duration] are accepted like any other keyword. *)
Record kwargs : Type := mkKwargs {
  kw_velocity : R;
  kw_start_acc : R;
  kw_R0 : R;
  kw_Rt : R;
  kw_Ra : R;
  kw_T : R;
  kw_sample_interval : option R;
  kw_y_offset : option R;
  kw_num_repeat : option Z;
  kw_max_scan_duration : option R
}.

Definition repeatable : bool := false.

(** Does not call [SkyPattern._clean_param]; keys it does not name stay in
    the dictionary untouched. *)
Definition _clean_param (kw : kwargs) : outcome param :=
  Ok (mkParam (kw_velocity kw) (kw_start_acc kw) (kw_R0 kw) (kw_Rt kw) (kw_Ra kw)
              (kw_T kw) (Pong.get (kw_sample_interval kw) (1 / 400))
              (Pong.get (kw_y_offset kw) 0)).

(** Degrees to arcseconds. *)
Definition arcsec (d : R) : R := d * 3600.

Definition consts_of (p : param) : DaisyStep.consts :=
  DaisyStep.mkConsts (arcsec (velocity p)) (arcsec (start_acc p)) (arcsec (R0 p))
                     (arcsec (Rt p)) (arcsec (Ra p)) (sample_interval p).

(** One iteration: a step, then [x_coord[step] = x; y_coord[step] = y]. *)
Definition body (c : DaisyStep.consts) (step : Z)
  (s : DaisyStep.state * list R * list R) : outcome (DaisyStep.state * list R * list R) :=
  let '(st, x_coord, y_coord) := s in
  st <- DaisyStep.step c st ;;
  Ok (st, x_coord ++ [DaisyStep.x st], y_coord ++ [DaisyStep.y st]).

(** Number of steps, [N = int(T/dt)]. *)
Definition steps (p : param) : outcome Z :=
  q <- pydiv (T p) (sample_interval p) "dt" ;;
  Ok (pyint q).

Definition _generate_scan (p : param) : outcome DataFrame :=
  let c := consts_of p in
  N <- steps p ;;
  _ <- np_empty N ;;
  '(_, x_coord, y_coord) <-
    for_each (range N) (DaisyStep.init (arcsec (y_offset p)), [], []) (body c) ;;
  pd_DataFrame (np_arange (T p) (sample_interval p))
               (map (fun v => v / 3600) x_coord) (map (fun v => v / 3600) y_coord).

Definition __init__ (kw : kwargs) : outcome (param * DataFrame) :=
  p <- _clean_param kw ;;
  data <- _generate_scan p ;;
  Ok (p, data).

End Daisy.

(** * TelescopePattern *)

(** The four columns of [self.data]. *)
Record hsample : Type := mkHsample {
  h_time_offset : R;
  lst : R;
  az_coord : R;
  alt_coord : R
}.

Record location : Type := mkLocation {
  lat : R;
  lon : R;
  height : R
}.

(** [FYST_LOC] of [scanning.py], in degrees and metres. *)
Definition FYST_LOC : location :=
  mkLocation (- (22 + 59 / 60 + 830 / 100 / 3600))
             (- (67 + 44 / 60 + 25 / 3600)) (56118 / 10).

Module TelescopePattern.

(** Keyword arguments of the constructor, and [self.param] after
    [_clean_param]: every key may be absent. *)
Record param (datetime : Type) : Type := mkParam {
  ra : option R;
  dec : option R;
  loc : option location;
  start_hrang : option R;
  start_datetime : option datetime;
  start_lst : option R;
  start_el : option R;
  moving_up : option bool
}.

Arguments mkParam {datetime}.
Arguments ra {datetime}.
Arguments dec {datetime}.
Arguments loc {datetime}.
Arguments start_hrang {datetime}.
Arguments start_datetime {datetime}.
Arguments start_lst {datetime}.
Arguments start_el {datetime}.
Arguments moving_up {datetime}.

(** What the constructor receives as [data]: a SkyPattern (its sample
    interval and data), a table that has the [lst] column, or a csv file
    without it. *)
Inductive data_arg : Type :=
| from_sky_pattern (sample_interval : R) (data : DataFrame)
| from_table (rows : list hsample)
| from_csv_without_lst (rows : list (R * R * R)).

(** [module]: the string ['boresight'] or a pair [(distance, theta)] in degrees. *)
Inductive module_arg : Type :=
| boresight
| offset (dist theta : R).

(** [instr_offset] and [instr_rot] of an Instrument, in degrees. *)
Record instrument : Type := mkInstrument {
  instr_x : R;
  instr_y : R;
  instr_rot : R
}.

(** [alt0] in [_transform_to_boresight]: the array, until the handler
    rebinds the name to the float [math.nan]. *)
Inductive alt0_obj : Type :=
| array (l : list R)
| float_nan.

(** [a[i] = v] on an array of floats. *)
Fixpoint setitem (l : list R) (i : nat) (v : R) : list R :=
  match l, i with
  | [], _ => []
  | _ :: l', O => v :: l'
  | a :: l', S i' => a :: setitem l' i' v
  end.

Section Externals.

(** [astropy]: apparent sidereal time of a datetime at a location, in hours. *)
Variable datetime : Type.
Variable sidereal_time : datetime -> location -> R.

(** [scipy.optimize.root_scalar(f, x0=, bracket=[lo, hi], xtol=).root];
    raises [ValueError] when the bracket holds no sign change. *)
Variable root_scalar : (R -> R) -> R -> R -> R -> R -> outcome R.

Definition getattr {A : Type} (o : option A) (attr : string) : outcome A :=
  match o with
  | Some a => Ok a
  | None => Raise (AttributeError attr)
  end.

(** Only [location] gets a default; the start keys are converted by an
    [if]/[elif] chain that raises nothing. *)
Definition _clean_param (kw : param datetime) : outcome (param datetime) :=
  let location := match loc kw with Some l => l | None => FYST_LOC end in
  let moving_up :=
    if SkyPattern.present (start_hrang kw) then moving_up kw
    else if SkyPattern.present (start_datetime kw) then moving_up kw
    else if SkyPattern.present (start_lst kw) then moving_up kw
    else if SkyPattern.present (start_el kw) then
      Some (match moving_up kw with Some b => b | None => true end)
    else moving_up kw in
  Ok (mkParam (ra kw) (dec kw) (Some location) (start_hrang kw)
              (start_datetime kw) (start_lst kw) (start_el kw) moving_up).

(** The nested function [altitude(dec, lat, ha)] of [_get_lst]. *)
Definition altitude (dec lat ha : R) : outcome R :=
  pyasin (sin dec * sin lat + cos dec * cos lat * cos ha).

(** The [start_el] branch: the starting hour angle, in radians. *)
Definition start_el_hrang (alt_rad dec_rad lat_rad : R) (moving_up : bool)
  : outcome R :=
  q <- pydiv (sin alt_rad - sin dec_rad * sin lat_rad)
             (cos dec_rad * cos lat_rad) "cos(dec_rad)*cos(lat_rad)" ;;
  start_hrang_rad <-
    match pyacos q with
    | Raise (ValueError _) =>
        Raise (ValueError "Altitude is not possible at provided ra, dec, and latitude.")
    | o => o
    end ;;
  let start_hrang_rad1 := start_hrang_rad + radians 1 in
  a1 <- altitude dec_rad lat_rad start_hrang_rad1 ;;
  a0 <- altitude dec_rad lat_rad start_hrang_rad ;;
  let ha1_up := Rgtb (a1 - a0) 0 in
  let start_hrang_rad2 := - start_hrang_rad + radians 1 in
  b1 <- altitude dec_rad lat_rad start_hrang_rad2 ;;
  b0 <- altitude dec_rad lat_rad (- start_hrang_rad) ;;
  let ha2_up := Rgtb (b1 - b0) 0 in
  assert (negb (eqb ha1_up ha2_up))
    (if (moving_up && ha2_up) || (negb moving_up && ha1_up)
     then Ok (- start_hrang_rad) else Ok start_hrang_rad).

(** The starting sidereal time in hours; the first key present, in this
    order, decides. *)
Definition start_lst_of (p : param datetime) (extra_ra_offset extra_dec_offset : R)
  : outcome R :=
  match start_datetime p, start_hrang p, start_lst p, start_el p with
  | Some d, _, _, _ =>
      l <- getattr (loc p) "location" ;;
      Ok (sidereal_time d l)
  | None, Some h, _, _ =>
      ra <- getattr (ra p) "ra" ;;
      Ok (h + extra_ra_offset / 15 + ra / 15)
  | None, None, Some l, _ => Ok l
  | None, None, None, Some el =>
      dec <- getattr (dec p) "dec" ;;
      l <- getattr (loc p) "location" ;;
      up <- getattr (moving_up p) "moving_up" ;;
      h <- start_el_hrang (radians el) (radians (dec + extra_dec_offset))
             (radians (lat l)) up ;;
      ra <- getattr (ra p) "ra" ;;
      Ok ((h + radians extra_ra_offset + radians ra) * (12 / PI))
  | None, None, None, None =>
      Raise (TypeError "start_datetime or start_hrang or start_lst or start_el is required")
  end.

Definition SIDEREAL_TO_UT1 : R := 1002737909350795 / 1000000000000000.

(** [_get_lst(sky_pattern)]: the [lst] column for the given time offsets. *)
Definition _get_lst (p : param datetime) (time_offset : list R)
  (sky_pattern : option DataFrame) : outcome (list R) :=
  '(extra_ra_offset, extra_dec_offset) <-
    match sky_pattern with
    | Some [] => Raise IndexError
    | Some (s :: _) => Ok (x_coord s, y_coord s)
    | None => Ok (0, 0)
    end ;;
  start_lst <- start_lst_of p extra_ra_offset extra_dec_offset ;;
  Ok (map (fun t => t / 3600 * SIDEREAL_TO_UT1 + start_lst) time_offset).

(** [_from_sky_pattern] on one sample: [(az, alt)] in degrees. *)
Definition from_sky_sample (ra dec lat_rad : R) (lst : R) (s : sample) : R * R :=
  let hour_angle_rad := (lst - (x_coord s + ra) / 15) * (PI / 12) in
  let dec_rad := radians (y_coord s + dec) in
  let alt_rad :=
    asin (sin dec_rad * sin lat_rad + cos dec_rad * cos lat_rad * cos hour_angle_rad) in
  let cos_az_rad :=
    clip1 ((sin dec_rad - sin alt_rad * sin lat_rad) / (cos alt_rad * cos lat_rad)) in
  let az_rad := acos cos_az_rad in
  let az_rad := if Rgtb (sin hour_angle_rad) 0 then 2 * PI - az_rad else az_rad in
  (degrees az_rad, degrees alt_rad).

(** [_norm_angle(az)] *)
Definition _norm_angle (az : list R) : outcome (list R) :=
  match az with
  | [] => Raise IndexError
  | az0 :: _ =>
      let lowest_az := pymod az0 360 - 180 in
      Ok (map (fun a => pymod (a - lowest_az) 360 + lowest_az) az)
  end.

(** [_true_module_loc(module)] for a module given as a pair. *)
Definition _true_module_loc (ins : option instrument) (m : module_arg)
  : outcome (R * R) :=
  match m with
  | boresight => Ok (0, 0)
  | offset dist theta_deg =>
      let theta := radians theta_deg in
      ins <- getattr ins "instr_offset" ;;
      let instr_rot := radians (instr_rot ins) in
      let mod_x := dist * cos theta in
      let mod_y := dist * sin theta in
      let x_offset := mod_x * cos instr_rot - mod_y * sin instr_rot + instr_x ins in
      let y_offset := mod_x * sin instr_rot + mod_y * cos instr_rot + instr_y ins in
      new_dist <- pysqrt (x_offset * x_offset + y_offset * y_offset) ;;
      Ok (new_dist, degrees (arctan2 y_offset x_offset))
  end.

(** The function whose root is the boresight altitude. *)
Definition func (dist theta : R) (alt_0 alt_1 : R) : R :=
  sin alt_0 * cos dist + sin dist * cos alt_0 * sin (theta + alt_0) - sin alt_1.

(** Loop-carried variables of the root-solving loop: [alt0], [guess], and
    [a0], which is unbound until a solve succeeds. *)
Record solve_state : Type := mkSolve {
  alt0 : alt0_obj;
  guess : R;
  a0 : option R
}.

(** One iteration of [for i, a1 in enumerate(alt1)]. *)
Definition solve_body (dist theta : R) (ia : nat * R) (s : solve_state)
  : outcome solve_state :=
  let '(i, a1) := ia in
  s <- match root_scalar (fun alt_0 => func dist theta alt_0 a1) (guess s)
               (- PI / 2) (PI / 2) (/ 1000000) with
       | Ok root => Ok (mkSolve (alt0 s) root (Some root))
       | Raise (ValueError _) => Ok (mkSolve float_nan (guess s) (a0 s))
       | Raise e => Raise e
       | OutOfFuel => OutOfFuel
       end ;;
  v <- match a0 s with
       | Some v => Ok v
       | None => Raise (UnboundLocalError "a0")
       end ;;
  match alt0 s with
  | array l => Ok (mkSolve (array (setitem l i v)) (guess s) (a0 s))
  | float_nan => Raise (TypeError "'float' object does not support item assignment")
  end.

Definition enumerate {A : Type} (l : list A) : list (nat * A) :=
  combine (seq 0 (length l)) l.

(** The azimuth of the boresight from the solved altitude, one sample. *)
Definition az0_of (dist theta : R) (az1 alt1 alt0 : R) : R :=
  let cos_diff_az0 := clip1 ((cos dist - sin alt0 * sin alt1) / (cos alt0 * cos alt1)) in
  let diff_az0 := acos cos_diff_az0 in
  let mask := Rgtb theta (- alt0 + PI / 2) && Rltb theta (- alt0 + 3 * PI / 2) in
  let diff_az0 := if mask then - diff_az0 else diff_az0 in
  az1 - diff_az0.

Fixpoint map3 {A B C D : Type} (f : A -> B -> C -> D)
  (la : list A) (lb : list B) (lc : list C) : list D :=
  match la, lb, lc with
  | a :: la', b :: lb', c :: lc' => f a b c :: map3 f la' lb' lc'
  | _, _, _ => []
  end.

(** [_transform_to_boresight(az1, alt1, dist, theta)], all in degrees.
    [np.empty] leaves the entries of [alt0] unset and the loop sets them
    all; they start as 0 here.  The float case after the loop is never
    reached, as an iteration that rebinds [alt0] raises. *)
Definition _transform_to_boresight (az1 alt1 : list R) (dist theta : R)
  : outcome (list R * list R) :=
  let dist := radians dist in
  let theta := radians theta in
  let alt1 := map radians alt1 in
  let az1 := map radians az1 in
  guess <- match alt1 with
           | [] => Raise IndexError
           | a :: _ => Ok a
           end ;;
  s <- for_each (enumerate alt1) (mkSolve (array (map (fun _ => 0) alt1)) guess None)
         (solve_body dist theta) ;;
  match alt0 s with
  | float_nan => Raise (TypeError "'float' object is not subscriptable")
  | array alt0 =>
      let az0 := map3 (az0_of dist theta) az1 alt1 alt0 in
      az <- _norm_angle (map degrees az0) ;;
      Ok (az, map (fun a => pymod (degrees a) 360) alt0)
  end.

(** One sample of [_transform_from_boresight]: [(az1, alt1)] in radians. *)
Definition from_boresight_sample (dist theta : R) (az0 alt0 : R) : R * R :=
  let alt1 :=
    asin (sin alt0 * cos dist + sin dist * cos alt0 * sin (theta + alt0)) in
  let sin_az1 :=
    1 / cos alt1 * (cos alt0 * sin az0 * cos dist
                    + cos az0 * cos (theta + alt0) * sin dist
                    - sin alt0 * sin az0 * sin dist * sin (theta + alt0)) in
  let cos_az1 :=
    1 / cos alt1 * (cos alt0 * cos az0 * cos dist
                    - sin az0 * cos (theta + alt0) * sin dist
                    - sin alt0 * cos az0 * sin dist * sin (theta + alt0)) in
  (arctan2 sin_az1 cos_az1, alt1).

(** [_transform_from_boresight(az0, alt0, dist, theta)], all in degrees. *)
Definition _transform_from_boresight (az0 alt0 : list R) (dist theta : R)
  : outcome (list R * list R) :=
  let dist := radians dist in
  let theta := radians theta in
  let out := map (fun '(az, alt) => from_boresight_sample dist theta (radians az) (radians alt))
                 (combine az0 alt0) in
  az <- _norm_angle (map (fun o => degrees (fst o)) out) ;;
  Ok (az, map (fun o => pymod (degrees (snd o)) 360) out).

(** The constructed object. *)
Record t : Type := mkT {
  t_param : param datetime;
  t_sample_interval : R;
  t_data : list hsample;
  t_instrument : option instrument
}.

Fixpoint zip4 (a b c d : list R) : list hsample :=
  match a, b, c, d with
  | a0 :: a', b0 :: b', c0 :: c', d0 :: d' =>
      mkHsample a0 b0 c0 d0 :: zip4 a' b' c' d'
  | _, _, _, _ => []
  end.

(** The first half of [__init__]: [self.data] and [self.sample_interval]. *)
Definition load_data (p : param datetime) (data : data_arg)
  : outcome (R * list R * list R * list R * list R) :=
  match data with
  | from_sky_pattern sample_interval sp =>
      let time_offset := SkyPattern.time_offsets sp in
      lst <- _get_lst p time_offset (Some sp) ;;
      ra <- getattr (ra p) "ra" ;;
      dec <- getattr (dec p) "dec" ;;
      l <- getattr (loc p) "location" ;;
      let azalt := map (fun '(lst, s) => from_sky_sample ra dec (radians (lat l)) lst s)
                       (combine lst sp) in
      Ok (sample_interval, time_offset, lst, map fst azalt, map snd azalt)
  | from_table rows =>
      let time_offset := map h_time_offset rows in
      let sample_interval_list := SkyPattern.np_diff time_offset in
      if SkyPattern.spread_ok sample_interval_list then
        Ok (SkyPattern.np_mean sample_interval_list, time_offset,
            map lst rows, map az_coord rows, map alt_coord rows)
      else Raise (ValueError "sample_interval must be constant")
  | from_csv_without_lst rows =>
      let time_offset := map (fun r => fst (fst r)) rows in
      lst <- _get_lst p time_offset None ;;
      let sample_interval_list := SkyPattern.np_diff time_offset in
      if SkyPattern.spread_ok sample_interval_list then
        Ok (SkyPattern.np_mean sample_interval_list, time_offset,
            lst, map (fun r => snd (fst r)) rows, map snd rows)
      else Raise (ValueError "sample_interval must be constant")
  end.

Definition __init__ (data : data_arg) (ins : option instrument) (m : module_arg)
  (kw : param datetime) : outcome t :=
  p <- _clean_param kw ;;
  '(sample_interval, time_offset, lst, az, alt) <- load_data p data ;;
  '(dist, theta) <- _true_module_loc ins m ;;
  '(az, alt) <-
    match m with
    | boresight => az <- _norm_angle az ;; Ok (az, map (fun a => pymod a 360) alt)
    | offset _ _ =>
        if Reqb dist 0 && Reqb theta 0 then
          az <- _norm_angle az ;; Ok (az, map (fun a => pymod a 360) alt)
        else _transform_to_boresight az alt dist theta
    end ;;
  Ok (mkT p sample_interval (zip4 time_offset lst az alt) ins).

(** [view_module(module)]: the path of a module, as a new object. *)
Definition view_module (self : t) (m : module_arg) : outcome t :=
  '(dist, theta) <- _true_module_loc (t_instrument self) m ;;
  '(az1, alt1) <-
    _transform_from_boresight (map az_coord (t_data self)) (map alt_coord (t_data self))
                              dist theta ;;
  __init__ (from_table (zip4 (map h_time_offset (t_data self)) (map lst (t_data self))
                             az1 alt1))
           None boresight
           (mkParam None None (loc (t_param self)) None None None None None).

End Externals.

End TelescopePattern.

(** * ScanPattern and Daisy of [scanning.py] *)

Module ScanPattern.

(** [a[i]] and [a[-1]], [a[-2]] on an array. *)
Definition item (a : list R) (i : Z) : outcome R :=
  let n := Z.of_nat (length a) in
  let j := if (i <? 0)%Z then (i + n)%Z else i in
  if ((j <? 0) || (n <=? j))%Z then Raise IndexError
  else Ok (nth (Z.to_nat j) a 0).

Definition _central_diff (h : R) (a : list R) : outcome (list R) :=
  a1 <- item a 1 ;;
  a0 <- item a 0 ;;
  new_a <- for_each (range2 1 (Z.of_nat (length a) - 1)) [(a1 - a0) / h]
             (fun i new_a =>
                u <- item a (i + 1) ;;
                l <- item a (i - 1) ;;
                Ok (new_a ++ [(u - l) / (2 * h)])) ;;
  e1 <- item a (-1) ;;
  e2 <- item a (-2) ;;
  Ok (new_a ++ [(e1 - e2) / h]).

(** [pd.DataFrame(dict_of_columns)] *)
Definition columns := list (string * list R).

Definition pd_DataFrame (cols : columns) : outcome columns :=
  match cols with
  | [] => Ok []
  | (_, c) :: rest =>
      if forallb (fun nc => (length (snd nc) =? length c)%nat) rest then Ok cols
      else Raise (ValueError "All arrays must be of the same length")
  end.

End ScanPattern.

Module ScanDaisy.

(** One iteration: a step, then the position and [speed*vx, speed*vy] are stored. *)
Definition body (c : DaisyStep.consts) (step : Z)
  (s : DaisyStep.state * (list R * list R * list R * list R))
  : outcome (DaisyStep.state * (list R * list R * list R * list R)) :=
  let '(st, (x_coord, y_coord, x_vel, y_vel)) := s in
  st <- DaisyStep.step c st ;;
  Ok (st, (x_coord ++ [DaisyStep.x st], y_coord ++ [DaisyStep.y st],
           x_vel ++ [DaisyStep.speed st * DaisyStep.vx st],
           y_vel ++ [DaisyStep.speed st * DaisyStep.vy st])).

Definition _generate_scan (p : Daisy.param) : outcome ScanPattern.columns :=
  let c := Daisy.consts_of p in
  let dt := Daisy.sample_interval p in
  N <- Daisy.steps p ;;
  _ <- np_empty N ;;
  '(_, (x_coord, y_coord, x_vel, y_vel)) <-
    for_each (range N) (DaisyStep.init (Daisy.arcsec (Daisy.y_offset p)), ([], [], [], []))
             (body c) ;;
  x_acc <- ScanPattern._central_diff dt x_vel ;;
  x_jerk <- ScanPattern._central_diff dt x_acc ;;
  y_acc <- ScanPattern._central_diff dt y_vel ;;
  y_jerk <- ScanPattern._central_diff dt y_acc ;;
  let scale := map (fun v => v / 3600) in
  ScanPattern.pd_DataFrame
    [("time_offset", np_arange (Daisy.T p) dt);
     ("x_coord", scale x_coord); ("y_coord", scale y_coord);
     ("x_vel", scale x_vel); ("y_vel", scale y_vel);
     ("x_acc", scale x_acc); ("y_acc", scale y_acc);
     ("x_jerk", scale x_jerk); ("y_jerk", scale y_jerk)]%string.

End ScanDaisy.

(** * SkyPattern: what it hands out *)

Module SkyPatternExport.

(** [scan_duration]: [time_offset[-1] + sample_interval]. *)
Definition scan_duration (p : SkyPattern.param) (data : DataFrame) : outcome R :=
  last <- SkyPattern.last_time_offset data ;;
  Ok (last + SkyPattern.sample_interval p).

(** [save_data(None, 'default', include_repeats)]: the three columns as
    lists, cut back to the first [len/num_repeat] rows when the repeats are
    not wanted.  [math.nan > 1] is false. *)
Definition save_data (p : SkyPattern.param) (data : DataFrame) (include_repeats : bool)
  : outcome (list R * list R * list R) :=
  data <-
    match SkyPattern.num_repeat p with
    | count n =>
        if negb include_repeats && (n >? 1)%Z then
          q <- pydiv (IZR (Z.of_nat (length data))) (IZR n) "num_repeat" ;;
          let before_index := pyint q in
          Ok (firstn (Z.to_nat before_index) data)
        else Ok data
    | nan => Ok data
    end ;;
  Ok (map time_offset data, map x_coord data, map y_coord data).

End SkyPatternExport.

(** * A Python dict with string keys, in insertion order *)

Module PyDict.

Section Dict.

Context {V : Type}.

Definition t := list (string * V).

(** [d[k]], or [None] for a missing key. *)
Fixpoint get (d : t) (k : string) : option V :=
  match d with
  | [] => None
  | (k', v) :: d' => if String.eqb k' k then Some v else get d' k
  end.

(** [k in d.keys()] *)
Definition mem (d : t) (k : string) : bool :=
  match get d k with Some _ => true | None => false end.

(** [d[k] = v]: a present key keeps its place, a new key goes last. *)
Fixpoint set (d : t) (k : string) (v : V) : t :=
  match d with
  | [] => [(k, v)]
  | (k', v') :: d' =>
      if String.eqb k' k then (k', v) :: d' else (k', v') :: set d' k v
  end.

(** [del d[k]]: no binding of [k] is left. *)
Fixpoint remove (d : t) (k : string) : t :=
  match d with
  | [] => []
  | (k', v') :: d' =>
      if String.eqb k' k then remove d' k else (k', v') :: remove d' k
  end.

(** [d.pop(k)] *)
Definition pop (d : t) (k : string) : outcome (V * t) :=
  match get d k with
  | Some v => Ok (v, remove d k)
  | None => Raise (KeyError k)
  end.

(** [d[k]] where a missing key raises. *)
Definition getitem (d : t) (k : string) : outcome V :=
  match get d k with
  | Some v => Ok v
  | None => Raise (KeyError k)
  end.

Definition keys (d : t) : list string := map fst d.

End Dict.

Arguments t V : clear implicits.

End PyDict.

(** * Camera module ([camera.py]) *)

Module CameraModule.

(** One row of [self._data]. *)
Record pixel : Type := mkPixel {
  pixel_num : Z;
  px : R;
  py : R;
  pol : Z;
  rhombus : Z;
  wafer : Z
}.

(** [np.unique] on a column of ints: the distinct values in ascending order. *)
Fixpoint insert_unique (z : Z) (l : list Z) : list Z :=
  match l with
  | [] => [z]
  | a :: l' =>
      if (z <? a)%Z then z :: l
      else if (z =? a)%Z then l
      else a :: insert_unique z l'
  end.

Definition np_unique (l : list Z) : list Z := fold_right insert_unique [] l.

(** [math.isclose(a, b)] with its default tolerances. *)
Definition isclose (a b : R) : bool :=
  Rleb (Rabs (a - b)) (/ 1000000000 * Rmax (Rabs a) (Rabs b)).

(** [l[i]] on a Python list. *)
Definition list_item {A : Type} (l : list A) (i : nat) : outcome A :=
  match nth_error l i with
  | Some a => Ok a
  | None => Raise IndexError
  end.

(** The result of [_find_ang_res]: one float, or the list per wafer. *)
Inductive ang_res : Type :=
| same (r : R)
| per_wafer (l : list R).

(** The distance between the first two pixels of one wafer. *)
Definition wafer_res (data : list pixel) (w : Z) : outcome R :=
  let rows := firstn 2 (filter (fun q => (wafer q =? w)%Z) data) in
  x0 <- list_item (map px rows) 0 ;;
  x1 <- list_item (map px rows) 1 ;;
  y0 <- list_item (map py rows) 0 ;;
  y1 <- list_item (map py rows) 1 ;;
  pysqrt ((x0 - x1) * (x0 - x1) + (y0 - y1) * (y0 - y1)).

Definition _find_ang_res (data : list pixel) : outcome ang_res :=
  ang_res <- for_each (np_unique (map wafer data)) []
               (fun w acc => r <- wafer_res data w ;; Ok (acc ++ [r])) ;;
  a0 <- list_item ang_res 0 ;;
  a1 <- list_item ang_res 1 ;;
  if isclose a0 a1 then
    a0' <- list_item ang_res 0 ;;
    a2 <- list_item ang_res 2 ;;
    if isclose a0' a2 then
      r <- list_item ang_res 0 ;;
      Ok (same r)
    else Ok (per_wafer ang_res)
  else Ok (per_wafer ang_res).

End CameraModule.

(** * Instrument ([camera.py]) *)

Module Instrument.

Section Class.

(** The Module objects, with the four module-level defaults, and the
    [slots] of the class ([ModCam], [PrimeCam]). *)
Variable module_obj : Type.
Variables CMBPol SFH EoRSpec Mod280 : module_obj.
Variable slots : PyDict.t (R * R).

(** One value of [self._modules]. *)
Record entry : Type := mkEntry {
  module : module_obj;
  dist : R;
  theta : R;
  mod_rot : R
}.

Record t : Type := mkT {
  instr_offset : R * R;
  instr_rot : R;
  _modules : PyDict.t entry
}.

(** [Instrument(instr_offset=, instr_rot=)], the empty instrument. *)
Definition __init__ (instr_offset : R * R) (instr_rot : R) : t :=
  mkT instr_offset instr_rot [].

(** The decorator [_check_identifier]. *)
Definition _check_identifier {A : Type} (self : t) (identifier : string)
  (func : outcome A) : outcome A :=
  if PyDict.mem (_modules self) identifier then func
  else Raise (ValueError "identifier is not valid").

(** [add_module(module, location, mod_rot, identifier)]: [module] is a
    Module object or the name of a default, [location] a pair or the name
    of a slot. *)
Definition add_module (self : t) (module : module_obj + string)
  (location : R * R + string) (mod_rot : R) (identifier : option string)
  : outcome t :=
  '(module, identifier) <-
    match module with
    | inr name =>
        let identifier := match identifier with Some i => i | None => name end in
        if String.eqb name "CMBPol" then Ok (CMBPol, identifier)
        else if String.eqb name "SFH" then Ok (SFH, identifier)
        else if String.eqb name "EoRSpec" then Ok (EoRSpec, identifier)
        else if String.eqb name "Mod280" then Ok (Mod280, identifier)
        else Raise (ValueError "module is not a valid option")
    | inl m =>
        match identifier with
        | Some i => Ok (m, i)
        | None => Raise (ValueError "Identifier string must be passed")
        end
    end ;;
  location <-
    match location with
    | inr name => PyDict.getitem slots name
    | inl loc => Ok loc
    end ;;
  Ok (mkT (instr_offset self) (instr_rot self)
          (PyDict.set (_modules self) identifier
             (mkEntry module (fst location) (snd location) mod_rot))).

(** What [change_module] takes as [new_location]: the name of a slot, or
    a tuple or a list of two parts, each a number or [None]. *)
Inductive location_arg : Type :=
| slot (name : string)
| as_tuple (d th : option R)
| as_list (d th : option R).

(** [new_location[i] = v] when that part is [None]: a list takes the
    value, a tuple refuses the assignment. *)
Definition fill_part (is_list : bool) (part : option R) (v : outcome R) : outcome R :=
  match part with
  | Some a => Ok a
  | None =>
      a <- v ;;
      if is_list then Ok a
      else Raise (TypeError "'tuple' object does not support item assignment")
  end.

(** [change_module(identifier, new_location, new_mod_rot, new_identifier)] *)
Definition change_module (self : t) (identifier : string)
  (new_location : option location_arg)
  (new_mod_rot : option R) (new_identifier : option string) : outcome t :=
  _check_identifier self identifier
    (match new_identifier, new_location, new_mod_rot with
     | None, None, None => Ok self
     | _, _, _ =>
         '(mods, identifier) <-
           match new_identifier with
           | Some new_identifier =>
               '(e, mods) <- PyDict.pop (_modules self) identifier ;;
               Ok (PyDict.set mods new_identifier e, new_identifier)
           | None => Ok (_modules self, identifier)
           end ;;
         mods <-
           match new_location with
           | None => Ok mods
           | Some loc =>
               new_location <-
                 match loc with
                 | slot name => PyDict.getitem slots name
                 | as_tuple d th =>
                     d <- fill_part false d
                            (e <- PyDict.getitem mods identifier ;; Ok (dist e)) ;;
                     th <- fill_part false th
                             (e <- PyDict.getitem mods identifier ;; Ok (theta e)) ;;
                     Ok (d, th)
                 | as_list d th =>
                     d <- fill_part true d
                            (e <- PyDict.getitem mods identifier ;; Ok (dist e)) ;;
                     th <- fill_part true th
                             (e <- PyDict.getitem mods identifier ;; Ok (theta e)) ;;
                     Ok (d, th)
                 end ;;
               e <- PyDict.getitem mods identifier ;;
               let mods :=
                 PyDict.set mods identifier
                   (mkEntry (module e) (fst new_location) (theta e) (mod_rot e)) in
               e <- PyDict.getitem mods identifier ;;
               Ok (PyDict.set mods identifier
                     (mkEntry (module e) (dist e) (snd new_location) (mod_rot e)))
           end ;;
         mods <-
           match new_mod_rot with
           | None => Ok mods
           | Some r =>
               e <- PyDict.getitem mods identifier ;;
               Ok (PyDict.set mods identifier (mkEntry (module e) (dist e) (theta e) r))
           end ;;
         Ok (mkT (instr_offset self) (instr_rot self) mods)
     end).

Definition delete_module (self : t) (identifier : string) : outcome t :=
  _check_identifier self identifier
    ('(_, mods) <- PyDict.pop (_modules self) identifier ;;
     Ok (mkT (instr_offset self) (instr_rot self) mods)).

(** [get_module(identifier)] with [with_rot=False]. *)
Definition get_module (self : t) (identifier : string) : outcome module_obj :=
  _check_identifier self identifier
    (e <- PyDict.getitem (_modules self) identifier ;; Ok (module e)).

Definition get_dist (self : t) (identifier : string) : outcome R :=
  _check_identifier self identifier
    (e <- PyDict.getitem (_modules self) identifier ;; Ok (dist e)).

Definition get_theta (self : t) (identifier : string) : outcome R :=
  _check_identifier self identifier
    (e <- PyDict.getitem (_modules self) identifier ;; Ok (theta e)).

Definition get_mod_rot (self : t) (identifier : string) : outcome R :=
  _check_identifier self identifier
    (e <- PyDict.getitem (_modules self) identifier ;; Ok (mod_rot e)).

Definition get_location (self : t) (identifier : string) : outcome (R * R) :=
  _check_identifier self identifier
    (e <- PyDict.getitem (_modules self) identifier ;;
     e' <- PyDict.getitem (_modules self) identifier ;;
     Ok (dist e, theta e')).

End Class.

Arguments mkEntry {module_obj}.
Arguments module {module_obj}.
Arguments dist {module_obj}.
Arguments theta {module_obj}.
Arguments mod_rot {module_obj}.
Arguments mkT {module_obj}.
Arguments instr_offset {module_obj}.
Arguments instr_rot {module_obj}.
Arguments _modules {module_obj}.
Arguments __init__ {module_obj}.
Arguments _check_identifier {module_obj A}.
Arguments add_module {module_obj}.
Arguments change_module {module_obj}.
Arguments delete_module {module_obj}.
Arguments get_module {module_obj}.
Arguments get_dist {module_obj}.
Arguments get_theta {module_obj}.
Arguments get_mod_rot {module_obj}.
Arguments get_location {module_obj}.

End Instrument.

(** [slots] of [ModCam] and of [PrimeCam]. *)
Definition ModCam_slots : PyDict.t (R * R) := [("c"%string, (0, 0))].

Definition PrimeCam_slots : PyDict.t (R * R) :=
  let _default_ir := 178 / 100 in
  [("c", (0, 0));
   ("i1", (_default_ir, -90)); ("i2", (_default_ir, -30)); ("i3", (_default_ir, 30));
   ("i4", (_default_ir, 90)); ("i5", (_default_ir, 150)); ("i6", (_default_ir, -150))]%string.

(** * Vocabulary of the statements *)

(** Time offsets [0, dt, 2*dt, ...], [n] of them. *)
Definition uniform_times (dt : R) (n : nat) : list R :=
  map (fun k => INR k * dt) (seq 0 n).

(** The period formulas of the Pong generators, in terms of [vavg]. *)
Definition period_formulas (tm : timing) (x_numvert y_numvert : Z)
  (vert_spacing sample_interval : R) : Prop :=
  peri_x tm = IZR x_numvert * vert_spacing * 2 / vavg tm
  /\ peri_y tm = IZR y_numvert * vert_spacing * 2 / vavg tm
  /\ period tm = IZR x_numvert * IZR y_numvert * vert_spacing * 2 / vavg tm
  /\ pongcount tm = pyceil (period tm / sample_interval).

(** The end-to-end scenario: width 2 deg, height 1.5 deg, spacing 0.1 deg,
    velocity 0.5 deg/s, 5 terms, sample interval 0.01 s. *)
Definition pong_scenario : Pong.param :=
  Pong.mkParam (SkyPattern.mkParam (count 1) None (1 / 100)) 5 2 (3 / 2) (1 / 10) (1 / 2) 0.

Definition curvy_scenario : CurvyPong.param :=
  CurvyPong.mkParam 5 2 (3 / 2) (1 / 10) (1 / 2) 0 (1 / 100).

(** Valid Pong inputs: positive width, height, spacing, velocity, number of
    terms and sample interval. *)
Definition pong_valid (p : Pong.param) : Prop :=
  0 < Pong.width p /\ 0 < Pong.height p /\ 0 < Pong.spacing p
  /\ 0 < Pong.velocity p /\ (0 < Pong.num_term p)%Z
  /\ 0 < SkyPattern.sample_interval (Pong.repeat p).

Definition curvy_valid (p : CurvyPong.param) : Prop :=
  0 < CurvyPong.width p /\ 0 < CurvyPong.height p /\ 0 < CurvyPong.spacing p
  /\ 0 < CurvyPong.velocity p /\ (0 < CurvyPong.num_term p)%Z
  /\ 0 < CurvyPong.sample_interval p.

(** Consecutive entries of a column all differ by [h]. *)
Definition steps_are (h : R) (l : list R) : Prop :=
  forall i, (S i < length l)%nat -> nth (S i) l 0 - nth i l 0 = h.

(** A copy of the data with its time offsets shifted by [d], and [n] copies
    in a row, copy [k] shifted by [one_period_duration * k]. *)
Definition shifted (d : R) (data : DataFrame) : DataFrame :=
  map (fun s => mkSample (time_offset s + d) (x_coord s) (y_coord s)) data.

Definition tiled (one_period_duration : R) (n : Z) (data : DataFrame) : DataFrame :=
  flat_map (fun k => shifted (one_period_duration * IZR k) data) (range n).

(** A uniformly sampled one-period trajectory that starts at time 1, with
    sample interval 1, to be repeated twice. *)
Definition late_base : DataFrame := [mkSample 1 0 0; mkSample 2 0 0; mkSample 3 0 0].
Definition late_param : SkyPattern.param := SkyPattern.mkParam (count 2) None 1.

(** A Daisy input whose duration is not a multiple of the sample interval:
    one second sampled every 0.3 s. *)
Definition daisy_uneven : Daisy.param := Daisy.mkParam 1 1 1 1 0 1 (3 / 10) 0.

(** A Daisy construction that asks for three repeats: one second sampled
    every 0.5 s. *)
Definition daisy_repeat_kw : Daisy.kwargs :=
  Daisy.mkKwargs 1 1 1 1 0 1 (Some (1 / 2)) None (Some 3%Z) None.

(** The same keyword arguments without the repeat keys. *)
Definition without_repeat (kw : Daisy.kwargs) : Daisy.kwargs :=
  Daisy.mkKwargs (Daisy.kw_velocity kw) (Daisy.kw_start_acc kw) (Daisy.kw_R0 kw)
                 (Daisy.kw_Rt kw) (Daisy.kw_Ra kw) (Daisy.kw_T kw)
                 (Daisy.kw_sample_interval kw) (Daisy.kw_y_offset kw) None None.

Definition is_ValueError {A : Type} (o : outcome A) : Prop :=
  exists msg, o = Raise (ValueError msg).

(** Two angles in degrees that differ by a whole number of turns, and an
    angle inside the half-open window of one turn that starts at [low]. *)
Definition congruent_360 (a b : R) : Prop := exists k : Z, b = a + 360 * IZR k.
Definition in_window (low a : R) : Prop := low <= a < low + 360.

(** A stand-in for the library solver: it checks the bracket for a sign
    change as the library does, raising [ValueError] without one, and
    otherwise returns its starting point. *)
Definition bracket_check_solver (f : R -> R) (x0 lo hi xtol : R) : outcome R :=
  if Rgtb (f lo * f hi) 0 then
    Raise (ValueError "f(a) and f(b) must have different signs")
  else Ok x0.



(** The keyword arguments with only the first basis that is present, in the
    order [start_datetime], [start_hrang], [start_lst], [start_el]. *)
Definition first_basis {D : Type} (kw : TelescopePattern.param D)
  : TelescopePattern.param D :=
  let mk := TelescopePattern.mkParam (TelescopePattern.ra kw) (TelescopePattern.dec kw)
                                     (TelescopePattern.loc kw) in
  match TelescopePattern.start_datetime kw, TelescopePattern.start_hrang kw,
        TelescopePattern.start_lst kw with
  | Some d, _, _ => mk None (Some d) None None (TelescopePattern.moving_up kw)
  | None, Some h, _ => mk (Some h) None None None (TelescopePattern.moving_up kw)
  | None, None, Some l => mk None None (Some l) None (TelescopePattern.moving_up kw)
  | None, None, None => kw
  end.



Definition no_basis_kw : TelescopePattern.param unit :=
  TelescopePattern.mkParam None None None None None None None None.


Definition two_rows : list hsample := [mkHsample 0 0 10 20; mkHsample 1 0 10 20].

(** A root solver that keeps a tolerance [eps] (radians) on a series of
    altitudes (degrees) at a zero module offset: for every altitude of the
    series and every starting point it returns a point strictly inside the
    bracket and no further than [eps] from the altitude. *)
Definition solves_within (eps : R)
  (root_scalar : (R -> R) -> R -> R -> R -> R -> outcome R) (alt : list R) : Prop :=
  forall a x0, In a alt ->
    exists r,
      root_scalar (fun alt_0 => TelescopePattern.func (radians 0) (radians 0) alt_0 (radians a))
                  x0 (- PI / 2) (PI / 2) (/ 1000000) = Ok r
      /\ Rabs (r - radians a) <= eps
      /\ - (PI / 2) < r < PI / 2.

(** A stand-in for the library solver that is not exact: it checks the
    bracket for a sign change as the library does, and on the zero-offset
    function [sin x - c] it returns a point half the tolerance [xtol] above
    the root ([c] is minus the value of the function at 0). *)
Definition half_tolerance_solver (f : R -> R) (x0 lo hi xtol : R) : outcome R :=
  if Rgtb (f lo * f hi) 0 then
    Raise (ValueError "f(a) and f(b) must have different signs")
  else Ok (asin (- f 0) + xtol / 2).



(** What both transforms return at a zero offset. *)
Definition normalised (az alt : list R) : outcome (list R * list R) :=
  az' <- TelescopePattern._norm_angle az ;;
  Ok (az', map (fun a => pymod a 360) alt).

(** The samples [c + m*(k*h)], [k = 0 .. n-1], of a straight line of slope
    [m] read every [h]. *)
Definition line_samples (c m h : R) (n : nat) : list R :=
  map (fun k => c + m * (INR k * h)) (seq 0 n).

(** Data whose time offsets are [t0, t0 + h, t0 + 2*h, ...]. *)
Definition evenly_spaced (t0 h : R) (data : DataFrame) : Prop :=
  SkyPattern.time_offsets data = map (fun k => t0 + INR k * h) (seq 0 (length data)).

(** The three columns of a DataFrame, as [to_dict('list')] returns them. *)
Definition columns_of (data : DataFrame) : list R * list R * list R :=
  (map time_offset data, map x_coord data, map y_coord data).

(** The scenario of [pong_scenario], asked to repeat three times. *)
Definition pong_three_times : Pong.param :=
  Pong.mkParam (SkyPattern.mkParam (count 3) None (1 / 100)) 5 2 (3 / 2) (1 / 10) (1 / 2) 0.

(** Two Daisy steppers: one with the avoidance radius inside the straight
    zone, one with it outside ([Ra = 3 > R0 = 1]); and a state on the
    x axis at distance 2 from the centre. *)
Definition daisy_consts : DaisyStep.consts := DaisyStep.mkConsts 1 1 1 1 0 1.
Definition daisy_wide_Ra : DaisyStep.consts := DaisyStep.mkConsts 1 1 1 1 3 1.
Definition daisy_at_2 : DaisyStep.state := DaisyStep.mkState 1 0 2 0 0.

(** A Daisy input whose duration is a whole number of sample intervals:
    one second sampled every 0.25 s. *)
Definition daisy_even : Daisy.param := Daisy.mkParam 1 1 1 1 0 1 (1 / 4) 0.

(** The default modules by name, as [add_module] resolves them. *)
Definition default_modules {M : Type} (CMBPol SFH EoRSpec Mod280 : M)
  : list (string * M) :=
  [("CMBPol", CMBPol); ("SFH", SFH); ("EoRSpec", EoRSpec); ("Mod280", Mod280)]%string.

(** A PrimeCam, its Module objects told apart by their names, holding one
    module ["a"] at (1, 20) rotated by 5 degrees. *)
Definition one_module : Instrument.t string :=
  Instrument.mkT (0, 0) 0 [("a"%string, Instrument.mkEntry "SFH"%string 1 20 5)].

(** Two pixels of one wafer. *)
Definition one_wafer : list CameraModule.pixel :=
  [CameraModule.mkPixel 0 0 0 0 0 0; CameraModule.mkPixel 1 1 0 0 0 0].

(** * Properties *)

(** ** Primitives *)

Lemma Rltb_true a b : a < b -> Rltb a b = true.
Proof. unfold Rltb. destruct (Rlt_dec a b); intros; [reflexivity | lra]. Qed.

Lemma Rltb_false a b : b <= a -> Rltb a b = false.
Proof. unfold Rltb. destruct (Rlt_dec a b); intros; [lra | reflexivity]. Qed.

Lemma Rleb_true a b : a <= b -> Rleb a b = true.
Proof. unfold Rleb. destruct (Rle_dec a b); intros; [reflexivity | lra]. Qed.

Lemma Rleb_false a b : b < a -> Rleb a b = false.
Proof. unfold Rleb. destruct (Rle_dec a b); intros; [lra | reflexivity]. Qed.

Lemma Reqb_true a b : a = b -> Reqb a b = true.
Proof. unfold Reqb. destruct (Req_dec_T a b); intros; [reflexivity | contradiction]. Qed.

Lemma Reqb_false a b : a <> b -> Reqb a b = false.
Proof. unfold Reqb. destruct (Req_dec_T a b); intros; [contradiction | reflexivity]. Qed.

Lemma pydiv_ok a b s : b <> 0 -> pydiv a b s = Ok (a / b).
Proof. intros H. unfold pydiv. now rewrite Reqb_false. Qed.

Lemma pydiv_zero a s : pydiv a 0 s = Raise (ZeroDivisionError s).
Proof. unfold pydiv. now rewrite Reqb_true. Qed.

Lemma pysqrt_ok a : 0 <= a -> pysqrt a = Ok (sqrt a).
Proof. intros H. unfold pysqrt. now rewrite Rltb_false. Qed.

Lemma sqrt2_pos : 0 < sqrt 2.
Proof. apply sqrt_lt_R0. lra. Qed.

Lemma Zceil_bound a : IZR (Zceil a) - 1 < a <= IZR (Zceil a).
Proof.
  unfold Zceil. rewrite opp_IZR.
  pose proof (Zfloor_bound (- a)). lra.
Qed.

Lemma Zceil_pos a : 0 < a -> (1 <= Zceil a)%Z.
Proof.
  intros H. pose proof (Zceil_bound a) as [_ Hb].
  assert (0 < IZR (Zceil a)) by lra.
  apply lt_IZR in H0. lia.
Qed.

(** ** Pong: the vertex counts *)

Section VertexCounts.
Import PongVertices.
Local Open Scope Z_scope.

Lemma fix_parity_spec x y :
  1 <= x -> 1 <= y ->
  let '(x', y') := fix_parity x y in
  1 <= x' /\ 1 <= y' /\ x' mod 2 <> y' mod 2.
Proof.
  intros Hx Hy. unfold fix_parity.
  destruct (Z.eqb_spec (x mod 2) (y mod 2)) as [E | E].
  - destruct (x >=? y); repeat split; try lia.
    + rewrite Z.add_mod by lia. rewrite <- E.
      pose proof (Z.mod_pos_bound x 2 ltac:(lia)).
      assert (x mod 2 = 0 \/ x mod 2 = 1) as [-> | ->] by lia; now compute.
    + rewrite Z.add_mod by lia. rewrite E.
      pose proof (Z.mod_pos_bound y 2 ltac:(lia)).
      assert (y mod 2 = 0 \/ y mod 2 = 1) as [-> | ->] by lia; now compute.
  - repeat split; assumption.
Qed.

(** Some candidate [m + 2k] with [k < l] is congruent to 1 modulo [l]. *)
Lemma shift_to_one m l :
  1 <= l -> m mod 2 <> l mod 2 ->
  exists k q, 0 <= k < l /\ m + 2 * k = 1 + l * q.
Proof.
  intros Hl Hpar.
  pose proof (Z.mod_pos_bound m 2 ltac:(lia)) as Hm2.
  pose proof (Z.mod_pos_bound l 2 ltac:(lia)) as Hl2.
  pose proof (Z.div_mod m 2 ltac:(lia)) as Em.
  pose proof (Z.div_mod l 2 ltac:(lia)) as El.
  assert (l mod 2 = 1 \/ (l mod 2 = 0 /\ m mod 2 = 1)) as [Hodd | [Hev Hmo]] by lia.
  - (* l odd: 2 is invertible modulo l *)
    set (h := l / 2) in *.
    set (c := (1 - m) * (h + 1)).
    exists (c mod l), ((1 - m) - 2 * (c / l)).
    split; [apply Z.mod_pos_bound; lia |].
    pose proof (Z.div_mod c l ltac:(lia)) as Ec.
    assert (2 * c = (1 - m) * (l + 1)) by (unfold c; lia).
    nia.
  - (* l even and m odd *)
    set (j := m / 2) in *.
    exists ((- j) mod l), (- 2 * ((- j) / l)).
    split; [apply Z.mod_pos_bound; lia |].
    pose proof (Z.div_mod (- j) l ltac:(lia)) as Ej.
    nia.
Qed.

Lemma gcd_one_of_shift a l q : a = 1 + l * q -> Z.gcd a l = 1.
Proof.
  intros ->. rewrite Z.gcd_comm.
  replace (1 + l * q) with (1 + q * l) by lia.
  rewrite Z.gcd_add_mult_diag_r. apply Z.gcd_1_r.
Qed.

(** The loop with the larger count first in the list: it stops at the
    first coprime candidate, whatever fuel is left over. *)
Lemma coprime_loop_0 (k : nat) : forall m l,
  Z.gcd (m + 2 * Z.of_nat k) l = 1 ->
  exists j, 0 <= j <= Z.of_nat k /\ Z.gcd (m + 2 * j) l = 1 /\
            forall fuel, (k <= fuel)%nat ->
                         coprime_loop fuel [m; l] 0 1 = Ok [m + 2 * j; l].
Proof.
  induction k as [| k IH]; intros m l Hg.
  - exists 0. replace (m + 2 * 0) with m by lia.
    replace (m + 2 * Z.of_nat 0) with m in Hg by lia.
    repeat split; try lia.
    intros fuel _. destruct fuel; simpl; unfold get; simpl; rewrite Hg; reflexivity.
  - destruct (Z.eqb_spec (Z.gcd m l) 1) as [E | E].
    + exists 0. replace (m + 2 * 0) with m by lia.
      repeat split; try lia.
      intros fuel _. destruct fuel; simpl; unfold get; simpl; rewrite E; reflexivity.
    + destruct (IH (m + 2) l) as (j & Hj & Hgj & Hrun).
      { replace (m + 2 + 2 * Z.of_nat k) with (m + 2 * Z.of_nat (S k)) by lia.
        exact Hg. }
      exists (j + 1). replace (m + 2 * (j + 1)) with (m + 2 + 2 * j) by lia.
      repeat split; try lia; try assumption.
      intros [| fuel] Hf; [lia |].
      simpl. unfold get at 1 2. simpl.
      apply Z.eqb_neq in E. rewrite E. apply Hrun. lia.
Qed.

(** The loop with the larger count second in the list. *)
Lemma coprime_loop_1 (k : nat) : forall m l,
  Z.gcd (m + 2 * Z.of_nat k) l = 1 ->
  exists j, 0 <= j <= Z.of_nat k /\ Z.gcd (m + 2 * j) l = 1 /\
            forall fuel, (k <= fuel)%nat ->
                         coprime_loop fuel [l; m] 1 0 = Ok [l; m + 2 * j].
Proof.
  induction k as [| k IH]; intros m l Hg.
  - exists 0. replace (m + 2 * 0) with m by lia.
    replace (m + 2 * Z.of_nat 0) with m in Hg by lia.
    repeat split; try lia.
    intros fuel _. destruct fuel; simpl; unfold get; simpl; rewrite Hg; reflexivity.
  - destruct (Z.eqb_spec (Z.gcd m l) 1) as [E | E].
    + exists 0. replace (m + 2 * 0) with m by lia.
      repeat split; try lia.
      intros fuel _. destruct fuel; simpl; unfold get; simpl; rewrite E; reflexivity.
    + destruct (IH (m + 2) l) as (j & Hj & Hgj & Hrun).
      { replace (m + 2 + 2 * Z.of_nat k) with (m + 2 * Z.of_nat (S k)) by lia.
        exact Hg. }
      exists (j + 1). replace (m + 2 * (j + 1)) with (m + 2 + 2 * j) by lia.
      repeat split; try lia; try assumption.
      intros [| fuel] Hf; [lia |].
      simpl. unfold get at 1 2. simpl.
      apply Z.eqb_neq in E. rewrite E. apply Hrun. lia.
Qed.

Lemma add_even_mod2 m j : (m + 2 * j) mod 2 = m mod 2.
Proof.
  replace (m + 2 * j) with (m + j * 2) by lia. apply Z.mod_add. lia.
Qed.

Lemma parity_asserts x y :
  x mod 2 <> y mod 2 ->
  ((x mod 2 =? 0) && (y mod 2 =? 1)) || ((x mod 2 =? 1) && (y mod 2 =? 0)) = true
  /\ opposite_parity x y.
Proof.
  intros H. unfold opposite_parity.
  pose proof (Z.mod_pos_bound x 2 ltac:(lia)).
  pose proof (Z.mod_pos_bound y 2 ltac:(lia)).
  assert ((x mod 2 = 0 /\ y mod 2 = 1) \/ (x mod 2 = 1 /\ y mod 2 = 0))
    as [[-> ->] | [-> ->]] by lia; split; auto.
Qed.

(** The integer part returns, for any fuel from a bound on, one pair of
    coprime counts of opposite parity. *)
Lemma adjust_spec x0 y0 :
  1 <= x0 -> 1 <= y0 ->
  exists x y,
    (forall fuel, (Z.to_nat (Z.max x0 y0 + 1) <= fuel)%nat ->
                  adjust fuel x0 y0 = Ok (x, y))
    /\ Z.gcd x y = 1 /\ opposite_parity x y /\ 1 <= x /\ 1 <= y.
Proof.
  intros Hx Hy.
  pose proof (fix_parity_spec x0 y0 Hx Hy) as Hfp.
  assert (Hb : fst (fix_parity x0 y0) <= Z.max x0 y0 + 1
               /\ snd (fix_parity x0 y0) <= Z.max x0 y0 + 1).
  { unfold fix_parity. destruct (_ =? _); [destruct (Z.geb_spec x0 y0) |]; simpl; lia. }
  unfold adjust.
  destruct (fix_parity x0 y0) as [x1 y1]. simpl in Hb.
  destruct Hfp as (Hx1 & Hy1 & Hpar).
  destruct (Z_lt_le_dec y1 x1) as [Hgt | Hle].
  - (* the first count is the larger one *)
    destruct (shift_to_one x1 y1 Hy1 Hpar) as (k & q & Hk & Hkq).
    destruct (coprime_loop_0 (Z.to_nat k) x1 y1) as (j & Hj & Hg & Hrun);
      [rewrite Z2Nat.id by lia; now apply gcd_one_of_shift with q |].
    exists (x1 + 2 * j), y1.
    assert (Hpar' : (x1 + 2 * j) mod 2 <> y1 mod 2) by now rewrite add_even_mod2.
    destruct (parity_asserts _ _ Hpar') as [Hb2 Hop].
    split; [| repeat split; try assumption; lia].
    intros fuel Hfuel.
    simpl index.
    rewrite Z.max_l, Z.min_r, Z.eqb_refl by lia.
    replace (x1 =? y1) with false by (symmetry; apply Z.eqb_neq; lia).
    rewrite Z.eqb_refl.
    rewrite Hrun by lia. unfold bind, get. cbn [nth].
    rewrite Hg, Hb2. reflexivity.
  - (* the second count is the larger one *)
    assert (Hlt : x1 < y1).
    { destruct (Z.eq_dec x1 y1) as [-> | ]; [contradiction | lia]. }
    assert (Hpar2 : y1 mod 2 <> x1 mod 2) by congruence.
    destruct (shift_to_one y1 x1 Hx1 Hpar2) as (k & q & Hk & Hkq).
    destruct (coprime_loop_1 (Z.to_nat k) y1 x1) as (j & Hj & Hg & Hrun);
      [rewrite Z2Nat.id by lia; now apply gcd_one_of_shift with q |].
    exists x1, (y1 + 2 * j).
    assert (Hpar' : x1 mod 2 <> (y1 + 2 * j) mod 2) by now rewrite add_even_mod2.
    destruct (parity_asserts _ _ Hpar') as [Hb2 Hop].
    rewrite Z.gcd_comm in Hg.
    split; [| repeat split; try assumption; lia].
    intros fuel Hfuel.
    simpl index.
    rewrite Z.max_r, Z.min_l, Z.eqb_refl by lia.
    replace (x1 =? y1) with false by (symmetry; apply Z.eqb_neq; lia).
    rewrite Z.eqb_refl.
    rewrite Hrun by lia. unfold bind, get. cbn [nth].
    rewrite Hg, Hb2. reflexivity.
Qed.

End VertexCounts.

Lemma numvert_spec width height spacing :
  0 < width -> 0 < height -> 0 < spacing ->
  exists x y,
    (exists fuel0, forall fuel, (fuel0 <= fuel)%nat ->
       PongVertices.numvert fuel width height spacing = Ok (x, y))
    /\ Z.gcd x y = 1%Z /\ PongVertices.opposite_parity x y
    /\ (1 <= x)%Z /\ (1 <= y)%Z.
Proof.
  intros Hw Hh Hs.
  pose proof sqrt2_pos as H2.
  assert (Hvs : 0 < sqrt 2 * spacing) by nra.
  assert (Hqx : 0 < width / (sqrt 2 * spacing)) by (apply Rdiv_lt_0_compat; lra).
  assert (Hqy : 0 < height / (sqrt 2 * spacing)) by (apply Rdiv_lt_0_compat; lra).
  destruct (adjust_spec _ _ (Zceil_pos _ Hqx) (Zceil_pos _ Hqy))
    as (x & y & Hrun & Hg & Hp & Hx & Hy).
  exists x, y. split; [| tauto].
  eexists. intros fuel Hf. unfold PongVertices.numvert.
  rewrite !pydiv_ok by lra. simpl. apply Hrun. exact Hf.
Qed.

(** C4.  For positive width, height and spacing the generator leaves the
    vertex-count loop, for any fuel from a bound on, with one pair
    [(x_numvert, y_numvert)]; the two counts are coprime and of opposite
    parity. *)
Theorem pong_vertex_counts_coprime_opposite_parity width height spacing :
  0 < width -> 0 < height -> 0 < spacing ->
  exists x_numvert y_numvert,
    (exists fuel0, forall fuel, (fuel0 <= fuel)%nat ->
       PongVertices.numvert fuel width height spacing = Ok (x_numvert, y_numvert))
    /\ Z.gcd x_numvert y_numvert = 1%Z
    /\ PongVertices.opposite_parity x_numvert y_numvert.
Proof.
  intros Hw Hh Hs.
  destruct (numvert_spec width height spacing Hw Hh Hs) as (x & y & H & Hg & Hp & _).
  exists x, y. auto.
Qed.

Lemma pong_vertex_counts_witness :
  exists x_numvert y_numvert,
    (exists fuel0, forall fuel, (fuel0 <= fuel)%nat ->
       PongVertices.numvert fuel 2 (3 / 2) (1 / 10) = Ok (x_numvert, y_numvert))
    /\ Z.gcd x_numvert y_numvert = 1%Z
    /\ PongVertices.opposite_parity x_numvert y_numvert.
Proof.
  apply (pong_vertex_counts_coprime_opposite_parity 2 (3 / 2) (1 / 10)); lra.
Defined.

(** ** Loops *)

Lemma for_each_pure {A S : Type} (f : A -> S -> S) (l : list A) : forall s,
  for_each l s (fun a s => Ok (f a s)) = Ok (fold_left (fun s a => f a s) l s).
Proof.
  induction l as [| a l IH]; intros s; simpl; [reflexivity | apply IH].
Qed.

Lemma for_each_app {A S : Type} (body : A -> S -> outcome S) (l1 l2 : list A) s :
  for_each (l1 ++ l2) s body = (s' <- for_each l1 s body ;; for_each l2 s' body).
Proof.
  revert s. induction l1 as [| a l1 IH]; intros s; simpl; [reflexivity |].
  destruct (body a s); simpl; auto.
Qed.

Lemma range3_length start stop :
  length (range3 start stop 1) = Z.to_nat (stop - start).
Proof.
  unfold range3. rewrite length_map, length_seq.
  f_equal. rewrite Z.div_1_r. lia.
Qed.

Lemma range_length n : length (range n) = Z.to_nat n.
Proof. unfold range. rewrite range3_length. f_equal. lia. Qed.

Lemma range2_length a b : length (range2 a b) = Z.to_nat (b - a).
Proof. apply range3_length. Qed.

Lemma zip_columns_length t : forall x y,
  length t = length x -> length x = length y ->
  length (zip_columns t x y) = length t.
Proof.
  induction t as [| t0 t IH]; intros [| x0 x] [| y0 y]; simpl; intros; try lia.
  f_equal. apply IH; lia.
Qed.

Lemma zip_columns_time t : forall x y,
  length t = length x -> length x = length y ->
  map time_offset (zip_columns t x y) = t.
Proof.
  induction t as [| t0 t IH]; intros [| x0 x] [| y0 y]; simpl; intros;
    try lia; try reflexivity.
  f_equal. apply IH; lia.
Qed.

Lemma pd_DataFrame_ok t x y :
  length t = length x -> length x = length y ->
  pd_DataFrame t x y = Ok (zip_columns t x y).
Proof.
  intros H1 H2. unfold pd_DataFrame.
  rewrite H1, H2, !Nat.eqb_refl. reflexivity.
Qed.

Lemma pd_DataFrame_mismatch t x y :
  length t <> length x ->
  pd_DataFrame t x y = Raise (ValueError "All arrays must be of the same length").
Proof.
  intros H. unfold pd_DataFrame.
  apply Nat.eqb_neq in H. rewrite H. reflexivity.
Qed.

(** ** Pong: periods and sample count *)

Lemma seq_shift_map {B : Type} (f : nat -> B) n :
  map f (seq 1 n) = map (fun k => f (S k)) (seq 0 n).
Proof. rewrite <- seq_shift, map_map. reflexivity. Qed.

Lemma pong_fourier_ok nt amp t peri :
  peri <> 0 -> exists v, Pong._fourier_expansion nt amp t peri = Ok v.
Proof.
  intros H. unfold Pong._fourier_expansion.
  rewrite pydiv_ok by assumption. simpl.
  rewrite for_each_pure. simpl. eexists. reflexivity.
Qed.

Lemma pong_sample_loop nt tm ang si (l : list Z) :
  peri_x tm <> 0 -> peri_y tm <> 0 ->
  forall s, exists s',
    for_each l s (Pong.sample_body nt tm ang si) = Ok s'
    /\ Pong.t_count s' = Pong.t_count s + INR (length l) * si
    /\ Pong.time_offset_l s' =
         Pong.time_offset_l s
         ++ map (fun k => Pong.t_count s + INR k * si) (seq 0 (length l))
    /\ length (Pong.x_coord_l s') = (length (Pong.x_coord_l s) + length l)%nat
    /\ length (Pong.y_coord_l s') = (length (Pong.y_coord_l s) + length l)%nat.
Proof.
  intros Hx Hy. induction l as [| i l IH]; intros s.
  - exists s. simpl. rewrite app_nil_r, Nat.add_0_r, Nat.add_0_r.
    repeat split; try reflexivity. lra.
  - destruct (pong_fourier_ok nt (amp_x tm) (Pong.t_count s) (peri_x tm) Hx) as [vx Ex].
    destruct (pong_fourier_ok nt (amp_y tm) (Pong.t_count s) (peri_y tm) Hy) as [vy Ey].
    cbn [for_each]. unfold Pong.sample_body at 1. rewrite Ex, Ey. cbn [bind].
    match goal with |- context [for_each l ?s0 _] => destruct (IH s0) as (s' & E & Ht & Hto & Hlx & Hly) end.
    exists s'. rewrite E. cbn [Pong.t_count Pong.time_offset_l Pong.x_coord_l Pong.y_coord_l] in *.
    split; [reflexivity |].
    split; [rewrite Ht; cbn [length]; rewrite S_INR; lra |].
    split.
    + rewrite Hto, <- app_assoc. f_equal. cbn [length seq map app].
      f_equal; [simpl; lra |].
      rewrite seq_shift_map. apply map_ext. intros k. rewrite S_INR. lra.
    + rewrite Hlx, Hly, !length_app. simpl. lia.
Qed.

(** Positivity of products and quotients of positive terms. *)
Ltac positive :=
  repeat first [ apply Rdiv_lt_0_compat | apply Rmult_lt_0_compat ]; lra.

Lemma sqrt2_neq_1 : sqrt 2 <> 1.
Proof.
  intros H. pose proof (sqrt_sqrt 2 ltac:(lra)) as E. rewrite H in E. lra.
Qed.

Section PongTiming.

Variables (x y : Z) (vert_spacing velocity sample_interval : R).
Hypothesis Hx : (1 <= x)%Z.
Hypothesis Hy : (1 <= y)%Z.
Hypothesis Hvs : 0 < vert_spacing.
Hypothesis Hv : 0 < velocity.
Hypothesis Hsi : 0 < sample_interval.

Lemma pong_timing_ok :
  exists tm, Pong.timing_of x y vert_spacing velocity sample_interval = Ok tm
    /\ vavg tm = velocity / sqrt 2
    /\ period_formulas tm x y vert_spacing sample_interval
    /\ 0 < peri_x tm /\ 0 < peri_y tm /\ (1 <= pongcount tm)%Z.
Proof.
  pose proof sqrt2_pos as H2.
  assert (Hva : 0 < velocity / sqrt 2) by (apply Rdiv_lt_0_compat; lra).
  apply IZR_le in Hx, Hy.
  unfold Pong.timing_of. repeat (rewrite pydiv_ok by lra; cbn [bind]).
  eexists. split; [reflexivity |]. cbn [vavg peri_x peri_y period pongcount].
  assert (Hpx : 0 < IZR x * vert_spacing * 2 / (velocity / sqrt 2))
    by positive.
  assert (Hpy : 0 < IZR y * vert_spacing * 2 / (velocity / sqrt 2))
    by positive.
  assert (Hp : 0 < IZR x * IZR y * vert_spacing * 2 / (velocity / sqrt 2))
    by positive.
  repeat split; try assumption.
  apply Zceil_pos. apply Rdiv_lt_0_compat; lra.
Qed.

Lemma curvy_timing_ok :
  exists tm, CurvyPong.timing_of x y vert_spacing velocity sample_interval = Ok tm
    /\ vavg tm = velocity
    /\ period_formulas tm x y vert_spacing sample_interval
    /\ 0 < peri_x tm /\ 0 < peri_y tm /\ (1 <= pongcount tm)%Z.
Proof.
  apply IZR_le in Hx, Hy.
  unfold CurvyPong.timing_of. repeat (rewrite pydiv_ok by lra; cbn [bind]).
  eexists. split; [reflexivity |]. cbn [vavg peri_x peri_y period pongcount].
  assert (Hpx : 0 < IZR x * vert_spacing * 2 / velocity)
    by positive.
  assert (Hpy : 0 < IZR y * vert_spacing * 2 / velocity)
    by positive.
  assert (Hp : 0 < IZR x * IZR y * vert_spacing * 2 / velocity)
    by positive.
  repeat split; try assumption.
  apply Zceil_pos. apply Rdiv_lt_0_compat; lra.
Qed.

End PongTiming.

Lemma curvy_fourier_ok nt amp t peri :
  peri <> 0 -> exists v, CurvyPong._fourier_expansion nt amp t peri = Ok v.
Proof.
  intros H. unfold CurvyPong._fourier_expansion.
  rewrite pydiv_ok by assumption. cbn [bind].
  match goal with
  | |- context [for_each ?l ?s0 ?b] =>
      assert (E : exists r, for_each l s0 b = Ok r)
  end.
  { generalize (range3 1 (nt * 2 - 1 + 1) 2). intros l.
    generalize ((0, 0, 0, 0) : R * R * R * R).
    induction l as [| n l IH]; intros s0; [eexists; reflexivity |].
    cbn [for_each]. destruct s0 as [[[a b] c] d]. cbn [bind]. apply IH. }
  destruct E as [[[[a b] c] d] E]. rewrite E. cbn [bind]. eexists. reflexivity.
Qed.

Lemma curvy_sample_loop nt tm ang si (l : list Z) :
  peri_x tm <> 0 -> peri_y tm <> 0 ->
  forall t rows, exists t' rows',
    for_each l (t, rows) (CurvyPong.sample_body nt tm ang si) = Ok (t', rows')
    /\ map CurvyPong.time_offset rows' =
         map CurvyPong.time_offset rows
         ++ map (fun k => t + INR k * si) (seq 0 (length l)).
Proof.
  intros Hx Hy. induction l as [| i l IH]; intros t rows.
  - exists t, rows. simpl. rewrite app_nil_r. auto.
  - destruct (curvy_fourier_ok nt (amp_x tm) t (peri_x tm) Hx) as [[[[a b] c] d] Ex].
    destruct (curvy_fourier_ok nt (amp_y tm) t (peri_y tm) Hy) as [[[[a' b'] c'] d'] Ey].
    cbn [for_each]. unfold CurvyPong.sample_body at 1. rewrite Ex. cbn [bind].
    rewrite Ey. cbn [bind].
    match goal with
    | |- context [for_each l (?t0, ?r0) _] =>
        destruct (IH t0 r0) as (t' & rows' & E & Hto)
    end.
    exists t', rows'. split; [exact E |].
    rewrite Hto, map_app, <- app_assoc. f_equal. cbn [length seq map app CurvyPong.time_offset].
    f_equal; [simpl; lra |].
    rewrite seq_shift_map. apply map_ext. intros k. rewrite S_INR. lra.
Qed.

Lemma uniform_times_length dt n : length (uniform_times dt n) = n.
Proof. unfold uniform_times. now rewrite length_map, length_seq. Qed.

Lemma pong_one_period_spec (p : Pong.param) :
  0 < Pong.width p -> 0 < Pong.height p -> 0 < Pong.spacing p ->
  0 < Pong.velocity p -> 0 < SkyPattern.sample_interval (Pong.repeat p) ->
  exists x y tm data,
    (exists fuel0, forall fuel, (fuel0 <= fuel)%nat ->
       PongVertices.numvert fuel (Pong.width p) (Pong.height p) (Pong.spacing p) = Ok (x, y)
       /\ Pong.one_period fuel p = Ok (tm, data))
    /\ vavg tm = Pong.velocity p / sqrt 2
    /\ period_formulas tm x y (sqrt 2 * Pong.spacing p)
                        (SkyPattern.sample_interval (Pong.repeat p))
    /\ (1 <= pongcount tm)%Z
    /\ length data = Z.to_nat (pongcount tm)
    /\ SkyPattern.time_offsets data =
         uniform_times (SkyPattern.sample_interval (Pong.repeat p))
                       (Z.to_nat (pongcount tm)).
Proof.
  intros Hw Hh Hs Hv Hsi.
  destruct (numvert_spec _ _ _ Hw Hh Hs) as (x & y & [fuel0 Hrun] & _ & _ & Hx & Hy).
  pose proof sqrt2_pos as H2.
  assert (Hvs : 0 < sqrt 2 * Pong.spacing p) by positive.
  destruct (pong_timing_ok x y _ _ _ Hx Hy Hvs Hv Hsi)
    as (tm & Etm & Hva & Hform & Hpx & Hpy & Hcount).
  destruct (pong_sample_loop (Pong.num_term p) tm (radians (Pong.angle p))
              (SkyPattern.sample_interval (Pong.repeat p)) (range (pongcount tm))
              ltac:(lra) ltac:(lra) (Pong.mkAcc 0 [] [] []))
    as (s' & Eloop & _ & Hto & Hlx & Hly).
  cbn [Pong.t_count Pong.time_offset_l Pong.x_coord_l Pong.y_coord_l app length] in *.
  rewrite range_length in *.
  assert (Et : Pong.time_offset_l s' =
               uniform_times (SkyPattern.sample_interval (Pong.repeat p))
                             (Z.to_nat (pongcount tm))).
  { rewrite Hto. unfold uniform_times. apply map_ext. intros k. lra. }
  assert (Elen : length (Pong.time_offset_l s') = Z.to_nat (pongcount tm))
    by (rewrite Et; apply uniform_times_length).
  exists x, y, tm, (zip_columns (Pong.time_offset_l s') (Pong.x_coord_l s') (Pong.y_coord_l s')).
  split; [exists fuel0; intros fuel Hf; split; [now apply Hrun |] |].
  - unfold Pong.one_period. rewrite (Hrun fuel Hf). cbn [bind].
    rewrite Etm. cbn [bind]. rewrite Eloop. cbn [bind].
    rewrite pd_DataFrame_ok by lia. reflexivity.
  - split; [exact Hva |]. split; [exact Hform |]. split; [exact Hcount |]. split.
    + rewrite zip_columns_length; [exact Elen | lia | lia].
    + unfold SkyPattern.time_offsets. rewrite zip_columns_time; [exact Et | lia | lia].
Qed.

Lemma curvy_generate_scan_spec (p : CurvyPong.param) :
  0 < CurvyPong.width p -> 0 < CurvyPong.height p -> 0 < CurvyPong.spacing p ->
  0 < CurvyPong.velocity p -> 0 < CurvyPong.sample_interval p ->
  exists x y tm rows,
    (exists fuel0, forall fuel, (fuel0 <= fuel)%nat ->
       PongVertices.numvert fuel (CurvyPong.width p) (CurvyPong.height p)
                            (CurvyPong.spacing p) = Ok (x, y)
       /\ CurvyPong._generate_scan fuel p = Ok (tm, rows))
    /\ vavg tm = CurvyPong.velocity p
    /\ period_formulas tm x y (sqrt 2 * CurvyPong.spacing p) (CurvyPong.sample_interval p)
    /\ (1 <= pongcount tm)%Z
    /\ length rows = Z.to_nat (pongcount tm)
    /\ map CurvyPong.time_offset rows =
         uniform_times (CurvyPong.sample_interval p) (Z.to_nat (pongcount tm)).
Proof.
  intros Hw Hh Hs Hv Hsi.
  destruct (numvert_spec _ _ _ Hw Hh Hs) as (x & y & [fuel0 Hrun] & _ & _ & Hx & Hy).
  pose proof sqrt2_pos as H2.
  assert (Hvs : 0 < sqrt 2 * CurvyPong.spacing p) by positive.
  destruct (curvy_timing_ok x y _ _ _ Hx Hy Hvs Hv Hsi)
    as (tm & Etm & Hva & Hform & Hpx & Hpy & Hcount).
  destruct (curvy_sample_loop (CurvyPong.num_term p) tm (radians (CurvyPong.angle p))
              (CurvyPong.sample_interval p) (range (pongcount tm))
              ltac:(lra) ltac:(lra) 0 [])
    as (t' & rows & Eloop & Hto).
  cbn [map app] in Hto. rewrite range_length in Hto.
  assert (Et : map CurvyPong.time_offset rows =
               uniform_times (CurvyPong.sample_interval p) (Z.to_nat (pongcount tm))).
  { rewrite Hto. unfold uniform_times. apply map_ext. intros k. lra. }
  exists x, y, tm, rows.
  split; [exists fuel0; intros fuel Hf; split; [now apply Hrun |] |].
  - unfold CurvyPong._generate_scan. rewrite (Hrun fuel Hf). cbn [bind].
    rewrite Etm. cbn [bind]. unfold np_empty.
    replace (pongcount tm <? 0)%Z with false by (symmetry; apply Z.ltb_ge; lia).
    cbn [bind]. rewrite Eloop. reflexivity.
  - split; [exact Hva |]. split; [exact Hform |]. split; [exact Hcount |].
    split; [| exact Et].
    rewrite <- (length_map CurvyPong.time_offset), Et. apply uniform_times_length.
Qed.

(** C1, as amended.  For every valid input, the Pong generator of
    [coordinates.py] takes [vavg = velocity/sqrt(2)] and the CurvyPong
    generator of [scanning.py] takes [vavg = velocity]; in both, the per-axis
    periods are [numvert*vert_spacing*2/vavg], the total period is
    [x_numvert*y_numvert*vert_spacing*2/vavg], and one generated period has
    [ceil(period/sample_interval)] samples. *)
Theorem pong_periods_and_sample_count (p : Pong.param) (c : CurvyPong.param) :
  pong_valid p -> curvy_valid c ->
  (exists x_numvert y_numvert tm data,
     (exists fuel0, forall fuel, (fuel0 <= fuel)%nat ->
        PongVertices.numvert fuel (Pong.width p) (Pong.height p) (Pong.spacing p)
          = Ok (x_numvert, y_numvert)
        /\ Pong.one_period fuel p = Ok (tm, data))
     /\ vavg tm = Pong.velocity p / sqrt 2
     /\ period_formulas tm x_numvert y_numvert (sqrt 2 * Pong.spacing p)
                         (SkyPattern.sample_interval (Pong.repeat p))
     /\ Z.of_nat (length data) = pongcount tm)
  /\
  (exists x_numvert y_numvert tm rows,
     (exists fuel0, forall fuel, (fuel0 <= fuel)%nat ->
        PongVertices.numvert fuel (CurvyPong.width c) (CurvyPong.height c)
                             (CurvyPong.spacing c) = Ok (x_numvert, y_numvert)
        /\ CurvyPong._generate_scan fuel c = Ok (tm, rows))
     /\ vavg tm = CurvyPong.velocity c
     /\ period_formulas tm x_numvert y_numvert (sqrt 2 * CurvyPong.spacing c)
                         (CurvyPong.sample_interval c)
     /\ Z.of_nat (length rows) = pongcount tm).
Proof.
  intros (Hw & Hh & Hs & Hv & _ & Hsi) (Hw' & Hh' & Hs' & Hv' & _ & Hsi').
  split.
  - destruct (pong_one_period_spec p Hw Hh Hs Hv Hsi)
      as (x & y & tm & data & Hrun & Hva & Hform & Hc & Hlen & _).
    exists x, y, tm, data. repeat (split; [assumption |]). lia.
  - destruct (curvy_generate_scan_spec c Hw' Hh' Hs' Hv' Hsi')
      as (x & y & tm & rows & Hrun & Hva & Hform & Hc & Hlen & _).
    exists x, y, tm, rows. repeat (split; [assumption |]). lia.
Qed.

Lemma pong_scenario_valid : pong_valid pong_scenario.
Proof. unfold pong_valid, pong_scenario; simpl. repeat split; try lra; lia. Qed.

Lemma curvy_scenario_valid : curvy_valid curvy_scenario.
Proof. unfold curvy_valid, curvy_scenario; simpl. repeat split; try lra; lia. Qed.

Lemma pong_periods_and_sample_count_witness :
  pong_valid pong_scenario /\ curvy_valid curvy_scenario /\
  ((exists x_numvert y_numvert tm data,
     (exists fuel0, forall fuel, (fuel0 <= fuel)%nat ->
        PongVertices.numvert fuel (Pong.width pong_scenario) (Pong.height pong_scenario)
                             (Pong.spacing pong_scenario) = Ok (x_numvert, y_numvert)
        /\ Pong.one_period fuel pong_scenario = Ok (tm, data))
     /\ vavg tm = Pong.velocity pong_scenario / sqrt 2
     /\ period_formulas tm x_numvert y_numvert (sqrt 2 * Pong.spacing pong_scenario)
                         (SkyPattern.sample_interval (Pong.repeat pong_scenario))
     /\ Z.of_nat (length data) = pongcount tm)
  /\
  (exists x_numvert y_numvert tm rows,
     (exists fuel0, forall fuel, (fuel0 <= fuel)%nat ->
        PongVertices.numvert fuel (CurvyPong.width curvy_scenario)
                             (CurvyPong.height curvy_scenario)
                             (CurvyPong.spacing curvy_scenario) = Ok (x_numvert, y_numvert)
        /\ CurvyPong._generate_scan fuel curvy_scenario = Ok (tm, rows))
     /\ vavg tm = CurvyPong.velocity curvy_scenario
     /\ period_formulas tm x_numvert y_numvert (sqrt 2 * CurvyPong.spacing curvy_scenario)
                         (CurvyPong.sample_interval curvy_scenario)
     /\ Z.of_nat (length rows) = pongcount tm)).
Proof.
  split; [exact pong_scenario_valid |].
  split; [exact curvy_scenario_valid |].
  apply (pong_periods_and_sample_count pong_scenario curvy_scenario).
  - unfold pong_valid, pong_scenario; simpl. repeat split; try lra; lia.
  - unfold curvy_valid, curvy_scenario; simpl. repeat split; try lra; lia.
Defined.

(** C1 as stated fails on the Pong generator of [coordinates.py]: in the
    end-to-end scenario, a valid input, [vavg] is not the input velocity. *)
Lemma pong_vavg_is_not_velocity :
  pong_valid pong_scenario /\
  exists fuel tm data,
    Pong.one_period fuel pong_scenario = Ok (tm, data)
    /\ vavg tm <> Pong.velocity pong_scenario.
Proof.
  split; [exact pong_scenario_valid |].
  destruct pong_scenario_valid as (Hw & Hh & Hs & Hv & _ & Hsi).
  destruct (pong_one_period_spec pong_scenario Hw Hh Hs Hv Hsi)
    as (x & y & tm & data & [fuel0 Hrun] & Hva & _).
  exists fuel0, tm, data. split; [apply (Hrun fuel0); lia |].
  rewrite Hva. simpl. intros E.
  pose proof sqrt2_pos. pose proof sqrt2_neq_1 as N. apply N.
  apply (Rmult_eq_compat_r (sqrt 2)) in E.
  unfold Rdiv in E. rewrite Rmult_assoc, Rinv_l in E by lra. lra.
Qed.

(** ** SkyPattern: tiling *)

Section Tiling.
Import SkyPattern.

Lemma set_time_offsets_length data : forall col,
  length col = length data -> length (set_time_offsets data col) = length data.
Proof.
  induction data as [| s data IH]; intros [| t col]; simpl; intros; try lia.
  f_equal. apply IH. lia.
Qed.

Lemma set_set data : forall col' col,
  length col' = length data ->
  set_time_offsets (set_time_offsets data col') col = set_time_offsets data col.
Proof.
  induction data as [| s data IH]; intros [| t' col'] [| t col]; simpl; intros;
    try lia; try reflexivity.
  f_equal. apply IH. lia.
Qed.

Lemma set_shift data d :
  set_time_offsets data (map (fun t => t + d) (time_offsets data)) = shifted d data.
Proof.
  induction data as [| s data IH]; simpl; [reflexivity |].
  f_equal. exact IH.
Qed.

Lemma shifted_0 data : shifted 0 data = data.
Proof.
  unfold shifted. rewrite <- (map_id data) at 2. apply map_ext.
  intros [t x y]. simpl. f_equal. lra.
Qed.

Lemma shifted_length d data : length (shifted d data) = length data.
Proof. apply length_map. Qed.

(** The tiling loop appends one shifted copy per index. *)
Lemma repeat_loop data one (l : list Z) : forall data_temp acc,
  (exists col, length col = length data /\ data_temp = set_time_offsets data col) ->
  exists data_temp',
    for_each l (data_temp, acc) (repeat_body (time_offsets data) one)
    = Ok (data_temp', acc ++ flat_map (fun k => shifted (one * IZR k) data) l).
Proof.
  induction l as [| i l IH]; intros data_temp acc Hinv.
  - exists data_temp. simpl. now rewrite app_nil_r.
  - cbn [for_each]. unfold repeat_body at 1. cbn [bind].
    destruct Hinv as (col & Hlen & ->).
    rewrite set_set by assumption. rewrite set_shift.
    destruct (IH (shifted (one * IZR i) data) (acc ++ shifted (one * IZR i) data))
      as (dt' & E).
    { exists (map (fun t => t + one * IZR i) (time_offsets data)).
      split; [unfold time_offsets; now rewrite !length_map |].
      symmetry. apply set_shift. }
    exists dt'. cbn [flat_map]. rewrite app_assoc. exact E.
Qed.

Lemma set_self data : data = set_time_offsets data (time_offsets data).
Proof.
  induction data as [| [t x y] data IH]; simpl; [reflexivity |].
  f_equal. exact IH.
Qed.

Lemma range_S n : (0 <= n)%Z -> range (n + 1) = range n ++ [n].
Proof.
  intros H. unfold range, range3.
  replace ((n + 1 - 0 + 1 - 1) / 1)%Z with (n + 1)%Z by (rewrite Z.div_1_r; lia).
  replace ((n - 0 + 1 - 1) / 1)%Z with n by (rewrite Z.div_1_r; lia).
  rewrite Z2Nat.inj_add by lia. change (Z.to_nat 1) with 1%nat.
  rewrite seq_app, map_app. simpl. f_equal. f_equal. lia.
Qed.

Lemma range_cons n : (1 <= n)%Z -> range n = 0%Z :: range2 1 n.
Proof.
  intros H. unfold range, range2, range3.
  replace ((n - 0 + 1 - 1) / 1)%Z with n by (rewrite Z.div_1_r; lia).
  replace ((n - 1 + 1 - 1) / 1)%Z with (n - 1)%Z by (rewrite Z.div_1_r; lia).
  replace (Z.to_nat n) with (S (Z.to_nat (n - 1))) by lia.
  cbn [seq map]. f_equal. rewrite seq_shift_map. apply map_ext. intros k. lia.
Qed.

(** With an integer [num_repeat >= 1], [_repeat_scan] returns the copies in a
    row and leaves [self.param] alone. *)
Lemma repeat_scan_count p data s0 n :
  num_repeat p = count n -> (1 <= n)%Z ->
  _repeat_scan p (s0 :: data) =
    Ok (p, tiled (time_offset (last data s0) + sample_interval p) n (s0 :: data)).
Proof.
  intros Hn Hge. unfold _repeat_scan. cbn [last_time_offset bind]. rewrite Hn.
  cbn [bind]. unfold tiled. rewrite (range_cons n Hge). cbn [flat_map].
  rewrite Rmult_0_r, shifted_0.
  destruct (Z.gtb_spec n 1) as [Hgt | Hle].
  - destruct (repeat_loop (s0 :: data) (time_offset (last data s0) + sample_interval p)
                (range2 1 n) (s0 :: data) (s0 :: data)) as (dt' & E).
    { exists (time_offsets (s0 :: data)). split; [apply length_map | apply set_self]. }
    rewrite E. reflexivity.
  - assert (n = 1%Z) as -> by lia.
    unfold range2, range3. simpl. now rewrite app_nil_r.
Qed.

Lemma flat_map_length_const {A B : Type} (f : A -> list B) (l : list A) m :
  (forall a, length (f a) = m) -> length (flat_map f l) = (length l * m)%nat.
Proof.
  intros H. induction l as [| a l IH]; simpl; [reflexivity |].
  rewrite length_app, H, IH. reflexivity.
Qed.

Lemma tiled_length one n data :
  length (tiled one n data) = (Z.to_nat n * length data)%nat.
Proof.
  unfold tiled. rewrite flat_map_length_const with (m := length data).
  - now rewrite range_length.
  - intros a. apply shifted_length.
Qed.

Lemma tiled_S one n data :
  (0 <= n)%Z -> tiled one (n + 1) data = tiled one n data ++ shifted (one * IZR n) data.
Proof.
  intros H. unfold tiled. rewrite range_S by assumption.
  rewrite flat_map_app. simpl. now rewrite app_nil_r.
Qed.

Lemma time_offsets_shifted d data :
  time_offsets (shifted d data) = map (fun t => t + d) (time_offsets data).
Proof. unfold time_offsets, shifted. rewrite !map_map. reflexivity. Qed.

Lemma map_seq_from {B : Type} (f : nat -> B) len : forall a,
  map f (seq a len) = map (fun k => f (a + k)%nat) (seq 0 len).
Proof.
  induction len as [| len IH]; intros a; [reflexivity |].
  cbn [seq map]. rewrite Nat.add_0_r. f_equal.
  rewrite IH, seq_shift_map. apply map_ext. intros k. f_equal. lia.
Qed.

Lemma uniform_times_app h a b :
  uniform_times h (a + b) =
  uniform_times h a ++ map (fun k => INR k * h + INR a * h) (seq 0 b).
Proof.
  unfold uniform_times. rewrite seq_app, map_app. f_equal.
  simpl. rewrite map_seq_from. apply map_ext. intros k. rewrite plus_INR. lra.
Qed.

Lemma uniform_times_nth h n i :
  (i < n)%nat -> nth i (uniform_times h n) 0 = INR i * h.
Proof.
  intros H. unfold uniform_times.
  rewrite nth_indep with (d' := INR 0 * h) by now rewrite length_map, length_seq.
  rewrite (map_nth (fun k => INR k * h)), seq_nth by assumption. reflexivity.
Qed.

Lemma uniform_times_steps h n : steps_are h (uniform_times h n).
Proof.
  intros i Hi. rewrite uniform_times_length in Hi.
  rewrite !uniform_times_nth by lia. rewrite S_INR. lra.
Qed.

Lemma uniform_times_last h n :
  last (uniform_times h (S n)) 0 = INR n * h.
Proof.
  unfold uniform_times. rewrite seq_S, map_app. simpl. apply last_last.
Qed.

Lemma last_cons_default {A : Type} (l : list A) : forall a d,
  last (a :: l) d = last l a.
Proof.
  induction l as [| b l IH]; intros a d; [reflexivity |].
  change (last (a :: b :: l) d) with (last (b :: l) d).
  now rewrite !IH.
Qed.

Lemma last_map_default {A B : Type} (f : A -> B) (l : list A) : forall d,
  last (map f l) (f d) = f (last l d).
Proof.
  induction l as [| a l IH]; intros d; [reflexivity |].
  cbn [map]. rewrite !last_cons_default. apply IH.
Qed.

Lemma last_time_offset_spec s0 data :
  time_offset (last data s0) = last (time_offsets (s0 :: data)) 0.
Proof.
  unfold time_offsets. cbn [map]. rewrite last_cons_default.
  symmetry. apply last_map_default.
Qed.

(** Copies of a trajectory sampled at [0, h, 2h, ...], each shifted by one
    period more, are sampled at [0, h, 2h, ...] throughout. *)
Lemma tiled_uniform h len data (m : nat) :
  time_offsets data = uniform_times h len ->
  time_offsets (tiled (INR len * h) (Z.of_nat m) data) = uniform_times h (m * len).
Proof.
  intros Hd. induction m as [| m IH]; [reflexivity |].
  rewrite Nat2Z.inj_succ. unfold Z.succ. rewrite tiled_S by lia.
  unfold time_offsets at 1. rewrite map_app. fold (time_offsets (tiled (INR len * h) (Z.of_nat m) data)).
  fold (time_offsets (shifted (INR len * h * IZR (Z.of_nat m)) data)).
  rewrite IH, time_offsets_shifted, Hd.
  replace (S m * len)%nat with (m * len + len)%nat by lia.
  rewrite uniform_times_app. f_equal.
  unfold uniform_times. rewrite map_map. apply map_ext. intros k.
  rewrite <- INR_IZR_INZ, mult_INR. lra.
Qed.

End Tiling.

(** C5, as amended.  For a one-period trajectory sampled at
    [0, h, 2h, ...] with [h] the sample interval, and [num_repeat >= 1], the
    repeated trajectory is [num_repeat] copies in a row, copy [k] shifted by
    [one_period_duration * k] with
    [one_period_duration = last_time_offset + sample_interval]; its length is
    the base length times [num_repeat]; and its time offsets are again
    [0, h, 2h, ...]: strictly increasing by the constant step [h] across
    every repeat boundary.  (A base that does not start at time 0 breaks the
    constant step at the boundary.) *)
Theorem repeat_scan_tiles (p : SkyPattern.param) (data : DataFrame) (n : Z) :
  SkyPattern.num_repeat p = count n -> (1 <= n)%Z ->
  0 < SkyPattern.sample_interval p ->
  data <> [] ->
  SkyPattern.time_offsets data =
    uniform_times (SkyPattern.sample_interval p) (length data) ->
  exists last r,
    SkyPattern.last_time_offset data = Ok last
    /\ SkyPattern._repeat_scan p data = Ok (p, r)
    /\ r = tiled (last + SkyPattern.sample_interval p) n data
    /\ length r = (length data * Z.to_nat n)%nat
    /\ SkyPattern.time_offsets r =
         uniform_times (SkyPattern.sample_interval p) (length r)
    /\ steps_are (SkyPattern.sample_interval p) (SkyPattern.time_offsets r).
Proof.
  intros Hn Hge Hh Hne Hu.
  destruct data as [| s0 data]; [contradiction |].
  set (h := SkyPattern.sample_interval p) in *.
  exists (time_offset (last data s0)), (tiled (time_offset (last data s0) + h) n (s0 :: data)).
  assert (Elast : time_offset (last data s0) + h = INR (length (s0 :: data)) * h).
  { rewrite last_time_offset_spec, Hu. cbn [length].
    rewrite uniform_times_last, S_INR. lra. }
  assert (Et : SkyPattern.time_offsets (tiled (time_offset (last data s0) + h) n (s0 :: data))
               = uniform_times h (Z.to_nat n * length (s0 :: data))).
  { rewrite Elast. rewrite <- (Z2Nat.id n) at 1 by lia. now apply tiled_uniform. }
  split; [reflexivity |].
  split; [now apply repeat_scan_count |].
  split; [reflexivity |].
  rewrite tiled_length.
  split; [lia |].
  split; [exact Et |].
  rewrite Et. apply uniform_times_steps.
Qed.

Lemma repeat_scan_tiles_witness :
  exists last r,
    SkyPattern.last_time_offset [mkSample 0 0 0; mkSample 1 5 7] = Ok last
    /\ SkyPattern._repeat_scan (SkyPattern.mkParam (count 3) None 1)
                                [mkSample 0 0 0; mkSample 1 5 7]
        = Ok (SkyPattern.mkParam (count 3) None 1, r)
    /\ r = tiled (last + 1) 3 [mkSample 0 0 0; mkSample 1 5 7]
    /\ length r = (2 * Z.to_nat 3)%nat
    /\ SkyPattern.time_offsets r = uniform_times 1 (length r)
    /\ steps_are 1 (SkyPattern.time_offsets r).
Proof.
  apply (repeat_scan_tiles (SkyPattern.mkParam (count 3) None 1)
           [mkSample 0 0 0; mkSample 1 5 7] 3).
  - reflexivity.
  - lia.
  - simpl. lra.
  - discriminate.
  - simpl. unfold uniform_times. simpl. repeat f_equal; lra.
Defined.

(** C5 as stated fails for a uniformly sampled trajectory that starts at
    time 1: the two copies are 1, 2, 3 and 5, 6, 7, and the step across the
    repeat boundary is 2. *)
Lemma repeat_scan_skips_at_boundary :
  steps_are (SkyPattern.sample_interval late_param) (SkyPattern.time_offsets late_base)
  /\ exists r,
       SkyPattern._repeat_scan late_param late_base = Ok (late_param, r)
       /\ SkyPattern.time_offsets r = [1; 2; 3; 5; 6; 7]
       /\ ~ exists h, steps_are h (SkyPattern.time_offsets r).
Proof.
  split.
  - intros i Hi. simpl in Hi.
    destruct i as [| [| i]]; simpl; try lra; lia.
  - eexists. split; [apply repeat_scan_count; [reflexivity | lia] |].
    assert (E : SkyPattern.time_offsets
                  (tiled (time_offset (last (tl late_base) (mkSample 1 0 0))
                          + SkyPattern.sample_interval late_param) 2 late_base)
                = [1; 2; 3; 5; 6; 7]).
    { unfold tiled, range, range3, shifted, late_base, late_param. simpl.
      repeat f_equal; lra. }
    split; [exact E |].
    unfold late_base in *. simpl tl in E. rewrite E.
    intros [h Hs].
    pose proof (Hs 0%nat ltac:(simpl; lia)) as H0.
    pose proof (Hs 2%nat ltac:(simpl; lia)) as H2.
    simpl in H0, H2. lra.
Qed.

(** ** Outcomes that cannot be a given exception *)

Lemma bind_no_raise {A B : Type} (m : outcome A) (k : A -> outcome B) e :
  m <> Raise e -> (forall a, k a <> Raise e) -> bind m k <> Raise e.
Proof.
  intros Hm Hk. destruct m as [a | e' |]; simpl; [apply Hk | | discriminate].
  intros E. apply Hm. inversion E. reflexivity.
Qed.

Lemma for_each_no_raise {A S : Type} (body : A -> S -> outcome S) e (l : list A) :
  (forall a s, body a s <> Raise e) -> forall s, for_each l s body <> Raise e.
Proof.
  intros Hb. induction l as [| a l IH]; intros s; simpl; [discriminate |].
  apply bind_no_raise; [apply Hb | exact IH].
Qed.

Lemma pydiv_no_raise a b s s' : s <> s' -> pydiv a b s <> Raise (ZeroDivisionError s').
Proof.
  intros Hs. unfold pydiv. destruct (Reqb b 0); [| discriminate].
  intros E. inversion E. contradiction.
Qed.

Lemma pysqrt_no_div a s : pysqrt a <> Raise (ZeroDivisionError s).
Proof. unfold pysqrt. destruct (Rltb a 0); discriminate. Qed.

(** ** Daisy: the integration step *)

Section DaisySteps.
Import DaisyStep.

Variable c : consts.

Lemma curve_ok st speed Nx Ny :
  Rt c <> 0 -> exists st', curve c st speed Nx Ny = Ok st'.
Proof.
  intros H. unfold curve.
  repeat (rewrite pydiv_ok by assumption; cbn [bind]).
  eexists. reflexivity.
Qed.

Lemma curve_no_div_r st speed Nx Ny :
  curve c st speed Nx Ny <> Raise (ZeroDivisionError "r").
Proof.
  unfold curve.
  repeat (apply bind_no_raise; [apply pydiv_no_raise; discriminate | intros ?]).
  discriminate.
Qed.

Lemma radius_nonneg st : 0 <= x st * x st + y st * y st.
Proof. nra. Qed.

(** Inside [R0] the step is the straight one. *)
Lemma step_inside st :
  sqrt (x st * x st + y st * y st) < R0 c ->
  step c st = Ok (straight c st (ramp c (speed st))).
Proof.
  intros H. unfold step. rewrite pysqrt_ok by apply radius_nonneg.
  cbn [bind]. now rewrite Rltb_true.
Qed.

(** A division by [r] is evaluated only with [R0 <= r]. *)
Lemma step_div_r_guard st :
  step c st = Raise (ZeroDivisionError "r") ->
  R0 c <= sqrt (x st * x st + y st * y st) /\ sqrt (x st * x st + y st * y st) = 0.
Proof.
  unfold step. rewrite pysqrt_ok by apply radius_nonneg. cbn [bind].
  set (r := sqrt (x st * x st + y st * y st)).
  unfold Rltb at 1. destruct (Rlt_dec r (R0 c)) as [Hlt | Hge]; [discriminate |].
  intros E. split; [lra |].
  destruct (Req_dec_T r 0) as [Hz | Hnz]; [exact Hz | exfalso].
  revert E. repeat (rewrite pydiv_ok by assumption; cbn [bind]).
  apply bind_no_raise; [apply pysqrt_no_div | intros lim].
  destruct (Rgtb _ lim); [discriminate |].
  destruct (Rgtb _ 0); apply curve_no_div_r.
Qed.

Lemma step_no_div_r st :
  0 < R0 c -> step c st <> Raise (ZeroDivisionError "r").
Proof.
  intros H0 E. apply step_div_r_guard in E. lra.
Qed.

(** At the origin the step is the straight one: the heading stays. *)
Lemma step_at_origin st :
  0 < R0 c -> x st = 0 -> y st = 0 ->
  step c st = Ok (straight c st (ramp c (speed st))).
Proof.
  intros H0 Hx Hy. apply step_inside.
  rewrite Hx, Hy, Rmult_0_l, Rplus_0_l, sqrt_0. exact H0.
Qed.

(** With a positive [R0], a non-zero [Rt] and [|Ra| <= R0], every step
    returns. *)
Lemma step_ok st :
  0 < R0 c -> Rt c <> 0 -> Ra c * Ra c <= R0 c * R0 c ->
  exists st', step c st = Ok st'.
Proof.
  intros H0 Ht Ha. unfold step. rewrite pysqrt_ok by apply radius_nonneg.
  cbn [bind]. set (r := sqrt (x st * x st + y st * y st)).
  unfold Rltb at 1. destruct (Rlt_dec r (R0 c)) as [Hlt | Hge];
    [eexists; reflexivity |].
  assert (Hr : 0 < r) by lra.
  repeat (rewrite pydiv_ok by lra; cbn [bind]).
  assert (Hq : Ra c * Ra c / r / r <= 1).
  { unfold Rdiv. rewrite Rmult_assoc, <- Rinv_mult.
    apply Rmult_le_reg_r with (r * r); [nra |].
    rewrite Rmult_assoc, Rinv_l by nra. nra. }
  rewrite pysqrt_ok by lra. cbn [bind].
  destruct (Rgtb _ (sqrt _)); [eexists; reflexivity |].
  destruct (Rgtb _ 0); now apply curve_ok.
Qed.

End DaisySteps.

(** ** Daisy: whole runs *)

Section DaisyRuns.

Variable p : Daisy.param.

Lemma daisy_loop_no_div_r l s :
  0 < Daisy.R0 p ->
  for_each l s (Daisy.body (Daisy.consts_of p)) <> Raise (ZeroDivisionError "r").
Proof.
  intros H0. apply for_each_no_raise. intros a [[st xs] ys]. unfold Daisy.body.
  apply bind_no_raise; [| discriminate].
  apply step_no_div_r. simpl. unfold Daisy.arcsec. lra.
Qed.

Lemma scan_daisy_loop_no_div_r l s :
  0 < Daisy.R0 p ->
  for_each l s (ScanDaisy.body (Daisy.consts_of p)) <> Raise (ZeroDivisionError "r").
Proof.
  intros H0. apply for_each_no_raise. intros a [st [[[xs ys] vxs] vys]].
  unfold ScanDaisy.body.
  apply bind_no_raise; [| discriminate].
  apply step_no_div_r. simpl. unfold Daisy.arcsec. lra.
Qed.

Hypothesis HR0 : 0 < Daisy.R0 p.
Hypothesis HRt : Daisy.Rt p <> 0.
Hypothesis HRa : Daisy.Ra p * Daisy.Ra p <= Daisy.R0 p * Daisy.R0 p.

Lemma consts_ok :
  0 < DaisyStep.R0 (Daisy.consts_of p)
  /\ DaisyStep.Rt (Daisy.consts_of p) <> 0
  /\ DaisyStep.Ra (Daisy.consts_of p) * DaisyStep.Ra (Daisy.consts_of p)
      <= DaisyStep.R0 (Daisy.consts_of p) * DaisyStep.R0 (Daisy.consts_of p).
Proof. simpl. unfold Daisy.arcsec. repeat split; nra. Qed.

(** Every iteration stores one position. *)
Lemma daisy_loop_ok (l : list Z) : forall st xs ys,
  exists st' xs' ys',
    for_each l (st, xs, ys) (Daisy.body (Daisy.consts_of p)) = Ok (st', xs', ys')
    /\ length xs' = (length xs + length l)%nat
    /\ length ys' = (length ys + length l)%nat.
Proof.
  destruct consts_ok as (H0 & Ht & Ha).
  induction l as [| i l IH]; intros st xs ys.
  - exists st, xs, ys. simpl. repeat split; lia.
  - destruct (step_ok _ st H0 Ht Ha) as [st1 E1].
    cbn [for_each]. unfold Daisy.body at 1. rewrite E1. cbn [bind].
    destruct (IH st1 (xs ++ [DaisyStep.x st1]) (ys ++ [DaisyStep.y st1]))
      as (st' & xs' & ys' & E & Hx & Hy).
    exists st', xs', ys'. split; [exact E |].
    rewrite Hx, Hy, !length_app. simpl. lia.
Qed.

Lemma np_arange_spec stop step :
  np_arange stop step = uniform_times step (Z.to_nat (pyceil (stop / step))).
Proof.
  unfold np_arange, uniform_times. apply map_ext. intros k. lra.
Qed.

Hypothesis Hdt : 0 < Daisy.sample_interval p.
Hypothesis HT : 0 < Daisy.T p.

Lemma daisy_steps_spec :
  Daisy.steps p = Ok (pyfloor (Daisy.T p / Daisy.sample_interval p))
  /\ (0 <= pyfloor (Daisy.T p / Daisy.sample_interval p))%Z.
Proof.
  assert (Hq : 0 < Daisy.T p / Daisy.sample_interval p) by positive.
  unfold Daisy.steps. rewrite pydiv_ok by lra. cbn [bind].
  unfold pyint. rewrite Rleb_true by lra. split; [reflexivity |].
  unfold pyfloor. apply Zfloor_lub. simpl. lra.
Qed.

(** The generator returns exactly when the duration is a whole number of
    sample intervals; otherwise the time column is one entry longer than the
    position columns and the DataFrame is refused. *)
Lemma daisy_generate_scan_spec :
  let N := pyfloor (Daisy.T p / Daisy.sample_interval p) in
  let M := pyceil (Daisy.T p / Daisy.sample_interval p) in
  (N = M ->
   exists data, Daisy._generate_scan p = Ok data
     /\ length data = Z.to_nat N
     /\ SkyPattern.time_offsets data = uniform_times (Daisy.sample_interval p) (Z.to_nat N))
  /\ (N <> M ->
      Daisy._generate_scan p = Raise (ValueError "All arrays must be of the same length")).
Proof.
  intros N M. destruct daisy_steps_spec as [Es HN]. fold N in Es, HN.
  destruct (daisy_loop_ok (range N) (DaisyStep.init (Daisy.arcsec (Daisy.y_offset p))) [] [])
    as (st' & xs & ys & Eloop & Hxs & Hys).
  rewrite range_length in Hxs, Hys. simpl in Hxs, Hys.
  assert (HM : (N <= M)%Z).
  { pose proof (Zfloor_bound (Daisy.T p / Daisy.sample_interval p)) as [Hf _].
    pose proof (Zceil_bound (Daisy.T p / Daisy.sample_interval p)) as [_ Hc].
    apply le_IZR. unfold N, M, pyfloor, pyceil. lra. }
  assert (Erun : Daisy._generate_scan p =
                 pd_DataFrame (np_arange (Daisy.T p) (Daisy.sample_interval p))
                              (map (fun v => v / 3600) xs) (map (fun v => v / 3600) ys)).
  { unfold Daisy._generate_scan. rewrite Es. cbn [bind].
    unfold np_empty. replace (N <? 0)%Z with false by (symmetry; apply Z.ltb_ge; lia).
    cbn [bind]. rewrite Eloop. reflexivity. }
  rewrite Erun, np_arange_spec. fold M. split; intros HNM.
  - rewrite <- HNM.
    rewrite pd_DataFrame_ok by (rewrite ?uniform_times_length, ?length_map; lia).
    eexists. split; [reflexivity |]. split.
    + rewrite zip_columns_length; rewrite ?uniform_times_length, ?length_map; lia.
    + unfold SkyPattern.time_offsets.
      rewrite zip_columns_time; rewrite ?uniform_times_length, ?length_map; auto; lia.
  - apply pd_DataFrame_mismatch. rewrite uniform_times_length, length_map. lia.
Qed.

End DaisyRuns.

Lemma daisy_generate_no_div_r (p : Daisy.param) :
  0 < Daisy.R0 p -> Daisy._generate_scan p <> Raise (ZeroDivisionError "r").
Proof.
  intros H0. unfold Daisy._generate_scan, Daisy.steps.
  apply bind_no_raise.
  { apply bind_no_raise; [apply pydiv_no_raise; discriminate | discriminate]. }
  intros N. apply bind_no_raise.
  { unfold np_empty. destruct (N <? 0)%Z; discriminate. }
  intros _. apply bind_no_raise; [now apply daisy_loop_no_div_r |].
  intros [[st xs] ys]. unfold pd_DataFrame. destruct (_ && _); discriminate.
Qed.

Lemma item_no_div a i s : ScanPattern.item a i <> Raise (ZeroDivisionError s).
Proof. unfold ScanPattern.item. destruct (_ || _)%Z; discriminate. Qed.

Lemma central_diff_no_div h a s :
  ScanPattern._central_diff h a <> Raise (ZeroDivisionError s).
Proof.
  unfold ScanPattern._central_diff.
  repeat (apply bind_no_raise; [apply item_no_div | intros ?]).
  apply bind_no_raise.
  { apply for_each_no_raise. intros i acc.
    repeat (apply bind_no_raise; [apply item_no_div | intros ?]). discriminate. }
  intros new_a.
  repeat (apply bind_no_raise; [apply item_no_div | intros ?]). discriminate.
Qed.

Lemma scan_daisy_generate_no_div_r (p : Daisy.param) :
  0 < Daisy.R0 p -> ScanDaisy._generate_scan p <> Raise (ZeroDivisionError "r").
Proof.
  intros H0. unfold ScanDaisy._generate_scan, Daisy.steps.
  apply bind_no_raise.
  { apply bind_no_raise; [apply pydiv_no_raise; discriminate | discriminate]. }
  intros N. apply bind_no_raise.
  { unfold np_empty. destruct (N <? 0)%Z; discriminate. }
  intros _. apply bind_no_raise; [now apply scan_daisy_loop_no_div_r |].
  intros [st [[[xs ys] vxs] vys]].
  repeat (apply bind_no_raise; [apply central_diff_no_div | intros ?]).
  unfold ScanPattern.pd_DataFrame. destruct (forallb _ _); discriminate.
Qed.

(** C10.  With [R0 > 0], a step inside [R0] is the straight one and
    evaluates no division; a division by [r] can only raise on a step with
    [R0 <= r], so no step and no run of either Daisy generator raises a
    division by zero on [r]; and a step at the origin is the straight one,
    which leaves the heading [(vx, vy)] as it was. *)
Theorem daisy_radial_division_guarded (p : Daisy.param) :
  0 < Daisy.R0 p ->
  let c := Daisy.consts_of p in
  (forall st,
     sqrt (DaisyStep.x st * DaisyStep.x st + DaisyStep.y st * DaisyStep.y st)
       < DaisyStep.R0 c ->
     DaisyStep.step c st = Ok (DaisyStep.straight c st (DaisyStep.ramp c (DaisyStep.speed st))))
  /\ (forall c' st, DaisyStep.step c' st = Raise (ZeroDivisionError "r") ->
        DaisyStep.R0 c'
          <= sqrt (DaisyStep.x st * DaisyStep.x st + DaisyStep.y st * DaisyStep.y st))
  /\ (forall st, DaisyStep.step c st <> Raise (ZeroDivisionError "r"))
  /\ Daisy._generate_scan p <> Raise (ZeroDivisionError "r")
  /\ ScanDaisy._generate_scan p <> Raise (ZeroDivisionError "r")
  /\ (forall st, DaisyStep.x st = 0 -> DaisyStep.y st = 0 ->
        exists st', DaisyStep.step c st = Ok st'
          /\ st' = DaisyStep.straight c st (DaisyStep.ramp c (DaisyStep.speed st))
          /\ DaisyStep.vx st' = DaisyStep.vx st
          /\ DaisyStep.vy st' = DaisyStep.vy st).
Proof.
  intros H0 c.
  assert (Hc : 0 < DaisyStep.R0 c) by (simpl; unfold Daisy.arcsec; lra).
  split; [intros st; apply step_inside |].
  split; [intros c' st E; now apply step_div_r_guard in E |].
  split; [intros st; now apply step_no_div_r |].
  split; [now apply daisy_generate_no_div_r |].
  split; [now apply scan_daisy_generate_no_div_r |].
  intros st Hx Hy. eexists. split; [now apply step_at_origin |].
  repeat split; reflexivity.
Qed.

Lemma daisy_radial_division_guarded_witness :
  0 < Daisy.R0 daisy_uneven /\
  let c := Daisy.consts_of daisy_uneven in
  (forall st,
     sqrt (DaisyStep.x st * DaisyStep.x st + DaisyStep.y st * DaisyStep.y st)
       < DaisyStep.R0 c ->
     DaisyStep.step c st = Ok (DaisyStep.straight c st (DaisyStep.ramp c (DaisyStep.speed st))))
  /\ (forall c' st, DaisyStep.step c' st = Raise (ZeroDivisionError "r") ->
        DaisyStep.R0 c'
          <= sqrt (DaisyStep.x st * DaisyStep.x st + DaisyStep.y st * DaisyStep.y st))
  /\ (forall st, DaisyStep.step c st <> Raise (ZeroDivisionError "r"))
  /\ Daisy._generate_scan daisy_uneven <> Raise (ZeroDivisionError "r")
  /\ ScanDaisy._generate_scan daisy_uneven <> Raise (ZeroDivisionError "r")
  /\ (forall st, DaisyStep.x st = 0 -> DaisyStep.y st = 0 ->
        exists st', DaisyStep.step c st = Ok st'
          /\ st' = DaisyStep.straight c st (DaisyStep.ramp c (DaisyStep.speed st))
          /\ DaisyStep.vx st' = DaisyStep.vx st
          /\ DaisyStep.vy st' = DaisyStep.vy st).
Proof.
  assert (H : 0 < Daisy.R0 daisy_uneven) by (simpl; lra).
  split; [exact H |].
  apply (daisy_radial_division_guarded daisy_uneven H).
Defined.

(** ** Daisy of [scanning.py]: differences and columns *)

Lemma item_ok a i :
  (0 <= i < Z.of_nat (length a))%Z -> ScanPattern.item a i = Ok (nth (Z.to_nat i) a 0).
Proof.
  intros H. unfold ScanPattern.item.
  replace (i <? 0)%Z with false by (symmetry; apply Z.ltb_ge; lia).
  replace ((i <? 0) || (Z.of_nat (length a) <=? i))%Z with false; [reflexivity |].
  symmetry. apply orb_false_iff. split; [apply Z.ltb_ge | apply Z.leb_gt]; lia.
Qed.

Lemma item_ok_neg a i :
  (- Z.of_nat (length a) <= i < 0)%Z ->
  ScanPattern.item a i = Ok (nth (Z.to_nat (i + Z.of_nat (length a))) a 0).
Proof.
  intros H. unfold ScanPattern.item.
  replace (i <? 0)%Z with true by (symmetry; apply Z.ltb_lt; lia).
  replace ((i + Z.of_nat (length a) <? 0)
           || (Z.of_nat (length a) <=? i + Z.of_nat (length a)))%Z with false;
    [reflexivity |].
  symmetry. apply orb_false_iff. split; [apply Z.ltb_ge | apply Z.leb_gt]; lia.
Qed.

Lemma range2_In a b i : In i (range2 a b) -> (a <= i < b)%Z.
Proof.
  unfold range2, range3. rewrite in_map_iff. intros (k & <- & Hk).
  apply in_seq in Hk. rewrite Z.div_1_r in Hk. lia.
Qed.

Lemma for_each_appending {A B : Type} (body : A -> list B -> outcome (list B)) (l : list A) :
  (forall i acc, In i l -> exists v, body i acc = Ok (acc ++ [v])) ->
  forall acc, exists r,
    for_each l acc body = Ok r /\ length r = (length acc + length l)%nat.
Proof.
  induction l as [| i l IH]; intros Hb acc.
  - exists acc. simpl. split; [reflexivity | lia].
  - destruct (Hb i acc (or_introl eq_refl)) as [v Ev].
    destruct (IH (fun j acc' Hj => Hb j acc' (or_intror Hj)) (acc ++ [v])) as (r & Er & Hr).
    exists r. cbn [for_each]. rewrite Ev. cbn [bind]. split; [exact Er |].
    rewrite Hr, length_app. simpl. lia.
Qed.

(** On an array of at least two entries the differences are computed, one
    per entry. *)
Lemma central_diff_ok h a :
  (2 <= length a)%nat ->
  exists r, ScanPattern._central_diff h a = Ok r /\ length r = length a.
Proof.
  intros Hlen. unfold ScanPattern._central_diff.
  rewrite !item_ok by lia. cbn [bind].
  match goal with
  | |- context [for_each ?l ?acc0 ?b] =>
      assert (Hb : forall i acc, In i l -> exists v, b i acc = Ok (acc ++ [v]));
      [| destruct (for_each_appending b l Hb acc0) as (r & Er & Hr)]
  end.
  { intros i acc Hi. apply range2_In in Hi.
    rewrite !item_ok by lia. cbn [bind]. eexists. reflexivity. }
  rewrite Er. cbn [bind]. rewrite !item_ok_neg by lia. cbn [bind].
  eexists. split; [reflexivity |].
  rewrite length_app, Hr, range2_length. simpl. lia.
Qed.

Section ScanDaisyRuns.

Variable p : Daisy.param.
Hypothesis HR0 : 0 < Daisy.R0 p.
Hypothesis HRt : Daisy.Rt p <> 0.
Hypothesis HRa : Daisy.Ra p * Daisy.Ra p <= Daisy.R0 p * Daisy.R0 p.
Hypothesis Hdt : 0 < Daisy.sample_interval p.
Hypothesis HT : 0 < Daisy.T p.

Lemma scan_daisy_loop_ok (l : list Z) : forall st xs ys vxs vys,
  exists st' xs' ys' vxs' vys',
    for_each l (st, (xs, ys, vxs, vys)) (ScanDaisy.body (Daisy.consts_of p))
    = Ok (st', (xs', ys', vxs', vys'))
    /\ length xs' = (length xs + length l)%nat
    /\ length ys' = (length ys + length l)%nat
    /\ length vxs' = (length vxs + length l)%nat
    /\ length vys' = (length vys + length l)%nat.
Proof.
  destruct (consts_ok p HR0 HRt HRa) as (H0 & Ht & Ha).
  induction l as [| i l IH]; intros st xs ys vxs vys.
  - exists st, xs, ys, vxs, vys. simpl. repeat split; lia.
  - destruct (step_ok _ st H0 Ht Ha) as [st1 E1].
    cbn [for_each]. unfold ScanDaisy.body at 1. rewrite E1. cbn [bind].
    match goal with
    | |- context [for_each l (st1, (?a, ?b, ?c, ?d)) _] =>
        destruct (IH st1 a b c d) as (st' & xs' & ys' & vxs' & vys' & E & Hx & Hy & Hvx & Hvy)
    end.
    exists st', xs', ys', vxs', vys'. split; [exact E |].
    rewrite Hx, Hy, Hvx, Hvy, !length_app. simpl. lia.
Qed.

(** With at least two steps, and a duration that is not a whole number of
    sample intervals, the generator of [scanning.py] raises as the one of
    [coordinates.py] does. *)
Lemma scan_daisy_generate_uneven :
  let N := pyfloor (Daisy.T p / Daisy.sample_interval p) in
  let M := pyceil (Daisy.T p / Daisy.sample_interval p) in
  (2 <= N)%Z -> N <> M ->
  ScanDaisy._generate_scan p = Raise (ValueError "All arrays must be of the same length").
Proof.
  intros N M HN2 HNM.
  destruct (daisy_steps_spec p Hdt HT) as [Es HN]. fold N in Es, HN.
  destruct (scan_daisy_loop_ok (range N) (DaisyStep.init (Daisy.arcsec (Daisy.y_offset p)))
              [] [] [] [])
    as (st' & xs & ys & vxs & vys & Eloop & Hxs & Hys & Hvxs & Hvys).
  rewrite range_length in Hxs, Hys, Hvxs, Hvys. simpl in Hxs, Hys, Hvxs, Hvys.
  unfold ScanDaisy._generate_scan. rewrite Es. cbn [bind].
  unfold np_empty. replace (N <? 0)%Z with false by (symmetry; apply Z.ltb_ge; lia).
  cbn [bind]. rewrite Eloop. cbn [bind].
  destruct (central_diff_ok (Daisy.sample_interval p) vxs ltac:(lia)) as (xa & Exa & Hxa).
  destruct (central_diff_ok (Daisy.sample_interval p) xa ltac:(lia)) as (xj & Exj & Hxj).
  destruct (central_diff_ok (Daisy.sample_interval p) vys ltac:(lia)) as (ya & Eya & Hya).
  destruct (central_diff_ok (Daisy.sample_interval p) ya ltac:(lia)) as (yj & Eyj & Hyj).
  rewrite Exa. cbn [bind]. rewrite Exj. cbn [bind].
  rewrite Eya. cbn [bind]. rewrite Eyj. cbn [bind].
  unfold ScanPattern.pd_DataFrame. cbn [forallb snd].
  rewrite np_arange_spec, uniform_times_length, length_map. fold M.
  replace (length xs =? Z.to_nat M)%nat with false; [reflexivity |].
  symmetry. apply Nat.eqb_neq.
  assert (HM : (N <= M)%Z).
  { pose proof (Zfloor_bound (Daisy.T p / Daisy.sample_interval p)) as [Hf _].
    pose proof (Zceil_bound (Daisy.T p / Daisy.sample_interval p)) as [_ Hc].
    apply le_IZR. unfold N, M, pyfloor, pyceil. lra. }
  lia.
Qed.

End ScanDaisyRuns.

(** ** Daisy: the uneven duration *)

Lemma uneven_quotient :
  pyfloor (Daisy.T daisy_uneven / Daisy.sample_interval daisy_uneven) = 3%Z
  /\ pyceil (Daisy.T daisy_uneven / Daisy.sample_interval daisy_uneven) = 4%Z.
Proof.
  simpl. split.
  - apply Zfloor_eq. lra.
  - apply Zceil_eq. lra.
Qed.

(** C8 at one second sampled every 0.3 s: the loop runs [N = 3] steps and
    stores 3 positions, the time column [np.arange(0, T, dt)] has 4 entries,
    and the generator raises instead of returning a trajectory. *)
Theorem daisy_uneven_duration_raises :
  Daisy.steps daisy_uneven = Ok 3%Z
  /\ length (np_arange (Daisy.T daisy_uneven) (Daisy.sample_interval daisy_uneven)) = 4%nat
  /\ Daisy._generate_scan daisy_uneven
     = Raise (ValueError "All arrays must be of the same length")
  /\ ScanDaisy._generate_scan daisy_uneven
     = Raise (ValueError "All arrays must be of the same length").
Proof.
  destruct uneven_quotient as [Ef Ec].
  assert (H0 : 0 < Daisy.R0 daisy_uneven) by (simpl; lra).
  assert (Ht : Daisy.Rt daisy_uneven <> 0) by (simpl; lra).
  assert (Ha : Daisy.Ra daisy_uneven * Daisy.Ra daisy_uneven
               <= Daisy.R0 daisy_uneven * Daisy.R0 daisy_uneven) by (simpl; lra).
  assert (Hdt : 0 < Daisy.sample_interval daisy_uneven) by (simpl; lra).
  assert (HT : 0 < Daisy.T daisy_uneven) by (simpl; lra).
  split; [| split; [| split]].
  - destruct (daisy_steps_spec daisy_uneven Hdt HT) as [E _]. now rewrite E, Ef.
  - rewrite np_arange_spec, uniform_times_length, Ec. reflexivity.
  - apply (daisy_generate_scan_spec daisy_uneven H0 Ht Ha Hdt HT). rewrite Ef, Ec. lia.
  - apply (scan_daisy_generate_uneven daisy_uneven H0 Ht Ha Hdt HT); rewrite Ef, ?Ec; lia.
Qed.

(** ** Repeat control *)

Section RepeatControl.
Import SkyPattern.

Lemma clean_param_both repeatable kw :
  present (kw_max_scan_duration kw) = true -> present (kw_num_repeat kw) = true ->
  is_ValueError (_clean_param repeatable kw).
Proof.
  intros Hm Hn. unfold _clean_param. rewrite Hm, Hn.
  destruct repeatable; eexists; reflexivity.
Qed.

Lemma clean_param_not_repeatable kw :
  present (kw_max_scan_duration kw) || present (kw_num_repeat kw) = true ->
  is_ValueError (_clean_param false kw).
Proof.
  intros H. unfold _clean_param. rewrite H. eexists; reflexivity.
Qed.

Lemma clean_param_duration kw m :
  kw_max_scan_duration kw = Some m -> kw_num_repeat kw = None ->
  _clean_param true kw = Ok (mkParam nan (Some m) (kw_sample_interval kw)).
Proof.
  intros Hm Hn. unfold _clean_param. rewrite Hm, Hn. reflexivity.
Qed.

(** With [max_scan_duration] pending, [_repeat_scan] takes
    [num_repeat = floor(max_scan_duration / one_scan_duration)], fails when
    that is below 1, and otherwise records it and tiles. *)
Lemma repeat_scan_duration si m s0 data :
  let one := time_offset (last data s0) + si in
  let n := pyfloor (m / one) in
  one <> 0 ->
  ((n < 1)%Z -> is_ValueError (_repeat_scan (mkParam nan (Some m) si) (s0 :: data)))
  /\ ((1 <= n)%Z ->
      _repeat_scan (mkParam nan (Some m) si) (s0 :: data)
      = Ok (mkParam (count n) None si, tiled one n (s0 :: data))).
Proof.
  intros one n Hone. unfold _repeat_scan.
  cbn [last_time_offset bind num_repeat max_scan_duration sample_interval].
  fold one. rewrite pydiv_ok by assumption. cbn [bind]. fold n.
  split; intros Hn.
  - replace (n <? 1)%Z with true by (symmetry; apply Z.ltb_lt; lia).
    eexists; reflexivity.
  - replace (n <? 1)%Z with false by (symmetry; apply Z.ltb_ge; lia).
    cbn [bind]. unfold tiled. rewrite (range_cons n Hn). cbn [flat_map].
    rewrite Rmult_0_r, shifted_0.
    destruct (Z.gtb_spec n 1) as [Hgt | Hle].
    + destruct (repeat_loop (s0 :: data) one (range2 1 n) (s0 :: data) (s0 :: data))
        as (dt' & E).
      { exists (time_offsets (s0 :: data)). split; [apply length_map | apply set_self]. }
      rewrite E. reflexivity.
    + assert (n = 1%Z) as -> by lia.
      unfold range2, range3. simpl. now rewrite app_nil_r.
Qed.

(** The constructor of [SkyPattern] and the one of [Pong] refuse both keys
    together; [SkyPattern] refuses either key when it is not repeatable. *)
Lemma skypattern_init_refuses data repeatable kw :
  (present (kw_max_scan_duration kw) = true /\ present (kw_num_repeat kw) = true)
  \/ (repeatable = false
      /\ present (kw_max_scan_duration kw) || present (kw_num_repeat kw) = true) ->
  is_ValueError (__init__ data repeatable kw).
Proof.
  intros H. unfold __init__.
  destruct (spread_ok _); [| eexists; reflexivity].
  match goal with
  | |- is_ValueError (bind ?m _) => assert (Hc : is_ValueError m)
  end.
  { destruct H as [[Hm Hn] | [-> Hp]].
    - now apply clean_param_both.
    - now apply clean_param_not_repeatable. }
  destruct Hc as [msg ->]. eexists; reflexivity.
Qed.

Lemma pong_init_refuses_both fuel kw :
  Pong.kw_max_scan_duration kw <> None -> Pong.kw_num_repeat kw <> None ->
  is_ValueError (Pong.__init__ fuel kw).
Proof.
  intros Hm Hn. unfold Pong.__init__, Pong._clean_param, _clean_param, Pong.repeatable.
  destruct (Pong.kw_max_scan_duration kw); [| contradiction].
  destruct (Pong.kw_num_repeat kw); [| contradiction].
  eexists; reflexivity.
Qed.

End RepeatControl.

(** C9 on Daisy, the pattern that is not repeatable: its [_clean_param]
    never reaches the check of [SkyPattern._clean_param], so a construction
    that asks for three repeats returns, with the one unrepeated trajectory,
    and the repeat keys change no outcome. *)
Theorem daisy_accepts_repeat_request :
  Daisy.repeatable = false
  /\ Daisy.kw_num_repeat daisy_repeat_kw = Some 3%Z
  /\ (exists p data, Daisy.__init__ daisy_repeat_kw = Ok (p, data) /\ length data = 2%nat)
  /\ (forall kw, Daisy.__init__ kw = Daisy.__init__ (without_repeat kw)).
Proof.
  split; [reflexivity |]. split; [reflexivity |]. split; [| intros kw; reflexivity].
  unfold Daisy.__init__. cbn [Daisy._clean_param bind].
  set (p := Daisy.mkParam _ _ _ _ _ _ _ _).
  assert (Ef : pyfloor (Daisy.T p / Daisy.sample_interval p) = 2%Z)
    by (simpl; apply Zfloor_eq; lra).
  assert (Ec : pyceil (Daisy.T p / Daisy.sample_interval p) = 2%Z)
    by (simpl; apply Zceil_eq; lra).
  destruct (daisy_generate_scan_spec p) as [Hok _]; try (simpl; lra).
  destruct Hok as (data & E & Hlen & _); [now rewrite Ef, Ec |].
  exists p, data. rewrite E. cbn [bind]. split; [reflexivity |].
  rewrite Hlen, Ef. reflexivity.
Qed.

(** ** Angle normalisation *)

Lemma pymod_bound a m : 0 < m -> 0 <= pymod a m < m.
Proof.
  intros Hm. unfold pymod.
  pose proof (Zfloor_bound (a / m)) as [Hl Hu].
  assert (E : a = m * (a / m)) by (field; lra).
  split.
  - assert (m * IZR (Zfloor (a / m)) <= m * (a / m)) by (apply Rmult_le_compat_l; lra).
    lra.
  - assert (m * (a / m) < m * (IZR (Zfloor (a / m)) + 1)) by (apply Rmult_lt_compat_l; lra).
    lra.
Qed.

Lemma pymod_congruent a : congruent_360 a (pymod a 360).
Proof.
  exists (- Zfloor (a / 360))%Z. unfold pymod. rewrite opp_IZR. lra.
Qed.

Lemma pymod_small a m : 0 <= a < m -> pymod a m = a.
Proof.
  intros [H0 Hm]. unfold pymod.
  rewrite (Zfloor_eq 0 (a / m)); [simpl; lra |].
  simpl. split.
  - apply Rmult_le_reg_r with m; [lra |]. unfold Rdiv.
    rewrite Rmult_assoc, Rinv_l by lra. lra.
  - apply Rmult_lt_reg_r with m; [lra |]. unfold Rdiv.
    rewrite Rmult_assoc, Rinv_l by lra. lra.
Qed.

(** [pymod] does not see whole multiples of the modulus. *)
Lemma pymod_add_turns a m (k : Z) : 0 < m -> pymod (a + m * IZR k) m = pymod a m.
Proof.
  intros Hm. unfold pymod.
  replace ((a + m * IZR k) / m) with (a / m + IZR k) by (field; lra).
  rewrite Zfloor_addz, plus_IZR. lra.
Qed.

Lemma norm_sample low a :
  congruent_360 a (pymod (a - low) 360 + low)
  /\ in_window low (pymod (a - low) 360 + low).
Proof.
  split.
  - destruct (pymod_congruent (a - low)) as [k E]. exists k. rewrite E. lra.
  - pose proof (pymod_bound (a - low) 360 ltac:(lra)). unfold in_window. lra.
Qed.

Lemma Forall2_map_r {A B : Type} (P : A -> B -> Prop) (f : A -> B) (l : list A) :
  (forall a, P a (f a)) -> Forall2 P l (map f l).
Proof.
  intros H. induction l as [| a l IH]; simpl; constructor; auto.
Qed.

(** C6, as amended.  For a non-empty azimuth series the normalised series
    is congruent to the input modulo 360 degrees, sample by sample, and lies
    in the one half-open window [[first % 360 - 180, first % 360 + 180)]:
    the window is anchored once, by the first sample reduced into
    [[0, 360)], and is [[first - 180, first + 180)] when the first sample
    lies in [[0, 360)]. *)
Theorem norm_angle_window (az0 : R) (az : list R) :
  exists out,
    TelescopePattern._norm_angle (az0 :: az) = Ok out
    /\ Forall2 (fun a o => congruent_360 a o /\ in_window (pymod az0 360 - 180) o)
               (az0 :: az) out
    /\ 0 <= pymod az0 360 < 360
    /\ congruent_360 az0 (pymod az0 360)
    /\ (0 <= az0 < 360 -> pymod az0 360 - 180 = az0 - 180).
Proof.
  eexists. split; [reflexivity |].
  split; [apply Forall2_map_r; intros a; apply norm_sample |].
  split; [apply pymod_bound; lra |].
  split; [apply pymod_congruent |].
  intros H. now rewrite pymod_small.
Qed.

Lemma pymod_400 : pymod 400 360 = 40.
Proof.
  unfold pymod. rewrite (Zfloor_eq 1); [simpl; lra | simpl; lra].
Qed.

(** C6 as stated fails for a series whose first sample is 400 degrees: the
    normalised sample is 40, outside [[400 - 180, 400 + 180)]. *)
Lemma norm_angle_first_sample_outside_window :
  TelescopePattern._norm_angle [400] = Ok [40]
  /\ ~ in_window (400 - 180) 40.
Proof.
  split.
  - unfold TelescopePattern._norm_angle. cbn [map]. rewrite pymod_400.
    replace (400 - (40 - 180)) with (180 + 360 * IZR 1) by (simpl; lra).
    rewrite pymod_add_turns by lra. rewrite pymod_small by lra.
    do 2 f_equal. lra.
  - unfold in_window. lra.
Qed.

(** ** Module to boresight: a failed solve *)

Lemma for_each_ok_each {A S : Type} (body : A -> S -> outcome S) (l : list A) :
  forall s s', for_each l s body = Ok s' ->
  forall a, In a l -> exists s1 s2, body a s1 = Ok s2.
Proof.
  induction l as [| b l IH]; intros s s' E a Ha; [contradiction |].
  cbn [for_each] in E. destruct (body b s) as [s1 | e |] eqn:Eb; try discriminate.
  destruct Ha as [-> | Ha]; [eauto |].
  cbn [bind] in E. eapply IH; eauto.
Qed.

Lemma In_enumerate_from {A : Type} (x : A) (l : list A) : forall start,
  In x l -> exists i, In (i, x) (combine (seq start (length l)) l).
Proof.
  induction l as [| a l IH]; intros start H; [contradiction |].
  destruct H as [-> | H].
  - exists start. left. reflexivity.
  - destruct (IH (S start) H) as [i Hi]. exists i. right. exact Hi.
Qed.

Lemma for_each_invariant {A S : Type} (P : S -> Prop) (body : A -> S -> outcome S)
  (l : list A) :
  (forall a s s', P s -> body a s = Ok s' -> P s') ->
  forall s s', P s -> for_each l s body = Ok s' -> P s'.
Proof.
  intros Hb. induction l as [| a l IH]; intros s s' Hs E.
  - inversion E. now subst.
  - cbn [for_each] in E. destruct (body a s) as [s1 | e |] eqn:Eb; try discriminate.
    cbn [bind] in E. eapply IH; [| exact E]. eapply Hb; eauto.
Qed.

Section FailedSolve.
Import TelescopePattern.

Variable root_scalar : (R -> R) -> R -> R -> R -> R -> outcome R.
Variables dist theta : R.

(** After a solve that raised [ValueError], the iteration itself raises: on
    the unbound [a0], or on the item assignment into the float. *)
Lemma solve_body_after_failure i a1 s :
  (exists msg, root_scalar (fun alt_0 => func dist theta alt_0 a1) (guess s)
                           (- PI / 2) (PI / 2) (/ 1000000) = Raise (ValueError msg)) ->
  solve_body root_scalar dist theta (i, a1) s =
    match a0 s with
    | None => Raise (UnboundLocalError "a0")
    | Some _ => Raise (TypeError "'float' object does not support item assignment")
    end.
Proof.
  intros [msg E]. unfold solve_body. rewrite E. cbn [bind TelescopePattern.a0 alt0].
  destruct (a0 s); reflexivity.
Qed.

(** The loop never ends with [alt0] rebound to the float. *)
Lemma solve_loop_keeps_array l s s' :
  (exists arr, alt0 s = array arr) ->
  for_each l s (solve_body root_scalar dist theta) = Ok s' ->
  exists arr, alt0 s' = array arr.
Proof.
  apply (for_each_invariant (fun s => exists arr, alt0 s = array arr)).
  clear s s'. intros [i a1] s s' _ E.
  unfold solve_body in E.
  destruct (root_scalar _ _ _ _ _) as [r | e |]; cbn [bind a0 alt0] in E.
  - destruct (alt0 s); [| discriminate]. inversion E. cbn [alt0]. eauto.
  - destruct e; try discriminate. cbn [bind a0 alt0] in E.
    destruct (a0 s); discriminate.
  - discriminate.
Qed.

End FailedSolve.

(** C2 on the code: whatever the solver, if the solve of one sample of the
    series raises [ValueError], the transform returns nothing: the handler
    rebinds [alt0] to the float [math.nan], and the store [alt0[i] = a0]
    that follows raises. *)
Theorem transform_to_boresight_aborts
  (root_scalar : (R -> R) -> R -> R -> R -> R -> outcome R)
  (az1 alt1 : list R) (dist theta a : R) :
  In a alt1 ->
  (forall guess, exists msg,
     root_scalar (fun alt_0 => TelescopePattern.func (radians dist) (radians theta)
                                 alt_0 (radians a))
                 guess (- PI / 2) (PI / 2) (/ 1000000) = Raise (ValueError msg)) ->
  forall out,
    TelescopePattern._transform_to_boresight root_scalar az1 alt1 dist theta <> Ok out.
Proof.
  intros Hin Hfail out. unfold TelescopePattern._transform_to_boresight.
  assert (Hin' : In (radians a) (map radians alt1)) by now apply in_map.
  destruct (map radians alt1) as [| g l] eqn:El; [contradiction |].
  cbn [bind].
  match goal with
  | |- bind ?m _ <> _ => destruct m as [s | e |] eqn:Eloop
  end; cbn [bind]; try discriminate.
  exfalso.
  destruct (In_enumerate_from _ _ 0%nat Hin') as [i Hi].
  destruct (for_each_ok_each _ _ _ _ Eloop (i, radians a) Hi) as (s1 & s2 & Eb).
  rewrite solve_body_after_failure in Eb by apply Hfail.
  destruct (TelescopePattern.a0 s1); discriminate.
Qed.

(** At the zenith a module one degree off the boresight has no bracketed
    root. *)
Lemma zenith_has_no_bracket guess :
  bracket_check_solver
    (fun alt_0 => TelescopePattern.func (radians 1) (radians 0) alt_0 (radians 90))
    guess (- PI / 2) (PI / 2) (/ 1000000)
  = Raise (ValueError "f(a) and f(b) must have different signs").
Proof.
  unfold bracket_check_solver, TelescopePattern.func.
  replace (radians 90) with (PI / 2) by (unfold radians; field).
  replace (radians 0) with 0 by (unfold radians; lra).
  replace (- PI / 2) with (- (PI / 2)) by lra.
  rewrite !Rplus_0_l, sin_neg, cos_neg, sin_PI2, cos_PI2.
  assert (Hd : 0 < radians 1 < PI).
  { unfold radians. pose proof PI_RGT_0. split; lra. }
  pose proof (sin_gt_0 _ (proj1 Hd) (proj2 Hd)) as Hs.
  pose proof (sin2_cos2 (radians 1)) as Hsc. unfold Rsqr in Hsc.
  unfold Rgtb. rewrite Rltb_true; [reflexivity |]. nra.
Qed.

Lemma transform_to_boresight_aborts_witness :
  In 90 [90; 45]
  /\ forall out,
       TelescopePattern._transform_to_boresight bracket_check_solver [0; 0] [90; 45] 1 0
       <> Ok out.
Proof.
  split; [left; reflexivity |].
  apply (transform_to_boresight_aborts bracket_check_solver [0; 0] [90; 45] 1 0 90).
  - left. reflexivity.
  - intros guess. eexists. apply zenith_has_no_bracket.
Defined.

(** The same series evaluated: the first solve fails, [a0] is still
    unbound, and the second sample is never solved. *)
Example transform_to_boresight_zenith :
  TelescopePattern._transform_to_boresight bracket_check_solver [0; 0] [90; 45] 1 0
  = Raise (UnboundLocalError "a0").
Proof.
  unfold TelescopePattern._transform_to_boresight.
  cbn [map bind TelescopePattern.enumerate length seq combine for_each].
  rewrite solve_body_after_failure by (eexists; apply zenith_has_no_bracket).
  reflexivity.
Qed.

(** ** The start-time basis *)

Section StartBasis.
Import TelescopePattern.

Variable datetime : Type.
Variable sidereal_time : datetime -> location -> R.
Variable root_scalar : (R -> R) -> R -> R -> R -> R -> outcome R.






Lemma start_lst_of_first (kw : param datetime) dra ddec :
  start_lst_of datetime sidereal_time kw dra ddec
  = start_lst_of datetime sidereal_time (first_basis kw) dra ddec.
Proof.
  unfold start_lst_of, first_basis.
  destruct (start_datetime kw) eqn:Ed, (start_hrang kw) eqn:Eh, (start_lst kw) eqn:El;
    cbn; rewrite ?Ed, ?Eh, ?El; reflexivity.
Qed.

















End StartBasis.






(** ** The angle of a point on the unit circle *)

Lemma sin_period_Z x (k : Z) : sin (x + 2 * PI * IZR k) = sin x.
Proof.
  destruct (Z_le_gt_dec 0 k) as [H | H].
  - rewrite <- (Z2Nat.id k H), <- INR_IZR_INZ.
    replace (x + 2 * PI * INR (Z.to_nat k)) with (x + 2 * INR (Z.to_nat k) * PI) by ring.
    apply sin_period.
  - rewrite <- (sin_period (x + 2 * PI * IZR k) (Z.to_nat (- k))).
    rewrite INR_IZR_INZ, Z2Nat.id, opp_IZR by lia. f_equal. ring.
Qed.

Lemma cos_period_Z x (k : Z) : cos (x + 2 * PI * IZR k) = cos x.
Proof.
  destruct (Z_le_gt_dec 0 k) as [H | H].
  - rewrite <- (Z2Nat.id k H), <- INR_IZR_INZ.
    replace (x + 2 * PI * INR (Z.to_nat k)) with (x + 2 * INR (Z.to_nat k) * PI) by ring.
    apply cos_period.
  - rewrite <- (cos_period (x + 2 * PI * IZR k) (Z.to_nat (- k))).
    rewrite INR_IZR_INZ, Z2Nat.id, opp_IZR by lia. f_equal. ring.
Qed.

Lemma reduce_angle a : exists k : Z, - PI < a + 2 * PI * IZR k <= PI.
Proof.
  pose proof PI_RGT_0 as Hpi.
  exists (Zfloor ((PI - a) / (2 * PI))).
  pose proof (Zfloor_bound ((PI - a) / (2 * PI))) as [Hl Hu].
  assert (E : PI - a = 2 * PI * ((PI - a) / (2 * PI))) by (field; lra).
  assert (2 * PI * IZR (Zfloor ((PI - a) / (2 * PI))) <= 2 * PI * ((PI - a) / (2 * PI)))
    by (apply Rmult_le_compat_l; lra).
  assert (2 * PI * ((PI - a) / (2 * PI)) < 2 * PI * (IZR (Zfloor ((PI - a) / (2 * PI))) + 1))
    by (apply Rmult_lt_compat_l; lra).
  lra.
Qed.

Lemma atan_ratio b : - (PI / 2) < b < PI / 2 -> atan (sin b / cos b) = b.
Proof. intros H. apply (atan_tan b H). Qed.

Lemma arctan2_principal a : - PI < a <= PI -> arctan2 (sin a) (cos a) = a.
Proof.
  intros [Hl Hu]. pose proof PI_RGT_0 as Hpi. unfold arctan2.
  destruct (Rtotal_order a (- (PI / 2))) as [H1 | [H1 | H1]].
  - (* third quadrant *)
    assert (Hc : cos a < 0).
    { rewrite <- cos_neg. apply cos_lt_0; lra. }
    assert (Hs : sin a < 0) by (apply sin_lt_0_var; lra).
    rewrite Rltb_false, Rltb_true, Rleb_false by lra.
    replace (sin a / cos a) with (sin (a + PI) / cos (a + PI))
      by (rewrite neg_sin, neg_cos; field; lra).
    rewrite atan_ratio by lra. lra.
  - subst a. rewrite sin_neg, cos_neg, sin_PI2, cos_PI2.
    rewrite !(Rltb_false 0 0), (Rltb_false 0 (Ropp 1)), (Rltb_true (Ropp 1) 0) by lra.
    reflexivity.
  - destruct (Rtotal_order a (PI / 2)) as [H2 | [H2 | H2]].
    + assert (Hc : 0 < cos a) by (apply cos_gt_0; lra).
      rewrite Rltb_true by lra. apply atan_ratio. lra.
    + subst a. rewrite sin_PI2, cos_PI2.
      rewrite !(Rltb_false 0 0), Rltb_true by lra. reflexivity.
    + (* second quadrant *)
      assert (Hc : cos a < 0) by (apply cos_lt_0; lra).
      assert (Hs : 0 <= sin a) by (apply sin_ge_0; lra).
      rewrite Rltb_false, Rltb_true, Rleb_true by lra.
      replace (sin a / cos a) with (sin (a - PI) / cos (a - PI)).
      * rewrite atan_ratio by lra. lra.
      * replace a with (a - PI + PI) at 3 4 by lra.
        rewrite neg_sin, neg_cos. field.
        intros E. replace a with (a - PI + PI) in Hc by lra.
        rewrite neg_cos in Hc. lra.
Qed.

(** [arctan2(sin a, cos a)] is [a] up to whole turns. *)
Lemma arctan2_sin_cos a : exists k : Z, arctan2 (sin a) (cos a) = a + 2 * PI * IZR k.
Proof.
  destruct (reduce_angle a) as [k Hk]. exists k.
  rewrite <- (sin_period_Z a k), <- (cos_period_Z a k).
  now apply arctan2_principal.
Qed.

(** ** The transforms at a zero module offset *)

Lemma Forall2_map_eq {A B C : Type} (P : A -> B -> Prop) (f : A -> C) (g : B -> C) l l' :
  Forall2 P l l' -> (forall a b, P a b -> f a = g b) -> map f l = map g l'.
Proof.
  intros H Hfg. induction H as [| a b l l' Hab _ IH]; simpl; [reflexivity |].
  f_equal; auto.
Qed.

(** [_norm_angle] sees its input only modulo 360 degrees. *)
Lemma norm_angle_congruent l l' :
  Forall2 congruent_360 l l' ->
  TelescopePattern._norm_angle l' = TelescopePattern._norm_angle l.
Proof.
  intros H. destruct H as [| a b l l' [k Hab] Hrest]; [reflexivity |].
  unfold TelescopePattern._norm_angle.
  assert (El : pymod b 360 = pymod a 360).
  { rewrite Hab. apply pymod_add_turns. lra. }
  rewrite El. f_equal. symmetry.
  apply Forall2_map_eq with (P := congruent_360).
  - constructor; [exists k; exact Hab | exact Hrest].
  - intros x y [j Hxy]. f_equal. rewrite Hxy.
    replace (x + 360 * IZR j - (pymod a 360 - 180))
      with (x - (pymod a 360 - 180) + 360 * IZR j) by lra.
    symmetry. apply pymod_add_turns. lra.
Qed.

(** A series that already lies in the window of its first sample is left as
    it is. *)
Lemma norm_angle_fixed az0 az :
  Forall (in_window (pymod az0 360 - 180)) (az0 :: az) ->
  TelescopePattern._norm_angle (az0 :: az) = Ok (az0 :: az).
Proof.
  intros H. unfold TelescopePattern._norm_angle. f_equal.
  rewrite <- (map_id (az0 :: az)) at 2. apply map_ext_in.
  intros a Ha. rewrite Forall_forall in H. specialize (H a Ha).
  unfold in_window in H. rewrite pymod_small by lra. lra.
Qed.

Lemma radians_0 : radians 0 = 0.
Proof. unfold radians. lra. Qed.

Lemma degrees_radians a : degrees (radians a) = a.
Proof. unfold degrees, radians. pose proof PI_RGT_0. field. lra. Qed.

Lemma radians_range a : -90 < a < 90 -> - (PI / 2) < radians a < PI / 2.
Proof. intros H. unfold radians. pose proof PI_RGT_0. split; nra. Qed.

Lemma pymod_nonneg_altitudes alt :
  Forall (fun a => -90 < a < 90) alt -> Forall (fun a => 0 <= a) alt ->
  map (fun a => pymod a 360) alt = alt.
Proof.
  intros Hr Hp. rewrite <- (map_id alt) at 2. apply map_ext_in.
  intros a Ha. rewrite Forall_forall in Hr, Hp.
  specialize (Hr a Ha). specialize (Hp a Ha). apply pymod_small. lra.
Qed.

Section ZeroOffset.
Import TelescopePattern.

(** Boresight to module, one sample. *)
Lemma from_boresight_sample_zero az alt :
  -90 < alt < 90 ->
  from_boresight_sample (radians 0) (radians 0) (radians az) (radians alt)
  = (arctan2 (sin (radians az)) (cos (radians az)), radians alt).
Proof.
  intros H. apply radians_range in H. set (h := radians alt) in *. set (a := radians az).
  unfold from_boresight_sample. rewrite radians_0, sin_0, cos_0, Rplus_0_l.
  replace (sin h * 1 + 0 * cos h * sin h) with (sin h) by ring.
  rewrite asin_sin by lra.
  assert (Hc : 0 < cos h) by (apply cos_gt_0; lra).
  f_equal. f_equal; field; lra.
Qed.

Lemma from_boresight_samples_zero : forall az alt,
  length az = length alt -> Forall (fun a => -90 < a < 90) alt ->
  let out := map (fun '(az, alt) =>
                    from_boresight_sample (radians 0) (radians 0) (radians az) (radians alt))
                 (combine az alt) in
  Forall2 congruent_360 az (map (fun o => degrees (fst o)) out)
  /\ map (fun o => pymod (degrees (snd o)) 360) out = map (fun a => pymod a 360) alt.
Proof.
  induction az as [| a az IH]; intros [| h alt] Hlen Hr; simpl in Hlen; try lia.
  - split; [constructor | reflexivity].
  - inversion Hr as [| ? ? Hh Hr']; subst.
    destruct (IH alt ltac:(lia) Hr') as [IH1 IH2].
    cbn [combine map]. rewrite from_boresight_sample_zero by assumption.
    cbn [fst snd]. split.
    + constructor; [| exact IH1].
      destruct (arctan2_sin_cos (radians a)) as [k Ek]. exists k. rewrite Ek.
      unfold degrees, radians. pose proof PI_RGT_0. field. lra.
    + f_equal; [now rewrite degrees_radians | exact IH2].
Qed.

Lemma transform_from_boresight_zero az alt :
  length az = length alt -> Forall (fun a => -90 < a < 90) alt ->
  _transform_from_boresight az alt 0 0 = normalised az alt.
Proof.
  intros Hlen Hr. unfold _transform_from_boresight, normalised.
  destruct (from_boresight_samples_zero az alt Hlen Hr) as [H1 H2].
  rewrite (norm_angle_congruent _ _ H1), H2. reflexivity.
Qed.

Lemma setitem_app pre z rest v :
  setitem (pre ++ z :: rest) (length pre) v = pre ++ v :: rest.
Proof.
  induction pre as [| a pre IH]; simpl; [reflexivity | now rewrite IH].
Qed.

Variable root_scalar : (R -> R) -> R -> R -> R -> R -> outcome R.
Variable eps : R.

(** The root-solving loop at a zero offset, with a solver that returns a
    point of the open bracket within [eps] of each target: it stores what
    the solver returns. *)
Lemma solve_loop_within : forall suf pre rest guess a0,
  length rest = length suf ->
  (forall a x0, In a suf ->
     exists r,
       root_scalar (fun alt_0 => func (radians 0) (radians 0) alt_0 a)
                   x0 (- PI / 2) (PI / 2) (/ 1000000) = Ok r
       /\ Rabs (r - a) <= eps /\ - (PI / 2) < r < PI / 2) ->
  exists roots guess' a0',
    for_each (combine (seq (length pre) (length suf)) suf)
             (mkSolve (array (pre ++ rest)) guess a0)
             (solve_body root_scalar (radians 0) (radians 0))
    = Ok (mkSolve (array (pre ++ roots)) guess' a0')
    /\ Forall2 (fun a r => Rabs (r - a) <= eps /\ - (PI / 2) < r < PI / 2) suf roots.
Proof.
  induction suf as [| a suf IH]; intros pre [| z rest] guess a0 Hlen Hs;
    simpl in Hlen; try lia.
  - exists [], guess, a0. split; [reflexivity | constructor].
  - destruct (Hs a guess ltac:(now left)) as (r & Er & Hn & Hb).
    cbn [length seq combine for_each]. unfold solve_body at 1.
    cbn [TelescopePattern.guess]. rewrite Er.
    cbn [bind TelescopePattern.a0 alt0 TelescopePattern.guess].
    rewrite setitem_app.
    destruct (IH (pre ++ [r]) rest r (Some r) ltac:(lia)
                 ltac:(intros a' x0 Hin; apply Hs; now right))
      as (roots & g' & a0' & E & HF).
    rewrite length_app, Nat.add_1_r, <- !app_assoc in E. cbn [app] in E.
    exists (r :: roots), g', a0'. split; [exact E |].
    constructor; [split; assumption | exact HF].
Qed.

End ZeroOffset.

(** Module to boresight, the azimuth of one sample: once the solved
    altitude lies in the open bracket, exact or not, the azimuth offset is
    0. *)
Lemma az0_of_zero az1 a r :
  - (PI / 2) < a < PI / 2 -> - (PI / 2) < r < PI / 2 ->
  TelescopePattern.az0_of (radians 0) (radians 0) az1 a r = az1 - 0.
Proof.
  intros Ha Hr. unfold TelescopePattern.az0_of. rewrite radians_0, cos_0.
  assert (Hca : 0 < cos a) by (apply cos_gt_0; lra).
  assert (Hcr : 0 < cos r) by (apply cos_gt_0; lra).
  assert (Hq : 1 <= (1 - sin r * sin a) / (cos r * cos a)).
  { apply Rmult_le_reg_r with (cos r * cos a); [nra |].
    unfold Rdiv. rewrite Rmult_assoc, Rinv_l by nra.
    pose proof (COS_bound (r - a)) as [_ Hc]. rewrite cos_minus in Hc. lra. }
  assert (Ec : clip1 ((1 - sin r * sin a) / (cos r * cos a)) = 1).
  { unfold clip1, Rltb.
    destruct (Rlt_dec 1 ((1 - sin r * sin a) / (cos r * cos a))); [reflexivity |].
    destruct (Rlt_dec ((1 - sin r * sin a) / (cos r * cos a)) (-1)); lra. }
  rewrite Ec, acos_1. unfold Rgtb. rewrite (Rltb_false (- r + PI / 2) 0) by lra.
  reflexivity.
Qed.

Lemma az0_samples_zero : forall az alt roots,
  length az = length alt -> Forall (fun a => -90 < a < 90) alt ->
  Forall2 (fun _ r => - (PI / 2) < r < PI / 2) (map radians alt) roots ->
  map degrees (TelescopePattern.map3 (TelescopePattern.az0_of (radians 0) (radians 0))
                 (map radians az) (map radians alt) roots) = az.
Proof.
  induction az as [| a az IH]; intros [| h alt] roots Hlen Hr HF; simpl in Hlen; try lia;
    [reflexivity |].
  inversion Hr as [| ? ? Hh Hr']; subst.
  cbn [map] in HF. inversion HF as [| ? r ? roots' Hb HF']; subst.
  cbn [map TelescopePattern.map3].
  rewrite az0_of_zero by (try apply radians_range; assumption).
  rewrite Rminus_0_r, degrees_radians. f_equal. apply IH; [lia | assumption | assumption].
Qed.

(** Module to boresight at a zero offset: with a solver that keeps the
    tolerance [eps] on the series, the transform returns the normalised
    azimuths of the input and the altitudes that the solver found, each
    within [eps] of the input altitude. *)
Lemma transform_to_boresight_zero root_scalar eps az alt :
  length az = length alt -> Forall (fun a => -90 < a < 90) alt ->
  solves_within eps root_scalar alt ->
  exists roots,
    Forall2 (fun a r => Rabs (r - radians a) <= eps /\ - (PI / 2) < r < PI / 2) alt roots
    /\ TelescopePattern._transform_to_boresight root_scalar az alt 0 0
       = normalised az (map degrees roots).
Proof.
  intros Hlen Hr Hs. unfold TelescopePattern._transform_to_boresight, normalised.
  destruct alt as [| h alt].
  - destruct az; [| discriminate]. exists []. split; [constructor | reflexivity].
  - destruct az as [| a az]; [discriminate |].
    destruct (solve_loop_within root_scalar eps (map radians (h :: alt)) []
                (map (fun _ => 0) (map radians (h :: alt)))
                (radians h) None ltac:(now rewrite length_map))
      as (roots & g' & a0' & E & HF).
    { intros a' x0 Hin. apply in_map_iff in Hin. destruct Hin as (d & <- & Hd).
      now apply Hs. }
    exists roots. split.
    { clear - HF. revert roots HF. generalize (h :: alt). intros l.
      induction l as [| d l IH]; intros roots HF; cbn [map] in HF;
        inversion HF; subst; constructor; auto. }
    cbn [app length] in E. unfold TelescopePattern.enumerate.
    cbn [map bind] in *. rewrite E. cbn [bind TelescopePattern.alt0].
    change (radians a :: map radians az) with (map radians (a :: az)).
    change (radians h :: map radians alt) with (map radians (h :: alt)).
    rewrite (az0_samples_zero (a :: az) (h :: alt) roots Hlen Hr).
    + now rewrite map_map.
    + change (radians h :: map radians alt) with (map radians (h :: alt)) in HF.
      eapply Forall2_impl; [| exact HF]. cbv beta. intros x y [_ Hb]. exact Hb.
Qed.

(** C7, as amended.  In exact arithmetic, for [dist = 0] and [theta = 0]
    and a series whose altitudes lie strictly between -90 and 90 degrees:
    the forward transform returns the azimuth series normalised by
    [_norm_angle] and each altitude modulo 360 degrees; the inverse
    transform, with a root solver that keeps a tolerance [eps] on the
    series, returns the same normalised azimuth series (the azimuth offset
    is exactly 0 whether or not the root is exact) and, modulo 360 degrees,
    the altitudes that the solver found, each within [eps] of the input
    altitude.  An altitude modulo 360 is the altitude itself when that is
    not negative, and the normalised azimuth series is the input series
    when it already lies in the window of its first sample. *)
Theorem zero_offset_transforms
  (root_scalar : (R -> R) -> R -> R -> R -> R -> outcome R) (az alt : list R) :
  length az = length alt ->
  Forall (fun a => -90 < a < 90) alt ->
  TelescopePattern._transform_from_boresight az alt 0 0 = normalised az alt
  /\ (forall eps, solves_within eps root_scalar alt ->
        exists roots,
          Forall2 (fun a r => Rabs (r - radians a) <= eps /\ - (PI / 2) < r < PI / 2)
                  alt roots
          /\ TelescopePattern._transform_to_boresight root_scalar az alt 0 0
             = normalised az (map degrees roots))
  /\ (Forall (fun a => 0 <= a) alt -> map (fun a => pymod a 360) alt = alt)
  /\ (forall az0 rest, az = az0 :: rest ->
        Forall (in_window (pymod az0 360 - 180)) az ->
        TelescopePattern._norm_angle az = Ok az).
Proof.
  intros Hlen Hr.
  split; [now apply transform_from_boresight_zero |].
  split; [intros eps Hs; now apply transform_to_boresight_zero |].
  split; [now apply pymod_nonneg_altitudes |].
  intros az0 rest -> Hw. now apply norm_angle_fixed.
Qed.

(** The stand-in solver keeps the tolerance 1e-6 on altitudes of 30 and 45
    degrees, and is not exact on them. *)
Lemma half_tolerance_solver_within :
  solves_within (/ 1000000) half_tolerance_solver [30; 45].
Proof.
  assert (Hgen : forall a, -90 < a <= 45 ->
            forall x0, exists r,
              half_tolerance_solver
                (fun alt_0 => TelescopePattern.func (radians 0) (radians 0) alt_0 (radians a))
                x0 (- PI / 2) (PI / 2) (/ 1000000) = Ok r
              /\ Rabs (r - radians a) <= / 1000000
              /\ - (PI / 2) < r < PI / 2).
  { intros a Ha x0. pose proof PI2_1 as Hpi.
    assert (Hra : - (PI / 2) < radians a <= PI / 4) by (unfold radians; split; nra).
    pose proof (SIN_bound (radians a)) as [Hlo Hhi].
    unfold half_tolerance_solver, TelescopePattern.func.
    rewrite radians_0, !sin_0, cos_0.
    replace (- PI / 2) with (- (PI / 2)) by lra.
    rewrite sin_neg, sin_PI2.
    unfold Rgtb.
    rewrite Rltb_false by nra.
    replace (- (0 * 1 + 0 * 1 * sin (0 + 0) - sin (radians a))) with (sin (radians a)) by ring.
    rewrite asin_sin by lra.
    eexists. split; [reflexivity |]. split.
    - replace (radians a + / 1000000 / 2 - radians a) with (/ 1000000 / 2) by ring.
      rewrite Rabs_pos_eq; lra.
    - lra. }
  intros a x0 [<- | [<- | []]]; apply Hgen; lra.
Qed.

Lemma zero_offset_transforms_witness :
  length [10; 20] = length [30; 45]
  /\ Forall (fun a => -90 < a < 90) [30; 45]
  /\ TelescopePattern._transform_from_boresight [10; 20] [30; 45] 0 0
     = normalised [10; 20] [30; 45]
  /\ exists roots,
       Forall2 (fun a r => Rabs (r - radians a) <= / 1000000 /\ - (PI / 2) < r < PI / 2)
               [30; 45] roots
       /\ TelescopePattern._transform_to_boresight half_tolerance_solver [10; 20] [30; 45] 0 0
          = normalised [10; 20] (map degrees roots).
Proof.
  assert (Hr : Forall (fun a => -90 < a < 90) [30; 45])
    by (repeat constructor; lra).
  split; [reflexivity |].
  split; [exact Hr |].
  destruct (zero_offset_transforms half_tolerance_solver [10; 20] [30; 45] eq_refl Hr)
    as (Hf & Hi & _).
  split; [exact Hf |].
  exact (Hi (/ 1000000) half_tolerance_solver_within).
Defined.

Lemma pymod_minus_30 : pymod (-30) 360 = 330.
Proof.
  unfold pymod. rewrite (Zfloor_eq (-1)); [simpl; lra | simpl; lra].
Qed.

(** C7 as stated fails twice at a zero offset: the forward transform
    returns an altitude of -30 degrees as 330, and it returns the azimuths
    10 and 350 as 10 and -10. *)
Lemma zero_offset_not_identity :
  (exists az',
     TelescopePattern._transform_from_boresight [0] [-30] 0 0 = Ok (az', [330])
     /\ 330 <> -30)
  /\ TelescopePattern._transform_from_boresight [10; 350] [20; 20] 0 0
     = Ok ([10; -10], [20; 20])
  /\ -10 <> 350.
Proof.
  split; [| split; [| lra]].
  - rewrite transform_from_boresight_zero; [| reflexivity | repeat constructor; lra].
    unfold normalised. cbn [TelescopePattern._norm_angle bind map].
    rewrite pymod_minus_30. eexists. split; [reflexivity | lra].
  - rewrite transform_from_boresight_zero; [| reflexivity | repeat constructor; lra].
    unfold normalised. cbn [TelescopePattern._norm_angle bind map].
    rewrite (pymod_small 10), (pymod_small 20) by lra.
    replace (10 - (10 - 180)) with 180 by lra.
    replace (350 - (10 - 180)) with (160 + 360 * IZR 1) by (simpl; lra).
    rewrite pymod_add_turns by lra. rewrite (pymod_small 180), (pymod_small 160) by lra.
    do 2 f_equal. f_equal; [lra |]. f_equal. lra.
Qed.

(** ** The end-to-end scenario, evaluated *)

Lemma sqrt2_bounds : 141 / 100 < sqrt 2 < 142 / 100.
Proof.
  pose proof sqrt2_pos as Hp.
  pose proof (sqrt_sqrt 2 ltac:(lra)) as E.
  split; nra.
Qed.

Lemma Zceil_quotient a d (z : Z) :
  0 < d -> (IZR z - 1) * d < a <= IZR z * d -> Zceil (a / d) = z.
Proof.
  intros Hd [Hl Hu]. apply Zceil_eq.
  assert (E : a / d * d = a) by (field; lra).
  split.
  - apply Rmult_lt_reg_r with d; [exact Hd |]. lra.
  - apply Rmult_le_reg_r with d; [exact Hd |]. lra.
Qed.

(** Width 2, height 1.5 and spacing 0.1 give the ceilings 15 and 11, and
    from them the vertex counts 17 and 12. *)
Example scenario_vertex_counts fuel :
  (1 <= fuel)%nat -> PongVertices.numvert fuel 2 (3 / 2) (1 / 10) = Ok (17%Z, 12%Z).
Proof.
  intros Hf. pose proof sqrt2_bounds as [Hl Hu].
  unfold PongVertices.numvert. rewrite !pydiv_ok by lra. cbn [bind].
  unfold pyceil.
  rewrite (Zceil_quotient 2 _ 15), (Zceil_quotient (3 / 2) _ 11) by (simpl; lra).
  destruct fuel as [| [| fuel]]; [lia | reflexivity | reflexivity].
Qed.

(** * Further properties of the code *)

(** ** Finite differences *)

Lemma for_each_append_map {A B : Type} (f : A -> B)
  (body : A -> list B -> outcome (list B)) (l : list A) :
  (forall i acc, In i l -> body i acc = Ok (acc ++ [f i])) ->
  forall acc, for_each l acc body = Ok (acc ++ map f l).
Proof.
  induction l as [| a l IH]; intros H acc; cbn [for_each map].
  - now rewrite app_nil_r.
  - rewrite H by now left. cbn [bind].
    rewrite IH by (intros; apply H; now right).
    now rewrite <- app_assoc.
Qed.

Lemma line_samples_length c m h n : length (line_samples c m h n) = n.
Proof. unfold line_samples. now rewrite length_map, length_seq. Qed.

Lemma line_samples_nth c m h n k :
  (k < n)%nat -> nth k (line_samples c m h n) 0 = c + m * (INR k * h).
Proof.
  intros H. unfold line_samples.
  rewrite (nth_indep _ 0 (c + m * (INR 0 * h)))
    by now rewrite length_map, length_seq.
  pose proof (map_nth (fun k => c + m * (INR k * h)) (seq 0 n) O k) as E.
  cbv beta in E. rewrite E, seq_nth by exact H. reflexivity.
Qed.

Lemma line_samples_item c m h n (i : Z) :
  (0 <= i < Z.of_nat n)%Z ->
  ScanPattern.item (line_samples c m h n) i = Ok (c + m * (IZR i * h)).
Proof.
  intros H. rewrite item_ok by (rewrite line_samples_length; exact H).
  rewrite line_samples_nth by lia.
  rewrite INR_IZR_INZ, Z2Nat.id by lia. reflexivity.
Qed.

(** X1.  [_central_diff] is exact on a straight line: for at least two
    samples of a line of slope [m] read every [h], [h] not zero, it returns
    the slope [m] at every sample, as many values as it was given. *)
Theorem central_diff_of_line c m h (n : nat) :
  h <> 0 -> (2 <= n)%nat ->
  ScanPattern._central_diff h (line_samples c m h n) = Ok (repeat m n).
Proof.
  intros Hh Hn. unfold ScanPattern._central_diff.
  rewrite !line_samples_item by lia. cbn [bind].
  rewrite line_samples_length.
  rewrite (for_each_append_map (fun _ => m)).
  - cbn [bind].
    rewrite item_ok_neg by (rewrite line_samples_length; lia).
    rewrite item_ok_neg by (rewrite line_samples_length; lia).
    cbn [bind]. rewrite line_samples_length.
    rewrite !line_samples_nth by lia.
    rewrite !INR_IZR_INZ, !Z2Nat.id by lia.
    rewrite map_const, range2_length.
    replace ((c + m * (1 * h) - (c + m * (0 * h))) / h) with m by (field; exact Hh).
    replace ((c + m * (IZR (-1 + Z.of_nat n) * h)
              - (c + m * (IZR (-2 + Z.of_nat n) * h))) / h) with m.
    + change [m] with (repeat m 1). rewrite <- !repeat_app.
      do 2 f_equal. lia.
    + replace (-1 + Z.of_nat n)%Z with (-2 + Z.of_nat n + 1)%Z by lia.
      rewrite plus_IZR. field. exact Hh.
  - intros i acc Hi. apply range2_In in Hi.
    rewrite !line_samples_item by lia. cbn [bind].
    do 3 f_equal. rewrite plus_IZR, minus_IZR. field. exact Hh.
Qed.

Lemma central_diff_of_line_witness :
  ScanPattern._central_diff (1 / 400) (line_samples 3 2 (1 / 400) 5) = Ok (repeat 2 5).
Proof.
  apply (central_diff_of_line 3 2 (1 / 400) 5); [lra | lia].
Defined.

(** X2.  [_central_diff] needs two samples and keeps the length: on an
    array of fewer than two entries it raises [IndexError], and on any
    longer array it returns as many values as it was given, whatever the
    sample interval. *)
Theorem central_diff_length_or_error h a :
  ((length a < 2)%nat -> ScanPattern._central_diff h a = Raise IndexError)
  /\ ((2 <= length a)%nat ->
      exists r, ScanPattern._central_diff h a = Ok r /\ length r = length a).
Proof.
  split.
  - intros H. destruct a as [| x [| y a]]; [reflexivity | reflexivity |].
    cbn [length] in H. lia.
  - apply central_diff_ok.
Qed.

(** ** The Fourier series of the Pong generators *)

(** The odd harmonics [1, 3, 5, ...] that the series runs over. *)
Lemma range3_odd N n : In n (range3 1 (N + 1) 2) -> exists k : Z, n = (2 * k + 1)%Z.
Proof.
  unfold range3. intros H. apply in_map_iff in H. destruct H as (k & <- & _).
  exists (Z.of_nat k). lia.
Qed.

Lemma sum_loop_scaled (r : R) (f g : Z -> R) (l : list Z) :
  (forall n, In n l -> g n = r * f n) ->
  forall s, fold_left (fun pos n => pos + g n) l (r * s)
            = r * fold_left (fun pos n => pos + f n) l s.
Proof.
  induction l as [| a l IH]; intros H s; cbn [fold_left]; [reflexivity |].
  rewrite (H a) by now left.
  rewrite <- Rmult_plus_distr_l. apply IH. intros; apply H; now right.
Qed.

Lemma sum_loop_ext (f g : Z -> R) (l : list Z) :
  (forall n, In n l -> g n = f n) ->
  forall s, fold_left (fun pos n => pos + g n) l s
            = fold_left (fun pos n => pos + f n) l s.
Proof.
  induction l as [| a l IH]; intros H s; cbn [fold_left]; [reflexivity |].
  rewrite (H a) by now left. apply IH. intros; apply H; now right.
Qed.

Lemma sin_odd_half_turns x (k : Z) : sin (x + IZR (2 * k + 1) * PI) = - sin x.
Proof.
  rewrite plus_IZR, mult_IZR.
  replace (x + (2 * IZR k + 1) * PI) with (x + PI + 2 * PI * IZR k) by ring.
  rewrite sin_period_Z. apply neg_sin.
Qed.

Lemma cos_odd_half_turns x (k : Z) : cos (x + IZR (2 * k + 1) * PI) = - cos x.
Proof.
  rewrite plus_IZR, mult_IZR.
  replace (x + (2 * IZR k + 1) * PI) with (x + PI + 2 * PI * IZR k) by ring.
  rewrite cos_period_Z. apply neg_cos.
Qed.

(** X3.  The Pong series is odd about a half period and has the period
    it is given: half a period later the position is the opposite one, and
    a whole number of periods later (or earlier) it is the same, so the
    pattern ends where it starts. *)
Theorem pong_fourier_half_period nt amp t peri :
  peri <> 0 ->
  exists v, Pong._fourier_expansion nt amp t peri = Ok v
            /\ Pong._fourier_expansion nt amp (t + peri / 2) peri = Ok (- v)
            /\ forall k : Z, Pong._fourier_expansion nt amp (t + IZR k * peri) peri = Ok v.
Proof.
  intros H. unfold Pong._fourier_expansion.
  rewrite pydiv_ok by exact H. cbn [bind].
  rewrite !(for_each_pure (fun n pos => pos + Pong.coeff n * sin (2 * PI / peri * IZR n * _))).
  cbn [bind]. eexists. split; [reflexivity |]. split.
  - f_equal.
    replace 0 with (-1 * 0) at 1 by ring.
    rewrite (sum_loop_scaled (-1)
               (fun n => Pong.coeff n * sin (2 * PI / peri * IZR n * t))).
    + ring.
    + intros n Hn. apply range3_odd in Hn. destruct Hn as [k ->].
      replace (2 * PI / peri * IZR (2 * k + 1) * (t + peri / 2))
        with (2 * PI / peri * IZR (2 * k + 1) * t + IZR (2 * k + 1) * PI)
        by (field; exact H).
      rewrite sin_odd_half_turns. ring.
  - intros k.
    rewrite (for_each_pure
               (fun n pos => pos + Pong.coeff n * sin (2 * PI / peri * IZR n * _))).
    cbn [bind]. do 2 f_equal.
    apply sum_loop_ext. intros n _. f_equal.
    replace (2 * PI / peri * IZR n * (t + IZR k * peri))
      with (2 * PI / peri * IZR n * t + 2 * PI * IZR (n * k)).
    + apply sin_period_Z.
    + rewrite mult_IZR. field. exact H.
Qed.

Lemma pong_fourier_half_period_witness :
  exists v, Pong._fourier_expansion 5 1 (1 / 3) 4 = Ok v
            /\ Pong._fourier_expansion 5 1 (1 / 3 + 4 / 2) 4 = Ok (- v)
            /\ forall k : Z, Pong._fourier_expansion 5 1 (1 / 3 + IZR k * 4) 4 = Ok v.
Proof.
  apply (pong_fourier_half_period 5 1 (1 / 3) 4). lra.
Defined.

Lemma curvy_loop_sums b t (l : list Z) : forall pos vel acc jer,
  for_each l (pos, vel, acc, jer)
    (fun n '(pos, vel, acc, jer) =>
       let c := Pong.coeff n in
       Ok (pos + c * sin (b * IZR n * t),
           vel + c * IZR n * cos (b * IZR n * t),
           acc + c * (IZR n * IZR n) * sin (b * IZR n * t),
           jer + c * (IZR n * IZR n * IZR n) * cos (b * IZR n * t)))
  = Ok (fold_left (fun s n => s + Pong.coeff n * sin (b * IZR n * t)) l pos,
        fold_left (fun s n => s + Pong.coeff n * IZR n * cos (b * IZR n * t)) l vel,
        fold_left (fun s n => s + Pong.coeff n * (IZR n * IZR n) * sin (b * IZR n * t)) l acc,
        fold_left (fun s n => s + Pong.coeff n * (IZR n * IZR n * IZR n) * cos (b * IZR n * t))
                  l jer).
Proof.
  induction l as [| n l IH]; intros pos vel acc jer; [reflexivity |].
  cbn [for_each bind fold_left]. apply IH.
Qed.

(** X4.  The series of CurvyPong agrees with the one of Pong and flips
    sign as a whole: its position is the position that Pong computes from
    the same arguments, and half a period later position, velocity,
    acceleration and jerk are all the opposite ones. *)
Theorem curvy_fourier_half_period nt amp t peri :
  peri <> 0 ->
  exists pos vel acc jer,
    CurvyPong._fourier_expansion nt amp t peri = Ok (pos, vel, acc, jer)
    /\ Pong._fourier_expansion nt amp t peri = Ok pos
    /\ CurvyPong._fourier_expansion nt amp (t + peri / 2) peri
       = Ok (- pos, - vel, - acc, - jer).
Proof.
  intros H. unfold CurvyPong._fourier_expansion, Pong._fourier_expansion.
  rewrite pydiv_ok by exact H. cbn [bind].
  rewrite !curvy_loop_sums.
  rewrite (for_each_pure (fun n pos => pos + Pong.coeff n * sin (2 * PI / peri * IZR n * t))).
  cbn [bind]. do 4 eexists. split; [reflexivity |]. split; [reflexivity |].
  assert (Hs : forall n, In n (range3 1 (nt * 2 - 1 + 1) 2) ->
             sin (2 * PI / peri * IZR n * (t + peri / 2))
             = - sin (2 * PI / peri * IZR n * t)).
  { intros n Hn. apply range3_odd in Hn. destruct Hn as [k ->].
    replace (2 * PI / peri * IZR (2 * k + 1) * (t + peri / 2))
      with (2 * PI / peri * IZR (2 * k + 1) * t + IZR (2 * k + 1) * PI)
      by (field; exact H).
    apply sin_odd_half_turns. }
  assert (Hc : forall n, In n (range3 1 (nt * 2 - 1 + 1) 2) ->
             cos (2 * PI / peri * IZR n * (t + peri / 2))
             = - cos (2 * PI / peri * IZR n * t)).
  { intros n Hn. apply range3_odd in Hn. destruct Hn as [k ->].
    replace (2 * PI / peri * IZR (2 * k + 1) * (t + peri / 2))
      with (2 * PI / peri * IZR (2 * k + 1) * t + IZR (2 * k + 1) * PI)
      by (field; exact H).
    apply cos_odd_half_turns. }
  replace 0 with (-1 * 0) at 1 2 3 4 by ring.
  rewrite (sum_loop_scaled (-1)
             (fun n => Pong.coeff n * sin (2 * PI / peri * IZR n * t)))
    by (intros n Hn; rewrite (Hs n Hn); ring).
  rewrite (sum_loop_scaled (-1)
             (fun n => Pong.coeff n * IZR n * cos (2 * PI / peri * IZR n * t)))
    by (intros n Hn; rewrite (Hc n Hn); ring).
  rewrite (sum_loop_scaled (-1)
             (fun n => Pong.coeff n * (IZR n * IZR n) * sin (2 * PI / peri * IZR n * t)))
    by (intros n Hn; rewrite (Hs n Hn); ring).
  rewrite (sum_loop_scaled (-1)
             (fun n => Pong.coeff n * (IZR n * IZR n * IZR n)
                       * cos (2 * PI / peri * IZR n * t)))
    by (intros n Hn; rewrite (Hc n Hn); ring).
  do 2 f_equal; [do 2 f_equal |]; ring.
Qed.

Lemma curvy_fourier_half_period_witness :
  exists pos vel acc jer,
    CurvyPong._fourier_expansion 5 1 (1 / 3) 4 = Ok (pos, vel, acc, jer)
    /\ Pong._fourier_expansion 5 1 (1 / 3) 4 = Ok pos
    /\ CurvyPong._fourier_expansion 5 1 (1 / 3 + 4 / 2) 4
       = Ok (- pos, - vel, - acc, - jer).
Proof.
  apply (curvy_fourier_half_period 5 1 (1 / 3) 4). lra.
Defined.

Lemma pong_fourier_at_zero nt amp peri v :
  Pong._fourier_expansion nt amp 0 peri = Ok v -> v = 0.
Proof.
  unfold Pong._fourier_expansion, pydiv.
  destruct (Reqb peri 0); cbn [bind]; [discriminate |].
  rewrite (for_each_pure (fun n pos => pos + Pong.coeff n * sin (2 * PI / peri * IZR n * 0))).
  cbn [bind]. intros H. inversion H as [E]. clear H E.
  replace 0 with (0 * 0) at 1 by ring.
  rewrite (sum_loop_scaled 0 (fun _ => 0)).
  - ring.
  - intros n _. rewrite Rmult_0_r, sin_0. ring.
Qed.

Lemma pong_loop_prefix nt tm ang si (l : list Z) : forall s s',
  for_each l s (Pong.sample_body nt tm ang si) = Ok s' ->
  exists tl xl yl,
    Pong.time_offset_l s' = Pong.time_offset_l s ++ tl
    /\ Pong.x_coord_l s' = Pong.x_coord_l s ++ xl
    /\ Pong.y_coord_l s' = Pong.y_coord_l s ++ yl.
Proof.
  induction l as [| i l IH]; intros s s' H; cbn [for_each] in H.
  - inversion H. exists [], [], []. now rewrite !app_nil_r.
  - destruct (Pong.sample_body nt tm ang si i s) as [s1 | |] eqn:E1;
      cbn [bind] in H; try discriminate.
    destruct (IH _ _ H) as (tl & xl & yl & Et & Ex & Ey).
    unfold Pong.sample_body in E1.
    destruct (Pong._fourier_expansion nt (amp_x tm) (Pong.t_count s) (peri_x tm));
      cbn [bind] in E1; try discriminate.
    destruct (Pong._fourier_expansion nt (amp_y tm) (Pong.t_count s) (peri_y tm));
      cbn [bind] in E1; try discriminate.
    inversion E1; subst s1. cbn in Et, Ex, Ey.
    rewrite Et, Ex, Ey, <- !app_assoc. do 3 eexists. repeat split; reflexivity.
Qed.

Lemma pong_one_period_head fuel p tm data :
  Pong.one_period fuel p = Ok (tm, data) -> (1 <= pongcount tm)%Z ->
  exists rest, data = mkSample 0 0 0 :: rest.
Proof.
  unfold Pong.one_period. intros H Hc.
  destruct (PongVertices.numvert fuel (Pong.width p) (Pong.height p) (Pong.spacing p))
    as [[x y] | |]; cbn [bind] in H; try discriminate.
  destruct (Pong.timing_of x y (sqrt 2 * Pong.spacing p) (Pong.velocity p)
              (SkyPattern.sample_interval (Pong.repeat p))) as [tm' | |];
    cbn [bind] in H; try discriminate.
  destruct (for_each (range (pongcount tm')) (Pong.mkAcc 0 [] [] [])
              (Pong.sample_body (Pong.num_term p) tm' (radians (Pong.angle p))
                 (SkyPattern.sample_interval (Pong.repeat p)))) as [s | |] eqn:El;
    cbn [bind] in H; try discriminate.
  destruct (pd_DataFrame (Pong.time_offset_l s) (Pong.x_coord_l s) (Pong.y_coord_l s))
    as [d | |] eqn:Ed; cbn [bind] in H; try discriminate.
  inversion H; subst tm' d. clear H.
  rewrite (range_cons _ Hc) in El. cbn [for_each] in El.
  unfold Pong.sample_body at 1 in El. cbn [Pong.t_count] in El.
  destruct (Pong._fourier_expansion (Pong.num_term p) (amp_x tm) 0 (peri_x tm))
    as [vx | |] eqn:Ex; cbn [bind] in El; try discriminate.
  destruct (Pong._fourier_expansion (Pong.num_term p) (amp_y tm) 0 (peri_y tm))
    as [vy | |] eqn:Ey; cbn [bind] in El; try discriminate.
  apply pong_fourier_at_zero in Ex, Ey. subst vx vy.
  apply pong_loop_prefix in El. destruct El as (tl & xl & yl & Et & Exl & Eyl).
  cbn in Et, Exl, Eyl.
  unfold pd_DataFrame in Ed. rewrite Et, Exl, Eyl in Ed.
  destruct ((_ =? _)%nat && (_ =? _)%nat) in Ed; [| discriminate].
  inversion Ed. cbn [zip_columns]. eexists. f_equal. f_equal; ring.
Qed.

(** X5.  Every Pong scan starts at the centre: for valid parameters the
    generated period is not empty and its first sample is at time 0 and
    position (0, 0), whatever the rotation angle. *)
Theorem pong_scan_starts_at_centre (p : Pong.param) :
  pong_valid p ->
  exists fuel0, forall fuel, (fuel0 <= fuel)%nat ->
    exists tm rest, Pong.one_period fuel p = Ok (tm, mkSample 0 0 0 :: rest).
Proof.
  intros (Hw & Hh & Hs & Hv & _ & Hsi).
  destruct (pong_one_period_spec p Hw Hh Hs Hv Hsi)
    as (x & y & tm & data & [fuel0 Hrun] & _ & _ & Hc & _).
  exists fuel0. intros fuel Hf. destruct (Hrun fuel Hf) as [_ Hone].
  destruct (pong_one_period_head fuel p tm data Hone Hc) as [rest ->].
  exists tm, rest. exact Hone.
Qed.

Lemma pong_scan_starts_at_centre_witness :
  exists fuel0, forall fuel, (fuel0 <= fuel)%nat ->
    exists tm rest, Pong.one_period fuel pong_scenario = Ok (tm, mkSample 0 0 0 :: rest).
Proof.
  apply (pong_scan_starts_at_centre pong_scenario).
  unfold pong_valid, pong_scenario; simpl. repeat split; try lra; lia.
Defined.

(** ** SkyPattern: the constructor on in-memory data *)

(** X6.  A SkyPattern needs two samples: with fewer there is no sample
    interval to measure and the constructor raises [ValueError], whatever
    the other arguments. *)
Theorem skypattern_init_too_short data repeatable kw :
  (length data < 2)%nat ->
  SkyPattern.__init__ data repeatable kw
  = Raise (ValueError "sample_interval must be constant").
Proof.
  intros H. destruct data as [| s [| s' data]]; [reflexivity | reflexivity |].
  cbn [length] in H. lia.
Qed.

Lemma skypattern_init_too_short_witness :
  SkyPattern.__init__ [mkSample 0 1 2] true (SkyPattern.mkKwargs (Some 3%Z) None 1)
  = Raise (ValueError "sample_interval must be constant").
Proof.
  apply (skypattern_init_too_short [mkSample 0 1 2] true). simpl. lia.
Defined.

Lemma np_diff_map_seq (f : nat -> R) n : forall a,
  SkyPattern.np_diff (map f (seq a (S n))) = map (fun k => f (S k) - f k) (seq a n).
Proof.
  induction n as [| n IH]; intros a; [reflexivity |].
  change (seq a (S (S n))) with (a :: seq (S a) (S n)).
  cbn [map]. specialize (IH (S a)). cbn [seq map] in IH. cbn [SkyPattern.np_diff seq map].
  f_equal. exact IH.
Qed.

Lemma np_sum_repeat h n : SkyPattern.np_sum (repeat h n) = INR n * h.
Proof.
  unfold SkyPattern.np_sum. induction n as [| n IH].
  - simpl. ring.
  - cbn [repeat fold_right]. rewrite IH, S_INR. ring.
Qed.

Lemma np_mean_repeat h n : (0 < n)%nat -> SkyPattern.np_mean (repeat h n) = h.
Proof.
  intros H. unfold SkyPattern.np_mean. rewrite np_sum_repeat, repeat_length.
  field. apply not_0_INR. lia.
Qed.

Lemma np_std_repeat h n : (0 < n)%nat -> SkyPattern.np_std (repeat h n) = 0.
Proof.
  intros H. unfold SkyPattern.np_std. rewrite (np_mean_repeat h n H).
  rewrite map_repeat. replace ((h - h) * (h - h)) with 0 by ring.
  rewrite (np_mean_repeat 0 n H). apply sqrt_0.
Qed.

Lemma spread_ok_repeat h n : h <> 0 -> (0 < n)%nat -> SkyPattern.spread_ok (repeat h n) = true.
Proof.
  intros Hh Hn. unfold SkyPattern.spread_ok.
  destruct n as [| n]; [lia |].
  change (repeat h (S n)) with (h :: repeat h n) at 1.
  cbv iota. rewrite np_mean_repeat, np_std_repeat by lia.
  rewrite Reqb_false by exact Hh. apply Rleb_true.
  unfold Rdiv. rewrite Rmult_0_l. lra.
Qed.

(** X7.  On evenly spaced data with no repeat requested the constructor
    measures the spacing as the sample interval and keeps the data as it
    is.  The first time offset need not be 0 and the spacing may be
    negative (time offsets that run backwards are accepted). *)
Theorem skypattern_init_evenly_spaced t0 h data repeatable kw :
  evenly_spaced t0 h data -> h <> 0 -> (2 <= length data)%nat ->
  SkyPattern.kw_num_repeat kw = None -> SkyPattern.kw_max_scan_duration kw = None ->
  SkyPattern.__init__ data repeatable kw
  = Ok (SkyPattern.mkParam (count 1) None h, data).
Proof.
  intros He Hh Hn Hr Hm.
  destruct (length data) as [| n] eqn:El; [lia |].
  assert (EL : SkyPattern.np_diff (SkyPattern.time_offsets data) = repeat h n).
  { rewrite He, El, np_diff_map_seq.
    rewrite (map_ext _ (fun _ => h)) by (intros k; rewrite S_INR; ring).
    now rewrite map_const, length_seq. }
  unfold SkyPattern.__init__. cbv zeta. rewrite !EL.
  rewrite spread_ok_repeat by (assumption || lia).
  rewrite np_mean_repeat by lia.
  unfold SkyPattern._clean_param. cbn [SkyPattern.kw_max_scan_duration
    SkyPattern.kw_num_repeat SkyPattern.kw_sample_interval]. rewrite Hr, Hm.
  destruct data as [| s0 data]; [discriminate |].
  destruct repeatable; reflexivity.
Qed.

Lemma skypattern_init_evenly_spaced_witness :
  SkyPattern.__init__ [mkSample 5 1 2; mkSample 7 3 4; mkSample 9 5 6] false
                      (SkyPattern.mkKwargs None None 0)
  = Ok (SkyPattern.mkParam (count 1) None 2,
        [mkSample 5 1 2; mkSample 7 3 4; mkSample 9 5 6]).
Proof.
  apply (skypattern_init_evenly_spaced 5 2
           [mkSample 5 1 2; mkSample 7 3 4; mkSample 9 5 6] false
           (SkyPattern.mkKwargs None None 0)).
  - unfold evenly_spaced. simpl. repeat f_equal; lra.
  - lra.
  - simpl. lia.
  - reflexivity.
  - reflexivity.
Defined.

(** ** SkyPattern: repeats, durations and what is saved *)

Lemma tiled_1 one data : tiled one 1 data = data.
Proof.
  unfold tiled. replace (range 1) with [0%Z] by reflexivity.
  cbn [flat_map]. rewrite Rmult_0_r, shifted_0. apply app_nil_r.
Qed.

(** What [_repeat_scan] returns when it returns: the repeat count is an
    int, and the data are the input (count at most 1) or its tiling. *)
Lemma repeat_scan_result p data p' full :
  SkyPattern._repeat_scan p data = Ok (p', full) ->
  exists s0 d n,
    data = s0 :: d
    /\ SkyPattern.num_repeat p' = count n
    /\ SkyPattern.sample_interval p' = SkyPattern.sample_interval p
    /\ (SkyPattern.num_repeat p = nan -> (1 <= n)%Z)
    /\ (SkyPattern.num_repeat p = nan ->
        forall m, SkyPattern.max_scan_duration p = Some m ->
          time_offset (last d s0) + SkyPattern.sample_interval p <> 0
          /\ n = pyfloor (m / (time_offset (last d s0) + SkyPattern.sample_interval p)))
    /\ (forall k, SkyPattern.num_repeat p = count k -> n = k)
    /\ ((n <= 1)%Z -> full = data)
    /\ ((1 <= n)%Z ->
        full = tiled (time_offset (last d s0) + SkyPattern.sample_interval p) n data).
Proof.
  intros H. destruct data as [| s0 d]; [discriminate |].
  exists s0, d. destruct p as [[| n] msd si].
  - destruct msd as [m |]; [| discriminate].
    destruct (Req_dec (time_offset (last d s0) + si) 0) as [E0 | E0].
    { exfalso. unfold SkyPattern._repeat_scan in H.
      cbn [SkyPattern.last_time_offset bind SkyPattern.num_repeat
           SkyPattern.max_scan_duration SkyPattern.sample_interval] in H.
      rewrite E0, pydiv_zero in H. discriminate. }
    destruct (repeat_scan_duration si m s0 d E0) as [Hlt Hge].
    destruct (Z_lt_le_dec (pyfloor (m / (time_offset (last d s0) + si))) 1) as [Hn | Hn].
    { exfalso. destruct (Hlt Hn) as [msg E]. rewrite E in H. discriminate. }
    rewrite (Hge Hn) in H. inversion H; subst p' full. clear H.
    exists (pyfloor (m / (time_offset (last d s0) + si))).
    cbn [SkyPattern.num_repeat SkyPattern.sample_interval SkyPattern.max_scan_duration].
    do 3 (split; [reflexivity |]).
    split; [intros _; exact Hn |].
    split; [intros _ m' Em; inversion Em; subst m'; split; [exact E0 | reflexivity] |].
    split; [discriminate |].
    split; [| reflexivity].
    intros Hle. assert (E1 : pyfloor (m / (time_offset (last d s0) + si)) = 1%Z) by lia.
    rewrite E1. apply tiled_1.
  - exists n. cbn [SkyPattern.num_repeat SkyPattern.sample_interval].
    destruct (Z_lt_le_dec n 1) as [Hn | Hn].
    + unfold SkyPattern._repeat_scan in H.
      cbn [SkyPattern.last_time_offset bind SkyPattern.num_repeat] in H.
      replace (n >? 1)%Z with false in H by (symmetry; rewrite Z.gtb_ltb; apply Z.ltb_ge; lia).
      inversion H; subst p' full.
      do 3 (split; [reflexivity |]).
      do 2 (split; [discriminate |]).
      split; [intros k Ek; inversion Ek; reflexivity |].
      split; [reflexivity | lia].
    + rewrite (repeat_scan_count (SkyPattern.mkParam (count n) msd si) d s0 n eq_refl Hn) in H.
      inversion H; subst p' full.
      do 3 (split; [reflexivity |]).
      do 2 (split; [discriminate |]).
      split; [intros k Ek; inversion Ek; reflexivity |].
      split; [| reflexivity].
      intros Hle. assert (n = 1%Z) as -> by lia.
      apply tiled_1.
Qed.

Lemma tiled_first_copy one n data :
  (1 <= n)%Z -> firstn (length data) (tiled one n data) = data.
Proof.
  intros Hn. unfold tiled. rewrite (range_cons n Hn). cbn [flat_map].
  rewrite Rmult_0_r, shifted_0.
  rewrite firstn_app, Nat.sub_diag, firstn_all. cbn [firstn]. apply app_nil_r.
Qed.

(** X8.  Saving without the repeats gives back the one-period data:
    whatever the repeat control, [save_data(include_repeats=False)] on what
    [_repeat_scan] returned holds exactly the columns that went in. *)
Theorem save_data_strips_repeats p data p' full :
  SkyPattern._repeat_scan p data = Ok (p', full) ->
  SkyPatternExport.save_data p' full false = Ok (columns_of data).
Proof.
  intros H.
  destruct (repeat_scan_result p data p' full H)
    as (s0 & d & n & -> & Hn & _ & _ & _ & _ & Hsmall & Hbig).
  unfold SkyPatternExport.save_data. rewrite Hn. cbn [negb andb].
  destruct (Z.gtb_spec n 1) as [Hgt | Hle].
  - rewrite (Hbig ltac:(lia)), tiled_length.
    rewrite pydiv_ok by (apply not_0_IZR; lia). cbn [bind].
    replace (IZR (Z.of_nat (Z.to_nat n * length (s0 :: d))) / IZR n)
      with (IZR (Z.of_nat (length (s0 :: d)))).
    + unfold pyint. rewrite Rleb_true by (apply IZR_le; lia).
      rewrite ZfloorZ, Nat2Z.id, tiled_first_copy by lia. reflexivity.
    + rewrite Nat2Z.inj_mul, Z2Nat.id, mult_IZR by lia.
      field. apply not_0_IZR; lia.
  - rewrite (Hsmall Hle). reflexivity.
Qed.

Lemma save_data_strips_repeats_witness :
  SkyPatternExport.save_data (SkyPattern.mkParam (count 3) None 1)
    (tiled (1 + 1) 3 [mkSample 0 0 0; mkSample 1 5 7]) false
  = Ok (columns_of [mkSample 0 0 0; mkSample 1 5 7]).
Proof.
  apply (save_data_strips_repeats (SkyPattern.mkParam (count 3) None 1)
           [mkSample 0 0 0; mkSample 1 5 7]).
  apply (repeat_scan_count (SkyPattern.mkParam (count 3) None 1)
           [mkSample 1 5 7] (mkSample 0 0 0) 3); [reflexivity | lia].
Defined.

Lemma last_app_cons {A : Type} (l l' : list A) (x d : A) :
  last (l ++ x :: l') d = last l' x.
Proof.
  induction l as [| a l IH].
  - cbn [app]. apply last_cons_default.
  - cbn [app]. rewrite last_cons_default.
    destruct l as [| b l]; cbn [app] in *.
    + apply last_cons_default.
    + rewrite last_cons_default in IH. rewrite last_cons_default. exact IH.
Qed.

Lemma last_time_offset_app l s0 d :
  SkyPattern.last_time_offset (l ++ s0 :: d) = Ok (time_offset (last d s0)).
Proof.
  destruct l as [| a l]; [reflexivity |].
  cbn [app SkyPattern.last_time_offset]. now rewrite last_app_cons.
Qed.

Lemma tiled_last one n s0 d :
  (1 <= n)%Z ->
  SkyPattern.last_time_offset (tiled one n (s0 :: d))
  = Ok (time_offset (last d s0) + one * IZR (n - 1)).
Proof.
  intros Hn. replace n with (n - 1 + 1)%Z at 1 by lia.
  rewrite tiled_S by lia. unfold shifted. cbn [map].
  rewrite last_time_offset_app.
  rewrite (last_map_default
             (fun s => mkSample (time_offset s + one * IZR (n - 1)) (x_coord s) (y_coord s))).
  reflexivity.
Qed.

(** The duration of what [_repeat_scan] returns, in terms of the duration
    of one period. *)
Lemma scan_duration_after_repeat p data p' full one :
  SkyPattern._repeat_scan p data = Ok (p', full) ->
  SkyPatternExport.scan_duration p data = Ok one ->
  exists n,
    SkyPattern.num_repeat p' = count n
    /\ SkyPatternExport.scan_duration p' full = Ok (IZR (Z.max 1 n) * one)
    /\ (SkyPattern.num_repeat p = nan ->
        forall m, SkyPattern.max_scan_duration p = Some m ->
          (1 <= n)%Z /\ one <> 0 /\ n = pyfloor (m / one))
    /\ (forall k, SkyPattern.num_repeat p = count k -> n = k).
Proof.
  intros H Hd.
  destruct (repeat_scan_result p data p' full H)
    as (s0 & d & n & -> & Hn & Hsi & Hnan & Hmax & Hk & Hsmall & Hbig).
  unfold SkyPatternExport.scan_duration in Hd.
  cbn [SkyPattern.last_time_offset bind] in Hd. inversion Hd as [Eone]. clear Hd.
  exists n. split; [exact Hn |].
  split; [| split; [| exact Hk]].
  - unfold SkyPatternExport.scan_duration. rewrite Hsi.
    destruct (Z_le_gt_dec n 1) as [Hle | Hgt].
    + rewrite (Hsmall Hle). cbn [SkyPattern.last_time_offset bind].
      rewrite Z.max_l by lia. f_equal. ring.
    + rewrite (Hbig ltac:(lia)), tiled_last by lia. cbn [bind].
      rewrite Z.max_r by lia. f_equal. rewrite minus_IZR. ring.
  - intros En m Em. destruct (Hmax En m Em) as [H0 Hf].
    split; [exact (Hnan En) | split; assumption].
Qed.

(** X9.  Repeating multiplies the duration: the scan duration of the
    repeated pattern is the repeat count times the duration of one period
    (a count below 1 repeats nothing and counts as 1). *)
Theorem scan_duration_of_repeats p data p' full one :
  SkyPattern._repeat_scan p data = Ok (p', full) ->
  SkyPatternExport.scan_duration p data = Ok one ->
  exists n,
    SkyPattern.num_repeat p' = count n
    /\ SkyPatternExport.scan_duration p' full = Ok (IZR (Z.max 1 n) * one).
Proof.
  intros H Hd.
  destruct (scan_duration_after_repeat p data p' full one H Hd) as (n & Hn & E & _).
  exists n. split; assumption.
Qed.

Lemma scan_duration_of_repeats_witness :
  exists n,
    SkyPattern.num_repeat (SkyPattern.mkParam (count 3) None 1) = count n
    /\ SkyPatternExport.scan_duration (SkyPattern.mkParam (count 3) None 1)
         (tiled (1 + 1) 3 [mkSample 0 0 0; mkSample 1 5 7])
       = Ok (IZR (Z.max 1 n) * (1 + 1)).
Proof.
  apply (scan_duration_of_repeats (SkyPattern.mkParam (count 3) None 1)
           [mkSample 0 0 0; mkSample 1 5 7]).
  - apply (repeat_scan_count (SkyPattern.mkParam (count 3) None 1)
             [mkSample 1 5 7] (mkSample 0 0 0) 3); [reflexivity | lia].
  - reflexivity.
Defined.

(** X10.  [max_scan_duration] is respected and used up: when the repeat
    count is derived from it and one period takes a positive time, the
    repeated pattern lasts no longer than [max_scan_duration], and one more
    period would not have fitted. *)
Theorem max_scan_duration_respected si m data p' full one :
  SkyPattern._repeat_scan (SkyPattern.mkParam nan (Some m) si) data = Ok (p', full) ->
  SkyPatternExport.scan_duration (SkyPattern.mkParam nan (Some m) si) data = Ok one ->
  0 < one ->
  exists d, SkyPatternExport.scan_duration p' full = Ok d /\ d <= m < d + one.
Proof.
  intros H Hd Hpos.
  destruct (scan_duration_after_repeat _ data p' full one H Hd) as (n & _ & E & Hmax & _).
  destruct (Hmax eq_refl m eq_refl) as (Hn & _ & Hf).
  exists (IZR (Z.max 1 n) * one). split; [exact E |].
  rewrite Z.max_r by lia.
  pose proof (Zfloor_bound (m / one)) as [Hlo Hhi].
  unfold pyfloor in Hf. rewrite <- Hf in Hlo, Hhi.
  assert (Em : m = m / one * one) by (field; lra).
  split.
  - rewrite Em at 1. apply Rmult_le_compat_r; lra.
  - rewrite Em at 1. replace (IZR n * one + one) with ((IZR n + 1) * one) by ring.
    apply Rmult_lt_compat_r; lra.
Qed.

Lemma max_scan_duration_respected_witness :
  exists d,
    SkyPatternExport.scan_duration (SkyPattern.mkParam (count (pyfloor (5 / (1 + 1)))) None 1)
      (tiled (1 + 1) (pyfloor (5 / (1 + 1))) [mkSample 0 0 0; mkSample 1 5 7]) = Ok d
    /\ d <= 5 < d + (1 + 1).
Proof.
  assert (E : pyfloor (5 / (1 + 1)) = 2%Z) by (apply Zfloor_eq; simpl; lra).
  apply (max_scan_duration_respected 1 5 [mkSample 0 0 0; mkSample 1 5 7]).
  - apply (repeat_scan_duration 1 5 (mkSample 0 0 0) [mkSample 1 5 7]).
    + simpl. lra.
    + simpl. simpl in E. rewrite E. lia.
  - reflexivity.
  - lra.
Defined.

(** ** Pong: the generator with repeats *)

Lemma pong_param_eta (p : Pong.param) :
  Pong.mkParam (Pong.repeat p) (Pong.num_term p) (Pong.width p) (Pong.height p)
               (Pong.spacing p) (Pong.velocity p) (Pong.angle p) = p.
Proof. destruct p. reflexivity. Qed.

(** X11.  A Pong pattern asked to repeat [n >= 1] times is [n] periods in
    a row: [n] times the sample count of one period, starting with the one
    period itself, and sampled at 0, h, 2h, ... throughout with [h] the
    sample interval; the parameters come back unchanged. *)
Theorem pong_generate_scan_repeats (p : Pong.param) (n : Z) :
  pong_valid p ->
  SkyPattern.num_repeat (Pong.repeat p) = count n -> (1 <= n)%Z ->
  exists tm one data,
    (exists fuel0, forall fuel, (fuel0 <= fuel)%nat ->
       Pong.one_period fuel p = Ok (tm, one)
       /\ Pong._generate_scan fuel p = Ok (p, data))
    /\ length one = Z.to_nat (pongcount tm)
    /\ length data = (Z.to_nat n * length one)%nat
    /\ firstn (length one) data = one
    /\ SkyPattern.time_offsets data
       = uniform_times (SkyPattern.sample_interval (Pong.repeat p)) (length data).
Proof.
  intros (Hw & Hh & Hs & Hv & _ & Hsi) Hn Hge.
  destruct (pong_one_period_spec p Hw Hh Hs Hv Hsi)
    as (x & y & tm & one & [fuel0 Hrun] & _ & _ & Hc & Hlen & Hu).
  set (h := SkyPattern.sample_interval (Pong.repeat p)) in *.
  destruct one as [| s0 d]; [cbn [length] in Hlen; lia |].
  set (O := time_offset (last d s0) + h).
  assert (EO : O = INR (length (s0 :: d)) * h).
  { unfold O. rewrite last_time_offset_spec, Hu, Hlen.
    replace (Z.to_nat (pongcount tm)) with (S (Z.to_nat (pongcount tm) - 1)) by lia.
    rewrite uniform_times_last, S_INR. ring. }
  exists tm, (s0 :: d), (tiled O n (s0 :: d)).
  split; [| split; [exact Hlen | split; [apply tiled_length | split]]].
  - exists fuel0. intros fuel Hf. destruct (Hrun fuel Hf) as [_ Hone].
    split; [exact Hone |].
    unfold Pong._generate_scan. rewrite Hone. cbn [bind].
    rewrite (repeat_scan_count (Pong.repeat p) d s0 n Hn Hge). cbn [bind].
    fold h. fold O. now rewrite pong_param_eta.
  - apply tiled_first_copy. exact Hge.
  - rewrite tiled_length, EO. rewrite <- (Z2Nat.id n) at 1 by lia.
    apply tiled_uniform. rewrite Hu, Hlen. reflexivity.
Qed.

Lemma pong_generate_scan_repeats_witness :
  exists tm one data,
    (exists fuel0, forall fuel, (fuel0 <= fuel)%nat ->
       Pong.one_period fuel pong_three_times = Ok (tm, one)
       /\ Pong._generate_scan fuel pong_three_times = Ok (pong_three_times, data))
    /\ length one = Z.to_nat (pongcount tm)
    /\ length data = (Z.to_nat 3 * length one)%nat
    /\ firstn (length one) data = one
    /\ SkyPattern.time_offsets data
       = uniform_times (SkyPattern.sample_interval (Pong.repeat pong_three_times))
                       (length data).
Proof.
  apply (pong_generate_scan_repeats pong_three_times 3).
  - unfold pong_valid, pong_three_times; simpl. repeat split; try lra; lia.
  - reflexivity.
  - lia.
Defined.

(** ** Daisy: one integration step *)

Section DaisyStepFacts.
Import DaisyStep.

Variable c : consts.

Lemma curve_needs_Rt st sp Nx Ny st' : curve c st sp Nx Ny = Ok st' -> Rt c <> 0.
Proof.
  intros H E. unfold curve in H. rewrite E, pydiv_zero in H. discriminate.
Qed.

Lemma curve_value st sp Nx Ny :
  Rt c <> 0 ->
  let s := sp * dt c in
  let a := s / Rt c in
  curve c st sp Nx Ny
  = Ok (mkState (vx st + (- (a * a) / 2 * vx st + (a + a * a * a / 6) * Nx))
                (vy st + (- (a * a) / 2 * vy st + (a + a * a * a / 6) * Ny))
                (x st + ((s - s * a * a / 6) * vx st + s * a / 2 * Nx))
                (y st + ((s - s * a * a / 6) * vy st + s * a / 2 * Ny))
                sp).
Proof.
  intros H s a. unfold curve.
  repeat (rewrite pydiv_ok by exact H; cbn [bind]).
  f_equal. subst s a. f_equal; field; exact H.
Qed.

Lemma step_cases st st' :
  step c st = Ok st' ->
  st' = straight c st (ramp c (speed st))
  \/ exists Nx Ny,
       (Nx = vy st /\ Ny = - vx st \/ Nx = - vy st /\ Ny = vx st)
       /\ curve c st (ramp c (speed st)) Nx Ny = Ok st'.
Proof.
  unfold step. intros H.
  destruct (pysqrt (x st * x st + y st * y st)) as [r | |]; cbn [bind] in H;
    try discriminate.
  destruct (Rltb r (R0 c)); [left; now inversion H |].
  destruct (pydiv (x st) r "r") as [xn | |]; cbn [bind] in H; try discriminate.
  destruct (pydiv (y st) r "r") as [yn | |]; cbn [bind] in H; try discriminate.
  destruct (pydiv (Ra c * Ra c) r "r") as [q1 | |]; cbn [bind] in H; try discriminate.
  destruct (pydiv q1 r "r") as [q2 | |]; cbn [bind] in H; try discriminate.
  destruct (pysqrt (1 - q2)) as [lim | |]; cbn [bind] in H; try discriminate.
  destruct (Rgtb (- xn * vx st - yn * vy st) lim); [left; now inversion H |].
  right. destruct (Rgtb (- xn * vy st + yn * vx st) 0).
  - exists (vy st), (- vx st). split; [left; split; reflexivity | exact H].
  - exists (- vy st), (vx st). split; [right; split; reflexivity | exact H].
Qed.

Lemma ramp_is_min sp : ramp c sp = Rmin (sp + start_acc c * dt c) (s0 c).
Proof.
  unfold ramp, Rgeb, Rleb, Rmin.
  destruct (Rle_dec (s0 c) (sp + start_acc c * dt c)) as [H | H];
    destruct (Rle_dec (sp + start_acc c * dt c) (s0 c)) as [H' | H'];
    try reflexivity; lra.
Qed.

End DaisyStepFacts.

(** X12.  The ramp never overshoots: after any step that returns, the
    speed is the old speed plus [start_acc*dt], capped at the target speed
    [s0] (so it never exceeds [s0]), whichever branch the step took. *)
Theorem daisy_step_speed_capped c st st' :
  DaisyStep.step c st = Ok st' ->
  DaisyStep.speed st'
  = Rmin (DaisyStep.speed st + DaisyStep.start_acc c * DaisyStep.dt c) (DaisyStep.s0 c)
  /\ DaisyStep.speed st' <= DaisyStep.s0 c.
Proof.
  intros H.
  assert (E : DaisyStep.speed st' = DaisyStep.ramp c (DaisyStep.speed st)).
  { destruct (step_cases c st st' H) as [-> | (Nx & Ny & _ & Hc)]; [reflexivity |].
    rewrite (curve_value c st _ Nx Ny (curve_needs_Rt c _ _ _ _ _ Hc)) in Hc.
    inversion Hc. reflexivity. }
  rewrite E, ramp_is_min. split; [reflexivity | apply Rmin_r].
Qed.

Lemma daisy_step_speed_capped_witness :
  DaisyStep.speed (DaisyStep.straight daisy_consts (DaisyStep.init 0)
                     (DaisyStep.ramp daisy_consts 0))
  = Rmin (DaisyStep.speed (DaisyStep.init 0)
          + DaisyStep.start_acc daisy_consts * DaisyStep.dt daisy_consts)
         (DaisyStep.s0 daisy_consts)
  /\ DaisyStep.speed (DaisyStep.straight daisy_consts (DaisyStep.init 0)
                        (DaisyStep.ramp daisy_consts 0))
     <= DaisyStep.s0 daisy_consts.
Proof.
  apply (daisy_step_speed_capped daisy_consts (DaisyStep.init 0)).
  apply (step_at_origin daisy_consts (DaisyStep.init 0)); [simpl; lra | reflexivity | reflexivity].
Defined.

(** Which branch a step takes, by the conditions of the source: straight
    inside [R0]; straight outside [R0] when the heading aims closer to the
    centre than the limit; curved otherwise. *)
Lemma step_branches c st st' :
  DaisyStep.step c st = Ok st' ->
  let r := sqrt (DaisyStep.x st * DaisyStep.x st + DaisyStep.y st * DaisyStep.y st) in
  let aim := - (DaisyStep.x st / r) * DaisyStep.vx st
             - DaisyStep.y st / r * DaisyStep.vy st in
  let lim := sqrt (1 - DaisyStep.Ra c * DaisyStep.Ra c / r / r) in
  (r < DaisyStep.R0 c
   /\ st' = DaisyStep.straight c st (DaisyStep.ramp c (DaisyStep.speed st)))
  \/ (DaisyStep.R0 c <= r /\ lim < aim
      /\ st' = DaisyStep.straight c st (DaisyStep.ramp c (DaisyStep.speed st)))
  \/ (DaisyStep.R0 c <= r /\ aim <= lim
      /\ exists Nx Ny,
           (Nx = DaisyStep.vy st /\ Ny = - DaisyStep.vx st
            \/ Nx = - DaisyStep.vy st /\ Ny = DaisyStep.vx st)
           /\ DaisyStep.curve c st (DaisyStep.ramp c (DaisyStep.speed st)) Nx Ny = Ok st').
Proof.
  intros H r aim lim. unfold DaisyStep.step in H.
  rewrite pysqrt_ok in H
    by (pose proof (Rle_0_sqr (DaisyStep.x st)); pose proof (Rle_0_sqr (DaisyStep.y st));
        unfold Rsqr in *; lra).
  cbn [bind] in H. fold r in H.
  destruct (Rlt_dec r (DaisyStep.R0 c)) as [Hin | Hout].
  { rewrite Rltb_true in H by exact Hin. left. split; [exact Hin | now inversion H]. }
  rewrite Rltb_false in H by lra.
  destruct (Req_dec r 0) as [E0 | Hr].
  { rewrite E0, pydiv_zero in H. discriminate. }
  repeat (rewrite pydiv_ok in H by exact Hr; cbn [bind] in H).
  unfold pysqrt in H.
  destruct (Rltb (1 - DaisyStep.Ra c * DaisyStep.Ra c / r / r) 0); [discriminate |].
  cbn [bind] in H. fold lim in H. fold aim in H. unfold Rgtb in H.
  right. destruct (Rlt_dec lim aim) as [Hs | Hc].
  - rewrite Rltb_true in H by exact Hs. left.
    split; [lra | split; [exact Hs | now inversion H]].
  - rewrite Rltb_false in H by lra. right.
    split; [lra | split; [lra |]].
    destruct (Rltb 0 _).
    + exists (DaisyStep.vy st), (- DaisyStep.vx st). split; [left; split; reflexivity | exact H].
    + exists (- DaisyStep.vy st), (DaisyStep.vx st). split; [right; split; reflexivity | exact H].
Qed.

(** X13.  The heading vector is never renormalised.  With [r] the distance
    from the centre, [aim = -(x/r)*vx - (y/r)*vy] and
    [lim = sqrt(1 - Ra*Ra/r/r)] as the step computes them: a step taken
    inside [R0], or with [aim > lim], is straight and leaves [(vx, vy)] as
    it was; a step taken with [R0 <= r] and [aim <= lim] is curved and
    multiplies the squared length of [(vx, vy)] by
    [1 + 7/12 a^4 + 1/36 a^6] with [a = speed*dt/Rt], [speed] the speed of
    that step; so the squared length never decreases from step to step. *)
Theorem daisy_step_heading_grows c st st' :
  DaisyStep.step c st = Ok st' ->
  let r := sqrt (DaisyStep.x st * DaisyStep.x st + DaisyStep.y st * DaisyStep.y st) in
  let aim := - (DaisyStep.x st / r) * DaisyStep.vx st
             - DaisyStep.y st / r * DaisyStep.vy st in
  let lim := sqrt (1 - DaisyStep.Ra c * DaisyStep.Ra c / r / r) in
  let a := DaisyStep.speed st' * DaisyStep.dt c / DaisyStep.Rt c in
  (r < DaisyStep.R0 c \/ lim < aim ->
     DaisyStep.vx st' = DaisyStep.vx st /\ DaisyStep.vy st' = DaisyStep.vy st)
  /\ (DaisyStep.R0 c <= r -> aim <= lim ->
      DaisyStep.vx st' * DaisyStep.vx st' + DaisyStep.vy st' * DaisyStep.vy st'
      = (DaisyStep.vx st * DaisyStep.vx st + DaisyStep.vy st * DaisyStep.vy st)
        * (1 + 7 / 12 * a ^ 4 + / 36 * a ^ 6))
  /\ DaisyStep.vx st * DaisyStep.vx st + DaisyStep.vy st * DaisyStep.vy st
     <= DaisyStep.vx st' * DaisyStep.vx st' + DaisyStep.vy st' * DaisyStep.vy st'.
Proof.
  intros H. pose proof (step_branches c st st' H) as HB. cbv zeta in HB |- *.
  set (r := sqrt (DaisyStep.x st * DaisyStep.x st + DaisyStep.y st * DaisyStep.y st)) in *.
  set (aim := - (DaisyStep.x st / r) * DaisyStep.vx st
              - DaisyStep.y st / r * DaisyStep.vy st) in *.
  set (lim := sqrt (1 - DaisyStep.Ra c * DaisyStep.Ra c / r / r)) in *.
  set (a := DaisyStep.speed st' * DaisyStep.dt c / DaisyStep.Rt c).
  assert (Hcurve : forall Nx Ny,
            (Nx = DaisyStep.vy st /\ Ny = - DaisyStep.vx st
             \/ Nx = - DaisyStep.vy st /\ Ny = DaisyStep.vx st) ->
            DaisyStep.curve c st (DaisyStep.ramp c (DaisyStep.speed st)) Nx Ny = Ok st' ->
            DaisyStep.vx st' * DaisyStep.vx st' + DaisyStep.vy st' * DaisyStep.vy st'
            = (DaisyStep.vx st * DaisyStep.vx st + DaisyStep.vy st * DaisyStep.vy st)
              * (1 + 7 / 12 * a ^ 4 + / 36 * a ^ 6)).
  { intros Nx Ny HN Hc. subst a.
    pose proof (curve_needs_Rt c _ _ _ _ _ Hc) as HRt.
    rewrite (curve_value c st _ Nx Ny HRt) in Hc.
    inversion Hc as [E]. clear Hc.
    cbn [DaisyStep.vx DaisyStep.vy DaisyStep.speed].
    destruct HN as [[-> ->] | [-> ->]]; field; exact HRt. }
  assert (Hgrow : forall n2 q, 0 <= n2 -> n2 <= n2 * (1 + 7 / 12 * q ^ 4 + / 36 * q ^ 6)).
  { intros n2 q Hn.
    assert (0 <= q ^ 4) by (replace (q ^ 4) with ((q * q) * (q * q)) by ring; nra).
    assert (0 <= q ^ 6) by (replace (q ^ 6) with ((q * q * q) * (q * q * q)) by ring; nra).
    nra. }
  destruct HB as [[Hin E] | [(Hout & Hs & E) | (Hout & Hc & Nx & Ny & HN & Ecurve)]].
  - assert (Ev : DaisyStep.vx st' = DaisyStep.vx st /\ DaisyStep.vy st' = DaisyStep.vy st)
      by (rewrite E; split; reflexivity).
    destruct Ev as [Ex Ey].
    split; [intros _; split; assumption |].
    split; [intros Hge; lra |]. rewrite Ex, Ey. lra.
  - assert (Ev : DaisyStep.vx st' = DaisyStep.vx st /\ DaisyStep.vy st' = DaisyStep.vy st)
      by (rewrite E; split; reflexivity).
    destruct Ev as [Ex Ey].
    split; [intros _; split; assumption |].
    split; [intros _ Hle; lra |]. rewrite Ex, Ey. lra.
  - split; [intros [Hin | Hs]; lra |].
    split; [intros _ _; now apply (Hcurve Nx Ny) |].
    rewrite (Hcurve Nx Ny HN Ecurve). apply Hgrow. nra.
Qed.

(** A curved step: from (2, 0), heading along the x axis, with [R0 = 1]
    and [Ra = 0]. *)
Lemma daisy_step_heading_grows_witness :
  exists st',
    DaisyStep.step daisy_consts daisy_at_2 = Ok st'
    /\ DaisyStep.vx st' * DaisyStep.vx st' + DaisyStep.vy st' * DaisyStep.vy st'
       = (DaisyStep.vx daisy_at_2 * DaisyStep.vx daisy_at_2
          + DaisyStep.vy daisy_at_2 * DaisyStep.vy daisy_at_2)
         * (1 + 7 / 12 * (DaisyStep.speed st' * DaisyStep.dt daisy_consts
                          / DaisyStep.Rt daisy_consts) ^ 4
            + / 36 * (DaisyStep.speed st' * DaisyStep.dt daisy_consts
                      / DaisyStep.Rt daisy_consts) ^ 6)
    /\ DaisyStep.vx daisy_at_2 * DaisyStep.vx daisy_at_2
       + DaisyStep.vy daisy_at_2 * DaisyStep.vy daisy_at_2
       <= DaisyStep.vx st' * DaisyStep.vx st' + DaisyStep.vy st' * DaisyStep.vy st'.
Proof.
  destruct (step_ok daisy_consts daisy_at_2) as [st' E];
    [simpl; lra | simpl; lra | simpl; lra |].
  exists st'. split; [exact E |].
  destruct (daisy_step_heading_grows daisy_consts daisy_at_2 st' E) as (_ & Hcurve & Hle).
  split; [| exact Hle].
  assert (Er : sqrt (DaisyStep.x daisy_at_2 * DaisyStep.x daisy_at_2
                     + DaisyStep.y daisy_at_2 * DaisyStep.y daisy_at_2) = 2).
  { simpl. replace (2 * 2 + 0 * 0) with (2 * 2) by ring. apply sqrt_square. lra. }
  apply Hcurve; rewrite Er; simpl.
  - lra.
  - replace (1 - 0 * 0 / 2 / 2) with 1 by field. rewrite sqrt_1. lra.
Defined.

(** X14.  Between [R0] and [Ra] the step fails: at a distance [r] from the
    centre with [R0 <= r], [r > 0] and [r < |Ra|], the square root of
    [1 - Ra^2/r^2] is taken of a negative number and the step raises
    [ValueError] (math domain error). *)
Theorem daisy_step_inside_Ra_raises c st :
  let r := sqrt (DaisyStep.x st * DaisyStep.x st + DaisyStep.y st * DaisyStep.y st) in
  DaisyStep.R0 c <= r -> 0 < r -> r * r < DaisyStep.Ra c * DaisyStep.Ra c ->
  DaisyStep.step c st = Raise (ValueError "math domain error").
Proof.
  intros r HR0 Hr HRa. unfold DaisyStep.step.
  rewrite pysqrt_ok by (pose proof (Rle_0_sqr (DaisyStep.x st));
                        pose proof (Rle_0_sqr (DaisyStep.y st)); unfold Rsqr in *; lra).
  cbn [bind]. fold r. rewrite Rltb_false by exact HR0.
  repeat (rewrite pydiv_ok by lra; cbn [bind]).
  unfold pysqrt. rewrite Rltb_true; [reflexivity |].
  replace (DaisyStep.Ra c * DaisyStep.Ra c / r / r)
    with (DaisyStep.Ra c * DaisyStep.Ra c / (r * r)) by (field; lra).
  assert (1 < DaisyStep.Ra c * DaisyStep.Ra c / (r * r)); [| lra].
  apply Rmult_lt_reg_r with (r * r); [nra |].
  unfold Rdiv. rewrite Rmult_assoc, Rinv_l by nra. lra.
Qed.

Lemma daisy_step_inside_Ra_raises_witness :
  DaisyStep.step daisy_wide_Ra daisy_at_2 = Raise (ValueError "math domain error").
Proof.
  assert (E : sqrt (DaisyStep.x daisy_at_2 * DaisyStep.x daisy_at_2
                    + DaisyStep.y daisy_at_2 * DaisyStep.y daisy_at_2) = 2).
  { simpl. replace (2 * 2 + 0 * 0) with (2 * 2) by ring. apply sqrt_square. lra. }
  apply (daisy_step_inside_Ra_raises daisy_wide_Ra daisy_at_2); rewrite E; simpl; lra.
Defined.

(** ** Daisy: a whole run *)

(** X15.  The step loop of the Daisy generator of [coordinates.py]
    always completes for [R0 > 0], [Rt <> 0], [Ra^2 <= R0^2], [dt > 0] and
    [T > 0], so the run is decided by its two counts alone: it returns
    exactly when the step count [N = int(T/dt)] is the number of entries of
    the time column [np.arange(0, T, dt)], with [N] samples whose time
    offsets are that column, and raises [ValueError] when the two counts
    differ. *)
Theorem daisy_returns_iff_counts_agree (p : Daisy.param) :
  0 < Daisy.R0 p -> Daisy.Rt p <> 0 ->
  Daisy.Ra p * Daisy.Ra p <= Daisy.R0 p * Daisy.R0 p ->
  0 < Daisy.sample_interval p -> 0 < Daisy.T p ->
  exists N,
    Daisy.steps p = Ok N /\ (0 <= N)%Z
    /\ (Z.to_nat N = length (np_arange (Daisy.T p) (Daisy.sample_interval p)) ->
        exists data, Daisy._generate_scan p = Ok data
          /\ length data = Z.to_nat N
          /\ SkyPattern.time_offsets data = np_arange (Daisy.T p) (Daisy.sample_interval p))
    /\ (Z.to_nat N <> length (np_arange (Daisy.T p) (Daisy.sample_interval p)) ->
        Daisy._generate_scan p = Raise (ValueError "All arrays must be of the same length")).
Proof.
  intros H0 Ht Ha Hdt HT.
  destruct (daisy_steps_spec p Hdt HT) as [Esteps HN].
  destruct (daisy_generate_scan_spec p H0 Ht Ha Hdt HT) as [Heven Huneven].
  set (q := Daisy.T p / Daisy.sample_interval p) in *.
  assert (HM : (pyfloor q <= pyceil q)%Z).
  { pose proof (Zfloor_bound q) as [Hlo _]. pose proof (Zceil_bound q) as [_ Hhi].
    unfold pyfloor, pyceil. apply le_IZR. lra. }
  exists (pyfloor q). split; [exact Esteps | split; [exact HN |]].
  rewrite np_arange_spec, uniform_times_length. fold q.
  split.
  - intros E. assert (E' : pyfloor q = pyceil q) by lia.
    destruct (Heven E') as (data & Ed & Hlen & Htimes).
    exists data. split; [exact Ed | split; [exact Hlen |]].
    rewrite Htimes, E'. reflexivity.
  - intros E. apply Huneven. intros E'. apply E. now rewrite E'.
Qed.

Lemma daisy_returns_iff_counts_agree_witness :
  exists N,
    Daisy.steps daisy_even = Ok N /\ (0 <= N)%Z
    /\ (Z.to_nat N
        = length (np_arange (Daisy.T daisy_even) (Daisy.sample_interval daisy_even)) ->
        exists data, Daisy._generate_scan daisy_even = Ok data
          /\ length data = Z.to_nat N
          /\ SkyPattern.time_offsets data
             = np_arange (Daisy.T daisy_even) (Daisy.sample_interval daisy_even))
    /\ (Z.to_nat N
        <> length (np_arange (Daisy.T daisy_even) (Daisy.sample_interval daisy_even)) ->
        Daisy._generate_scan daisy_even
        = Raise (ValueError "All arrays must be of the same length")).
Proof.
  apply (daisy_returns_iff_counts_agree daisy_even); simpl; lra.
Defined.

(** ** TelescopePattern: angles *)

(** X16.  [_norm_angle] is idempotent, and it puts the first sample at its
    value modulo 360: normalising an already normalised azimuth column
    changes nothing. *)
Theorem norm_angle_idempotent az az' :
  TelescopePattern._norm_angle az = Ok az' ->
  TelescopePattern._norm_angle az' = Ok az'
  /\ nth 0 az' 0 = pymod (nth 0 az 0) 360.
Proof.
  intros H. destruct az as [| a0 rest]; [discriminate |].
  cbn [TelescopePattern._norm_angle] in H. inversion H as [E]. clear H E.
  set (low := pymod a0 360 - 180).
  assert (E0 : pymod (a0 - low) 360 + low = pymod a0 360).
  { destruct (pymod_congruent a0) as [k Ek].
    replace (a0 - low) with (180 + 360 * IZR (- k))
      by (unfold low; rewrite Ek, opp_IZR; ring).
    rewrite pymod_add_turns by lra. rewrite pymod_small by lra. unfold low. ring. }
  cbn [map nth]. rewrite E0. split; [| reflexivity].
  apply norm_angle_fixed.
  rewrite (pymod_small (pymod a0 360)) by (apply pymod_bound; lra).
  fold low. constructor.
  - unfold in_window, low. lra.
  - apply Forall_forall. intros o Ho. apply in_map_iff in Ho.
    destruct Ho as (a & <- & _). apply norm_sample.
Qed.

Lemma norm_angle_idempotent_witness :
  TelescopePattern._norm_angle
    (map (fun a => pymod (a - (pymod 400 360 - 180)) 360 + (pymod 400 360 - 180)) [400; 10])
  = Ok (map (fun a => pymod (a - (pymod 400 360 - 180)) 360 + (pymod 400 360 - 180)) [400; 10])
  /\ nth 0 (map (fun a => pymod (a - (pymod 400 360 - 180)) 360 + (pymod 400 360 - 180))
                [400; 10]) 0
     = pymod (nth 0 [400; 10] 0) 360.
Proof.
  apply (norm_angle_idempotent [400; 10]). reflexivity.
Defined.

Lemma degrees_bounds r lo hi :
  radians lo <= r <= radians hi -> lo <= degrees r <= hi.
Proof.
  unfold radians, degrees. intros [Hlo Hhi].
  pose proof PI_RGT_0 as Hpi.
  assert (Hk : 0 < 180 / PI) by (apply Rdiv_lt_0_compat; lra).
  assert (E1 : lo = lo * (PI / 180) * (180 / PI)) by (field; lra).
  assert (E2 : hi = hi * (PI / 180) * (180 / PI)) by (field; lra).
  split.
  - rewrite E1. apply Rmult_le_compat_r; lra.
  - rewrite E2. apply Rmult_le_compat_r; lra.
Qed.

(** X17.  The azimuth computed from a sky sample is in range: away from
    the poles of the site and with the source off the zenith and the nadir
    (so that the divisor [cos(alt)*cos(lat)] is not zero), the azimuth lies
    in [[0, 360]] degrees, whichever side of the meridian the source is
    on. *)
Theorem from_sky_sample_azimuth_range ra dec lat_rad lst s :
  cos lat_rad <> 0 ->
  -90 < snd (TelescopePattern.from_sky_sample ra dec lat_rad lst s) < 90 ->
  0 <= fst (TelescopePattern.from_sky_sample ra dec lat_rad lst s) <= 360.
Proof.
  intros _ _. unfold TelescopePattern.from_sky_sample. cbv zeta. cbn [fst].
  pose proof PI_RGT_0 as Hpi.
  apply degrees_bounds. unfold radians.
  match goal with |- _ <= (if _ then _ - acos ?q else _) <= _ =>
    pose proof (acos_bound q) as Hb end.
  destruct (Rgtb _ _); lra.
Qed.

Lemma from_sky_sample_azimuth_range_witness :
  0 <= fst (TelescopePattern.from_sky_sample 0 0 0 6 (mkSample 0 0 0)) <= 360.
Proof.
  apply (from_sky_sample_azimuth_range 0 0 0 6 (mkSample 0 0 0)).
  - rewrite cos_0. lra.
  - assert (E : snd (TelescopePattern.from_sky_sample 0 0 0 6 (mkSample 0 0 0)) = 0).
    { unfold TelescopePattern.from_sky_sample. cbv zeta. cbn [snd x_coord y_coord].
      replace (radians (0 + 0)) with 0 by (unfold radians; ring).
      replace ((6 - (0 + 0) / 15) * (PI / 12)) with (PI / 2) by field.
      rewrite sin_0, cos_0, cos_PI2.
      replace (0 * 0 + 1 * 1 * 0) with 0 by ring.
      rewrite asin_0. unfold degrees. ring. }
    rewrite E. lra.
Defined.

(** ** TelescopePattern: the start elevation *)

Lemma pyasin_sin a : - (PI / 2) <= a <= PI / 2 -> pyasin (sin a) = Ok a.
Proof.
  intros H. unfold pyasin. pose proof (SIN_bound a) as [Hlo Hhi].
  rewrite (Rltb_false (sin a) (-1)), (Rltb_false 1 (sin a)) by lra.
  cbn [orb]. now rewrite asin_sin.
Qed.

(** X18.  The hour angle found for a start elevation does reach it: when
    the [start_el] branch returns an hour angle, the altitude of the source
    at that hour angle is the requested elevation. *)
Theorem start_el_hrang_reaches_altitude alt dec lat up h :
  - (PI / 2) <= alt <= PI / 2 ->
  TelescopePattern.start_el_hrang alt dec lat up = Ok h ->
  TelescopePattern.altitude dec lat h = Ok alt.
Proof.
  intros Halt H. unfold TelescopePattern.start_el_hrang, pydiv in H.
  destruct (Reqb (cos dec * cos lat) 0) eqn:Ez; cbn [bind] in H; [discriminate |].
  unfold Reqb in Ez. destruct (Req_dec_T (cos dec * cos lat) 0) as [| Hnz]; [discriminate |].
  set (q := (sin alt - sin dec * sin lat) / (cos dec * cos lat)) in *.
  unfold pyacos, Rltb in H.
  destruct (Rlt_dec q (-1)) as [| Hlo]; cbn [orb bind] in H; [discriminate |].
  destruct (Rlt_dec 1 q) as [| Hhi]; cbn [orb bind] in H; [discriminate |].
  assert (Hcos : cos (acos q) = q) by (apply cos_acos; lra).
  assert (Hgoal : forall h', cos h' = q -> TelescopePattern.altitude dec lat h' = Ok alt).
  { intros h' Eh. unfold TelescopePattern.altitude. rewrite Eh.
    replace (sin dec * sin lat + cos dec * cos lat * q) with (sin alt)
      by (unfold q; field; split; intros E; apply Hnz; rewrite E; ring).
    now apply pyasin_sin. }
  repeat match type of H with
         | context [TelescopePattern.altitude ?d ?l ?x] =>
             destruct (TelescopePattern.altitude d l x); cbn [bind] in H; try discriminate
         end.
  unfold assert in H.
  destruct (negb _); [| discriminate].
  destruct (_ || _); inversion H; subst h; apply Hgoal.
  - now rewrite cos_neg.
  - exact Hcos.
Qed.

Lemma radians_1_small : 0 < radians 1 < PI / 2.
Proof. unfold radians. pose proof PI_RGT_0. lra. Qed.

(** On the equator, a source on the celestial equator rises through the
    horizon at hour angle -90 degrees. *)
Lemma start_el_hrang_equator :
  TelescopePattern.start_el_hrang 0 0 0 true = Ok (- (PI / 2)).
Proof.
  pose proof radians_1_small as Hr. pose proof PI_RGT_0 as Hpi.
  assert (Ealt : forall ha, TelescopePattern.altitude 0 0 ha = pyasin (cos ha)).
  { intros ha. unfold TelescopePattern.altitude. rewrite sin_0, cos_0. f_equal. ring. }
  unfold TelescopePattern.start_el_hrang.
  rewrite sin_0, cos_0. rewrite pydiv_ok by lra. cbn [bind].
  replace ((0 - 0 * 0) / (1 * 1)) with 0 by field.
  unfold pyacos. rewrite (Rltb_false 0 (-1)), (Rltb_false 1 0) by lra.
  cbn [orb bind]. rewrite acos_0.
  rewrite Ealt.
  replace (cos (PI / 2 + radians 1)) with (sin (- radians 1))
    by (rewrite <- (sin_shift (PI / 2 + radians 1)); f_equal; ring).
  rewrite pyasin_sin by lra. cbn [bind].
  rewrite Ealt.
  replace (cos (PI / 2)) with (sin 0) by (rewrite sin_0, cos_PI2; reflexivity).
  rewrite pyasin_sin by lra. cbn [bind].
  rewrite Ealt.
  replace (cos (- (PI / 2) + radians 1)) with (sin (radians 1))
    by (rewrite <- (cos_shift (radians 1)), <- cos_neg; f_equal; ring).
  rewrite pyasin_sin by lra. cbn [bind].
  rewrite Ealt.
  replace (cos (- (PI / 2))) with (sin 0) by (rewrite sin_0, cos_neg, cos_PI2; reflexivity).
  rewrite pyasin_sin by lra. cbn [bind].
  unfold Rgtb. rewrite (Rltb_false 0 (- radians 1 - 0)), (Rltb_true 0 (radians 1 - 0)) by lra.
  reflexivity.
Qed.

Lemma start_el_hrang_reaches_altitude_witness :
  TelescopePattern.altitude 0 0 (- (PI / 2)) = Ok 0.
Proof.
  apply (start_el_hrang_reaches_altitude 0 0 0 true (- (PI / 2))).
  - pose proof PI_RGT_0. lra.
  - exact start_el_hrang_equator.
Defined.

(** X19.  An elevation the source never reaches is refused: when the
    cosine of the hour angle would have to lie outside [[-1, 1]], the
    [start_el] branch raises [ValueError] with its own message. *)
Theorem start_el_unreachable_raises alt dec lat up :
  cos dec * cos lat <> 0 ->
  (let q := (sin alt - sin dec * sin lat) / (cos dec * cos lat) in q < -1 \/ 1 < q) ->
  TelescopePattern.start_el_hrang alt dec lat up
  = Raise (ValueError "Altitude is not possible at provided ra, dec, and latitude.").
Proof.
  intros Hnz Hq. cbv zeta in Hq. unfold TelescopePattern.start_el_hrang.
  rewrite pydiv_ok by exact Hnz. cbn [bind]. unfold pyacos.
  destruct Hq as [Hq | Hq].
  - rewrite (Rltb_true _ (-1)) by exact Hq. reflexivity.
  - rewrite (Rltb_true 1) by exact Hq. rewrite orb_true_r. reflexivity.
Qed.

Lemma start_el_unreachable_raises_witness :
  TelescopePattern.start_el_hrang (PI / 2) 0 (PI / 3) true
  = Raise (ValueError "Altitude is not possible at provided ra, dec, and latitude.").
Proof.
  apply (start_el_unreachable_raises (PI / 2) 0 (PI / 3) true).
  - rewrite cos_0, cos_PI3. lra.
  - cbv zeta. rewrite sin_PI2, sin_0, cos_0, cos_PI3. right. lra.
Defined.

(** ** TelescopePattern: where a module is *)

Lemma arctan2_scale d y x : 0 < d -> arctan2 (d * y) (d * x) = arctan2 y x.
Proof.
  intros Hd. unfold arctan2.
  destruct (Rtotal_order x 0) as [Hx | [Hx | Hx]].
  - rewrite (Rltb_false 0 (d * x)), (Rltb_false 0 x), (Rltb_true (d * x) 0),
      (Rltb_true x 0) by nra.
    replace (d * y / (d * x)) with (y / x) by (field; lra).
    destruct (Rle_dec 0 y).
    + rewrite !Rleb_true by nra. reflexivity.
    + rewrite !Rleb_false by nra. reflexivity.
  - subst x. rewrite Rmult_0_r. rewrite !(Rltb_false 0 0) by lra.
    destruct (Rtotal_order y 0) as [Hy | [Hy | Hy]].
    + rewrite (Rltb_false 0 (d * y)), (Rltb_false 0 y), (Rltb_true (d * y) 0),
        (Rltb_true y 0) by nra. reflexivity.
    + subst y. rewrite Rmult_0_r. reflexivity.
    + rewrite (Rltb_true 0 (d * y)), (Rltb_true 0 y) by nra. reflexivity.
  - rewrite (Rltb_true 0 (d * x)), (Rltb_true 0 x) by nra. f_equal. field. lra.
Qed.

(** X20.  With the instrument on the boresight (zero instrument offset),
    a module at distance [dist > 0] and angle [theta] of an instrument
    rotated by [instr_rot] is at the same distance from the boresight and
    at angle [theta + instr_rot], up to whole turns. *)
Theorem true_module_loc_rotates ins dist theta :
  TelescopePattern.instr_x ins = 0 -> TelescopePattern.instr_y ins = 0 -> 0 < dist ->
  exists new_theta,
    TelescopePattern._true_module_loc (Some ins) (TelescopePattern.offset dist theta)
    = Ok (dist, new_theta)
    /\ congruent_360 (theta + TelescopePattern.instr_rot ins) new_theta.
Proof.
  intros Hx Hy Hd. unfold TelescopePattern._true_module_loc.
  cbn [TelescopePattern.getattr bind]. rewrite Hx, Hy.
  set (A := radians theta + radians (TelescopePattern.instr_rot ins)).
  replace (dist * cos (radians theta) * cos (radians (TelescopePattern.instr_rot ins))
           - dist * sin (radians theta) * sin (radians (TelescopePattern.instr_rot ins)) + 0)
    with (dist * cos A) by (unfold A; rewrite cos_plus; ring).
  replace (dist * cos (radians theta) * sin (radians (TelescopePattern.instr_rot ins))
           + dist * sin (radians theta) * cos (radians (TelescopePattern.instr_rot ins)) + 0)
    with (dist * sin A) by (unfold A; rewrite sin_plus; ring).
  replace (dist * cos A * (dist * cos A) + dist * sin A * (dist * sin A))
    with (dist * dist)
    by (pose proof (sin2_cos2 A) as E; unfold Rsqr in E; nra).
  rewrite pysqrt_ok by nra. cbn [bind]. rewrite sqrt_square by lra.
  eexists. split; [reflexivity |].
  rewrite arctan2_scale by exact Hd.
  destruct (arctan2_sin_cos A) as [k ->].
  exists k. unfold A, degrees, radians. pose proof PI_RGT_0. field. lra.
Qed.

Lemma true_module_loc_rotates_witness :
  exists new_theta,
    TelescopePattern._true_module_loc (Some (TelescopePattern.mkInstrument 0 0 30))
      (TelescopePattern.offset 2 45)
    = Ok (2, new_theta)
    /\ congruent_360 (45 + TelescopePattern.instr_rot (TelescopePattern.mkInstrument 0 0 30))
                     new_theta.
Proof.
  apply (true_module_loc_rotates (TelescopePattern.mkInstrument 0 0 30) 2 45);
    [reflexivity | reflexivity | lra].
Defined.

Lemma arctan2_0_0 : arctan2 0 0 = 0.
Proof. unfold arctan2. rewrite !(Rltb_false 0 0) by lra. reflexivity. Qed.

Lemma true_module_loc_centre ins theta :
  TelescopePattern.instr_x ins = 0 -> TelescopePattern.instr_y ins = 0 ->
  TelescopePattern._true_module_loc (Some ins) (TelescopePattern.offset 0 theta) = Ok (0, 0).
Proof.
  intros Hx Hy. unfold TelescopePattern._true_module_loc.
  cbn [TelescopePattern.getattr bind]. rewrite Hx, Hy.
  rewrite !Rmult_0_l, Rminus_0_r, !Rplus_0_r, !Rmult_0_l, Rplus_0_r.
  rewrite pysqrt_ok by lra. cbn [bind].
  rewrite sqrt_0, arctan2_0_0. unfold degrees. now rewrite Rmult_0_l.
Qed.

(** X21.  A module at distance 0 of an instrument on the boresight is the
    boresight: the constructor takes the guarded branch, never calls the
    root solver, and returns what it returns for ['boresight'], whatever
    the module angle and the instrument rotation. *)
Theorem init_centre_module_is_boresight (datetime : Type)
  (sidereal_time : datetime -> location -> R)
  (root_scalar : (R -> R) -> R -> R -> R -> R -> outcome R)
  data ins theta kw :
  TelescopePattern.instr_x ins = 0 -> TelescopePattern.instr_y ins = 0 ->
  TelescopePattern.__init__ datetime sidereal_time root_scalar data (Some ins)
    (TelescopePattern.offset 0 theta) kw
  = TelescopePattern.__init__ datetime sidereal_time root_scalar data (Some ins)
      TelescopePattern.boresight kw.
Proof.
  intros Hx Hy. unfold TelescopePattern.__init__.
  cbn [TelescopePattern._clean_param bind].
  destruct (TelescopePattern.load_data datetime sidereal_time _ data)
    as [[[[[si t] l] az] alt] | |]; cbn [bind]; try reflexivity.
  rewrite (true_module_loc_centre ins theta Hx Hy).
  cbn [TelescopePattern._true_module_loc bind].
  rewrite (Reqb_true 0 0) by reflexivity. reflexivity.
Qed.

Lemma init_centre_module_is_boresight_witness :
  TelescopePattern.__init__ unit (fun _ _ => 0) bracket_check_solver
    (TelescopePattern.from_table two_rows) (Some (TelescopePattern.mkInstrument 0 0 30))
    (TelescopePattern.offset 0 45) no_basis_kw
  = TelescopePattern.__init__ unit (fun _ _ => 0) bracket_check_solver
      (TelescopePattern.from_table two_rows) (Some (TelescopePattern.mkInstrument 0 0 30))
      TelescopePattern.boresight no_basis_kw.
Proof.
  apply (init_centre_module_is_boresight unit (fun _ _ => 0) bracket_check_solver
           (TelescopePattern.from_table two_rows) (TelescopePattern.mkInstrument 0 0 30)
           45 no_basis_kw); reflexivity.
Defined.

(** ** Python dicts *)

Section DictFacts.

Context {V : Type}.
Implicit Types (d : PyDict.t V) (k : string) (v : V).

Lemma get_set_same d k v : PyDict.get (PyDict.set d k v) k = Some v.
Proof.
  induction d as [| [k' v'] d IH]; cbn [PyDict.set PyDict.get].
  - now rewrite String.eqb_refl.
  - destruct (String.eqb k' k) eqn:E; cbn [PyDict.get]; rewrite E; [reflexivity | exact IH].
Qed.

Lemma get_set_other d k k' v : k <> k' -> PyDict.get (PyDict.set d k v) k' = PyDict.get d k'.
Proof.
  intros Hne. induction d as [| [k0 v0] d IH]; cbn [PyDict.set PyDict.get].
  - apply String.eqb_neq in Hne. now rewrite Hne.
  - destruct (String.eqb k0 k) eqn:E; cbn [PyDict.get].
    + apply String.eqb_eq in E. subst k0.
      apply String.eqb_neq in Hne. now rewrite Hne.
    + now rewrite IH.
Qed.

Lemma get_remove_same d k : PyDict.get (PyDict.remove d k) k = None.
Proof.
  induction d as [| [k0 v0] d IH]; cbn [PyDict.remove PyDict.get]; [reflexivity |].
  destruct (String.eqb k0 k) eqn:E; [exact IH |].
  cbn [PyDict.get]. now rewrite E.
Qed.

Lemma get_remove_other d k k' : k <> k' -> PyDict.get (PyDict.remove d k) k' = PyDict.get d k'.
Proof.
  intros Hne. induction d as [| [k0 v0] d IH]; cbn [PyDict.remove PyDict.get]; [reflexivity |].
  destruct (String.eqb k0 k) eqn:E.
  - apply String.eqb_eq in E. subst k0.
    apply String.eqb_neq in Hne. now rewrite Hne.
  - cbn [PyDict.get]. now rewrite IH.
Qed.

Lemma remove_set_fresh d k v : PyDict.get d k = None -> PyDict.remove (PyDict.set d k v) k = d.
Proof.
  induction d as [| [k0 v0] d IH]; cbn [PyDict.set PyDict.get PyDict.remove]; intros H.
  - now rewrite String.eqb_refl.
  - destruct (String.eqb k0 k) eqn:E; [discriminate |].
    cbn [PyDict.remove]. rewrite E. now rewrite IH.
Qed.

Lemma mem_get d k v : PyDict.get d k = Some v -> PyDict.mem d k = true.
Proof. unfold PyDict.mem. now intros ->. Qed.

Lemma getitem_get d k v : PyDict.get d k = Some v -> PyDict.getitem d k = Ok v.
Proof. unfold PyDict.getitem. now intros ->. Qed.

End DictFacts.

(** ** Instrument: adding, changing and deleting modules *)

Section InstrumentFacts.
Import Instrument.

Variable module_obj : Type.
Variables CMBPol SFH EoRSpec Mod280 : module_obj.
Variable slots : PyDict.t (R * R).

Implicit Types (self : Instrument.t module_obj) (e : entry module_obj) (id : string).

Local Abbreviation add_module := (Instrument.add_module CMBPol SFH EoRSpec Mod280 slots).
Local Abbreviation change_module := (Instrument.change_module slots).

(** What the getters return for an identifier that is bound. *)
Lemma getters_of_entry self id e :
  PyDict.get (_modules self) id = Some e ->
  get_module self id = Ok (module e)
  /\ get_location self id = Ok (dist e, theta e)
  /\ get_dist self id = Ok (dist e)
  /\ get_theta self id = Ok (theta e)
  /\ get_mod_rot self id = Ok (mod_rot e).
Proof.
  intros H.
  unfold get_module, get_location, get_dist, get_theta, get_mod_rot, _check_identifier.
  rewrite (mem_get _ _ _ H), (getitem_get _ _ _ H). cbn [bind].
  repeat split; reflexivity.
Qed.

(** Every method behind [_check_identifier] refuses an unbound identifier. *)
Lemma getters_of_unbound self id :
  PyDict.get (_modules self) id = None ->
  get_location self id = Raise (ValueError "identifier is not valid")
  /\ get_module self id = Raise (ValueError "identifier is not valid").
Proof.
  intros H. unfold get_location, get_module, _check_identifier, PyDict.mem.
  rewrite H. split; reflexivity.
Qed.

(** The getters read one binding of [_modules] each. *)
Lemma getters_same_binding self self' id :
  PyDict.get (_modules self') id = PyDict.get (_modules self) id ->
  get_module self' id = get_module self id
  /\ get_location self' id = get_location self id
  /\ get_mod_rot self' id = get_mod_rot self id.
Proof.
  intros H.
  unfold get_module, get_location, get_mod_rot, _check_identifier,
    PyDict.mem, PyDict.getitem.
  rewrite H. repeat split; reflexivity.
Qed.

Lemma add_module_object self m loc rot id :
  add_module self (inl m) (inl loc) rot (Some id)
  = Ok (mkT (instr_offset self) (instr_rot self)
            (PyDict.set (_modules self) id (mkEntry m (fst loc) (snd loc) rot))).
Proof. reflexivity. Qed.

(** X22.  What is added can be read back: after [add_module] with a
    Module object, a location pair, a rotation and an identifier, the
    getters return that module, that location and that rotation under the
    identifier, whether or not the identifier was in use before; the
    instrument offset and rotation are kept. *)
Theorem add_module_then_get self m d th rot id :
  exists self',
    add_module self (inl m) (inl (d, th)) rot (Some id) = Ok self'
    /\ get_module self' id = Ok m
    /\ get_location self' id = Ok (d, th)
    /\ get_dist self' id = Ok d
    /\ get_theta self' id = Ok th
    /\ get_mod_rot self' id = Ok rot
    /\ instr_offset self' = instr_offset self
    /\ instr_rot self' = instr_rot self.
Proof.
  eexists. split; [apply add_module_object |].
  destruct (getters_of_entry
              (mkT (instr_offset self) (instr_rot self)
                   (PyDict.set (_modules self) id (mkEntry m d th rot)))
              id (mkEntry m d th rot)) as (H1 & H2 & H3 & H4 & H5).
  { cbn [_modules]. apply get_set_same. }
  cbn [fst snd]. repeat split; assumption.
Qed.

(** X23.  Adding a module leaves the others alone: for any other
    identifier the getters return, or raise, what they did before. *)
Theorem add_module_keeps_others self m loc rot id self' id' :
  add_module self (inl m) (inl loc) rot (Some id) = Ok self' ->
  id' <> id ->
  get_module self' id' = get_module self id'
  /\ get_location self' id' = get_location self id'
  /\ get_mod_rot self' id' = get_mod_rot self id'.
Proof.
  rewrite add_module_object. intros H Hne. inversion H; subst self'. clear H.
  apply getters_same_binding. cbn [_modules].
  apply get_set_other. congruence.
Qed.

(** X24.  The defaults resolve by name: adding one of the four default
    modules by its name at a slot given by name stores that default under
    its own name, when no identifier is passed, at the location of the
    slot. *)
Theorem add_default_module_at_slot self name m slot_name loc rot :
  In (name, m) (default_modules CMBPol SFH EoRSpec Mod280) ->
  PyDict.get slots slot_name = Some loc ->
  exists self',
    add_module self (inr name) (inr slot_name) rot None = Ok self'
    /\ get_module self' name = Ok m
    /\ get_location self' name = Ok loc
    /\ get_mod_rot self' name = Ok rot.
Proof.
  intros Hin Hslot.
  assert (E : add_module self (inr name) (inr slot_name) rot None
              = Ok (mkT (instr_offset self) (instr_rot self)
                        (PyDict.set (_modules self) name
                           (mkEntry m (fst loc) (snd loc) rot)))).
  { unfold Instrument.add_module. rewrite (getitem_get _ _ _ Hslot).
    cbn [In default_modules] in Hin.
    destruct Hin as [H | [H | [H | [H | []]]]]; inversion H; subst; reflexivity. }
  eexists. split; [exact E |].
  destruct (getters_of_entry
              (mkT (instr_offset self) (instr_rot self)
                   (PyDict.set (_modules self) name (mkEntry m (fst loc) (snd loc) rot)))
              name (mkEntry m (fst loc) (snd loc) rot)) as (H1 & H2 & _ & _ & H5).
  { cbn [_modules]. apply get_set_same. }
  cbn [module dist theta mod_rot] in H1, H2, H5.
  rewrite <- surjective_pairing in H2. repeat split; assumption.
Qed.

Lemma instrument_eta self :
  mkT (instr_offset self) (instr_rot self) (_modules self) = self.
Proof. destruct self. reflexivity. Qed.

Lemma delete_module_bound self id e :
  PyDict.get (_modules self) id = Some e ->
  delete_module self id
  = Ok (mkT (instr_offset self) (instr_rot self) (PyDict.remove (_modules self) id)).
Proof.
  intros H. unfold delete_module, _check_identifier, PyDict.pop.
  rewrite (mem_get _ _ _ H), H. reflexivity.
Qed.

Lemma delete_module_result self id self' :
  delete_module self id = Ok self' ->
  self' = mkT (instr_offset self) (instr_rot self) (PyDict.remove (_modules self) id).
Proof.
  unfold delete_module, _check_identifier, PyDict.mem, PyDict.pop.
  destruct (PyDict.get (_modules self) id); [| discriminate].
  cbn [bind]. intros H. now inversion H.
Qed.

(** X25.  A deleted module is gone and only it: after [delete_module] the
    identifier is refused with [ValueError] by the getters, and every other
    identifier reads as before. *)
Theorem delete_module_forgets self id self' :
  delete_module self id = Ok self' ->
  get_location self' id = Raise (ValueError "identifier is not valid")
  /\ get_module self' id = Raise (ValueError "identifier is not valid")
  /\ (forall id', id' <> id ->
        get_module self' id' = get_module self id'
        /\ get_location self' id' = get_location self id'
        /\ get_mod_rot self' id' = get_mod_rot self id').
Proof.
  intros H. apply delete_module_result in H. subst self'.
  destruct (getters_of_unbound
              (mkT (instr_offset self) (instr_rot self) (PyDict.remove (_modules self) id)) id)
    as [H1 H2].
  { cbn [_modules]. apply get_remove_same. }
  split; [exact H1 | split; [exact H2 |]].
  intros id' Hne. apply getters_same_binding. cbn [_modules].
  apply get_remove_other. congruence.
Qed.

(** X26.  Adding a module under an unused identifier and deleting it again
    gives the instrument back as it was, the order of its modules
    included. *)
Theorem add_then_delete_restores self m loc rot id :
  PyDict.get (_modules self) id = None ->
  exists self1,
    add_module self (inl m) (inl loc) rot (Some id) = Ok self1
    /\ delete_module self1 id = Ok self.
Proof.
  intros H. eexists. split; [apply add_module_object |].
  erewrite delete_module_bound by (cbn [_modules]; apply get_set_same).
  cbn [_modules instr_offset instr_rot].
  rewrite remove_set_fresh by exact H. now rewrite instrument_eta.
Qed.

(** X27.  Renaming moves the module: after [change_module] with only a
    new identifier, the new identifier reads the module, location and
    rotation that the old one had (replacing whatever the new identifier
    held), the old identifier is refused when it differs from the new one,
    and the other identifiers read as before. *)
Theorem change_module_renames self id e new_id :
  PyDict.get (_modules self) id = Some e ->
  exists self',
    change_module self id None None (Some new_id) = Ok self'
    /\ get_module self' new_id = Ok (module e)
    /\ get_location self' new_id = Ok (dist e, theta e)
    /\ get_mod_rot self' new_id = Ok (mod_rot e)
    /\ (new_id <> id ->
        get_location self' id = Raise (ValueError "identifier is not valid"))
    /\ (forall id', id' <> id -> id' <> new_id ->
        get_location self' id' = get_location self id').
Proof.
  intros H.
  exists (mkT (instr_offset self) (instr_rot self)
              (PyDict.set (PyDict.remove (_modules self) id) new_id e)).
  split.
  { unfold Instrument.change_module, _check_identifier, PyDict.pop.
    rewrite (mem_get _ _ _ H), H. reflexivity. }
  destruct (getters_of_entry
              (mkT (instr_offset self) (instr_rot self)
                   (PyDict.set (PyDict.remove (_modules self) id) new_id e)) new_id e)
    as (H1 & H2 & _ & _ & H5).
  { cbn [_modules]. apply get_set_same. }
  split; [exact H1 | split; [exact H2 | split; [exact H5 | split]]].
  - intros Hne. apply getters_of_unbound. cbn [_modules].
    rewrite get_set_other by exact Hne. apply get_remove_same.
  - intros id' Hne Hne'. apply getters_same_binding. cbn [_modules].
    rewrite get_set_other by congruence. apply get_remove_other. congruence.
Qed.

(** X28.  [change_module] changes what it is given and keeps the rest:
    with a location passed as a list whose parts may be [None], and an
    optional rotation, the module keeps its Module object, takes the parts
    that were given and keeps its old distance, angle or rotation for the
    parts that were [None]. *)
Theorem change_module_updates self id e d th r :
  PyDict.get (_modules self) id = Some e ->
  exists self',
    change_module self id (Some (as_list d th)) r None = Ok self'
    /\ get_module self' id = Ok (module e)
    /\ get_location self' id
       = Ok (match d with Some v => v | None => dist e end,
             match th with Some v => v | None => theta e end)
    /\ get_mod_rot self' id = Ok (match r with Some v => v | None => mod_rot e end)
    /\ (forall id', id' <> id -> get_location self' id' = get_location self id').
Proof.
  intros H.
  set (d' := match d with Some v => v | None => dist e end).
  set (th' := match th with Some v => v | None => theta e end).
  set (r' := match r with Some v => v | None => mod_rot e end).
  set (m1 := PyDict.set (_modules self) id (mkEntry (module e) d' (theta e) (mod_rot e))).
  set (m2 := PyDict.set m1 id (mkEntry (module e) d' th' (mod_rot e))).
  set (m3 := match r with
             | Some v => PyDict.set m2 id (mkEntry (module e) d' th' v)
             | None => m2
             end).
  assert (G3 : PyDict.get m3 id = Some (mkEntry (module e) d' th' r')).
  { unfold m3, r'. destruct r; apply get_set_same. }
  assert (F3 : forall id', id' <> id -> PyDict.get m3 id' = PyDict.get (_modules self) id').
  { intros id' Hne. unfold m3.
    destruct r; unfold m2, m1; rewrite !get_set_other by congruence; reflexivity. }
  exists (mkT (instr_offset self) (instr_rot self) m3).
  split.
  { unfold Instrument.change_module, _check_identifier.
    rewrite (mem_get _ _ _ H). cbn [bind].
    assert (Ed : fill_part true d (e0 <- PyDict.getitem (_modules self) id ;; Ok (dist e0))
                 = Ok d').
    { unfold fill_part, d'. destruct d; [reflexivity |].
      rewrite (getitem_get _ _ _ H). reflexivity. }
    assert (Et : fill_part true th (e0 <- PyDict.getitem (_modules self) id ;; Ok (theta e0))
                 = Ok th').
    { unfold fill_part, th'. destruct th; [reflexivity |].
      rewrite (getitem_get _ _ _ H). reflexivity. }
    rewrite Ed. cbn [bind]. rewrite Et. cbn [bind fst snd].
    rewrite (getitem_get _ _ _ H). cbn [bind]. fold m1.
    rewrite (getitem_get m1 id _ (get_set_same _ _ _)). cbn [bind module dist mod_rot].
    fold m2. unfold m3. destruct r; [| reflexivity].
    rewrite (getitem_get m2 id _ (get_set_same _ _ _)). reflexivity. }
  destruct (getters_of_entry (mkT (instr_offset self) (instr_rot self) m3) id _ G3)
    as (H1 & H2 & _ & _ & H5).
  split; [exact H1 | split; [exact H2 | split; [exact H5 |]]].
  intros id' Hne. apply getters_same_binding. cbn [_modules]. now apply F3.
Qed.

(** X29.  A tuple with a [None] part cannot be completed: given the
    location as a tuple in which the distance or the angle is [None],
    [change_module] raises [TypeError] (the tuple refuses the assignment
    of the old value), with or without a new identifier or rotation. *)
Theorem change_module_tuple_with_none_raises self id e d th r new_id :
  PyDict.get (_modules self) id = Some e ->
  d = None \/ th = None ->
  change_module self id (Some (as_tuple d th)) r new_id
  = Raise (TypeError "'tuple' object does not support item assignment").
Proof.
  intros H Hnone. unfold Instrument.change_module, _check_identifier.
  rewrite (mem_get _ _ _ H).
  assert (Hfill : forall mods k e0,
            PyDict.get mods k = Some e0 ->
            (d0 <- fill_part false d (e1 <- PyDict.getitem mods k ;; Ok (dist e1)) ;;
             th0 <- fill_part false th (e1 <- PyDict.getitem mods k ;; Ok (theta e1)) ;;
             @Ok (R * R) (d0, th0))
            = Raise (TypeError "'tuple' object does not support item assignment")).
  { intros mods k e0 Hk. unfold fill_part. rewrite (getitem_get _ _ _ Hk).
    destruct Hnone as [-> | ->]; [reflexivity |].
    destruct d; reflexivity. }
  destruct new_id as [new_id |].
  - unfold PyDict.pop. rewrite H. cbn [bind].
    rewrite (Hfill _ new_id e (get_set_same _ _ _)). reflexivity.
  - cbn [bind]. rewrite (Hfill _ id e H). reflexivity.
Qed.

End InstrumentFacts.

Lemma add_module_keeps_others_witness :
  Instrument.get_module
    (Instrument.mkT (0, 0) 0
       (PyDict.set (Instrument._modules one_module) "b"
          (Instrument.mkEntry "CMBPol"%string 2 30 0))) "a"
  = Instrument.get_module one_module "a"
  /\ Instrument.get_location
       (Instrument.mkT (0, 0) 0
          (PyDict.set (Instrument._modules one_module) "b"
             (Instrument.mkEntry "CMBPol"%string 2 30 0))) "a"
     = Instrument.get_location one_module "a"
  /\ Instrument.get_mod_rot
       (Instrument.mkT (0, 0) 0
          (PyDict.set (Instrument._modules one_module) "b"
             (Instrument.mkEntry "CMBPol"%string 2 30 0))) "a"
     = Instrument.get_mod_rot one_module "a".
Proof.
  apply (add_module_keeps_others string "CMBPol"%string "SFH"%string "EoRSpec"%string
           "Mod280"%string PrimeCam_slots one_module "CMBPol"%string (2, 30) 0 "b"%string
           _ "a"%string).
  - reflexivity.
  - discriminate.
Defined.

Lemma add_default_module_at_slot_witness :
  exists self',
    Instrument.add_module "CMBPol"%string "SFH"%string "EoRSpec"%string "Mod280"%string
      PrimeCam_slots one_module (inr "EoRSpec"%string) (inr "i1"%string) 0 None = Ok self'
    /\ Instrument.get_module self' "EoRSpec" = Ok "EoRSpec"%string
    /\ Instrument.get_location self' "EoRSpec" = Ok (178 / 100, -90)
    /\ Instrument.get_mod_rot self' "EoRSpec" = Ok 0.
Proof.
  apply (add_default_module_at_slot string "CMBPol"%string "SFH"%string "EoRSpec"%string
           "Mod280"%string PrimeCam_slots one_module "EoRSpec"%string "EoRSpec"%string
           "i1"%string (178 / 100, -90) 0).
  - simpl. auto.
  - reflexivity.
Defined.

Lemma delete_module_forgets_witness :
  Instrument.get_location (Instrument.mkT (0, 0) 0 (@nil (string * Instrument.entry string))) "a"
  = Raise (ValueError "identifier is not valid")
  /\ Instrument.get_module (Instrument.mkT (0, 0) 0 (@nil (string * Instrument.entry string))) "a"
     = Raise (ValueError "identifier is not valid")
  /\ (forall id', id' <> "a"%string ->
        Instrument.get_module
          (Instrument.mkT (0, 0) 0 (@nil (string * Instrument.entry string))) id'
        = Instrument.get_module one_module id'
        /\ Instrument.get_location
             (Instrument.mkT (0, 0) 0 (@nil (string * Instrument.entry string))) id'
           = Instrument.get_location one_module id'
        /\ Instrument.get_mod_rot
             (Instrument.mkT (0, 0) 0 (@nil (string * Instrument.entry string))) id'
           = Instrument.get_mod_rot one_module id').
Proof.
  apply (delete_module_forgets string one_module "a"%string). reflexivity.
Defined.

Lemma add_then_delete_restores_witness :
  exists self1,
    Instrument.add_module "CMBPol"%string "SFH"%string "EoRSpec"%string "Mod280"%string
      PrimeCam_slots one_module (inl "Mine"%string) (inl (2, 30)) 0 (Some "b"%string)
    = Ok self1
    /\ Instrument.delete_module self1 "b" = Ok one_module.
Proof.
  apply (add_then_delete_restores string "CMBPol"%string "SFH"%string "EoRSpec"%string
           "Mod280"%string PrimeCam_slots one_module "Mine"%string (2, 30) 0 "b"%string).
  reflexivity.
Defined.

Lemma change_module_renames_witness :
  exists self',
    Instrument.change_module PrimeCam_slots one_module "a" None None (Some "z"%string)
    = Ok self'
    /\ Instrument.get_module self' "z" = Ok "SFH"%string
    /\ Instrument.get_location self' "z" = Ok (1, 20)
    /\ Instrument.get_mod_rot self' "z" = Ok 5
    /\ ("z"%string <> "a"%string ->
        Instrument.get_location self' "a" = Raise (ValueError "identifier is not valid"))
    /\ (forall id', id' <> "a"%string -> id' <> "z"%string ->
        Instrument.get_location self' id' = Instrument.get_location one_module id').
Proof.
  apply (change_module_renames string PrimeCam_slots one_module "a"%string
           (Instrument.mkEntry "SFH"%string 1 20 5) "z"%string).
  reflexivity.
Defined.

Lemma change_module_updates_witness :
  exists self',
    Instrument.change_module PrimeCam_slots one_module "a"
      (Some (Instrument.as_list None (Some 45))) None None = Ok self'
    /\ Instrument.get_module self' "a" = Ok "SFH"%string
    /\ Instrument.get_location self' "a" = Ok (1, 45)
    /\ Instrument.get_mod_rot self' "a" = Ok 5
    /\ (forall id', id' <> "a"%string ->
        Instrument.get_location self' id' = Instrument.get_location one_module id').
Proof.
  apply (change_module_updates string PrimeCam_slots one_module "a"%string
           (Instrument.mkEntry "SFH"%string 1 20 5) None (Some 45) None).
  reflexivity.
Defined.

Lemma change_module_tuple_with_none_raises_witness :
  Instrument.change_module PrimeCam_slots one_module "a"
    (Some (Instrument.as_tuple None (Some 45))) None None
  = Raise (TypeError "'tuple' object does not support item assignment").
Proof.
  apply (change_module_tuple_with_none_raises string PrimeCam_slots one_module "a"%string
           (Instrument.mkEntry "SFH"%string 1 20 5) None (Some 45) None None).
  - reflexivity.
  - now left.
Defined.

(** ** Camera module: the angular resolution *)

Lemma np_unique_one_value l w :
  Forall (fun z => z = w) l -> CameraModule.np_unique l = [] \/ CameraModule.np_unique l = [w].
Proof.
  induction 1 as [| z l Hz _ IH]; [now left |].
  subst z. right. cbn [CameraModule.np_unique fold_right].
  fold (CameraModule.np_unique l).
  destruct IH as [-> | ->]; cbn [CameraModule.insert_unique]; [reflexivity |].
  now rewrite Z.ltb_irrefl, Z.eqb_refl.
Qed.

Lemma wafer_res_outcome data w :
  CameraModule.wafer_res data w = Raise IndexError
  \/ exists r, CameraModule.wafer_res data w = Ok r.
Proof.
  unfold CameraModule.wafer_res.
  destruct (firstn 2 (filter (fun q => (CameraModule.wafer q =? w)%Z) data))
    as [| a [| b rest]]; [now left | now left |].
  right. cbn [map CameraModule.list_item nth_error bind].
  eexists. apply pysqrt_ok.
  pose proof (Rle_0_sqr (CameraModule.px a - CameraModule.px b)) as Hx.
  pose proof (Rle_0_sqr (CameraModule.py a - CameraModule.py b)) as Hy.
  unfold Rsqr in Hx, Hy. lra.
Qed.

(** X30.  One wafer is not enough: on pixel data whose rows all carry the
    same wafer number (or on no rows at all) [_find_ang_res] raises
    [IndexError], as it compares the resolutions of the first three wafers
    by index. *)
Theorem find_ang_res_single_wafer data w :
  Forall (fun q => CameraModule.wafer q = w) data ->
  CameraModule._find_ang_res data = Raise IndexError.
Proof.
  intros H. unfold CameraModule._find_ang_res.
  assert (Hw : Forall (fun z => z = w) (map CameraModule.wafer data)).
  { apply Forall_forall. intros z Hz. apply in_map_iff in Hz.
    destruct Hz as (q & <- & Hq). revert q Hq. now apply Forall_forall. }
  destruct (np_unique_one_value _ w Hw) as [-> | ->]; [reflexivity |].
  cbn [for_each app].
  destruct (wafer_res_outcome data w) as [-> | [r ->]]; reflexivity.
Qed.

Lemma find_ang_res_single_wafer_witness :
  CameraModule._find_ang_res one_wafer = Raise IndexError.
Proof.
  apply (find_ang_res_single_wafer one_wafer 0%Z).
  unfold one_wafer. repeat constructor.
Defined.
